(** * Log investigation pipeline: normalise, validate, fingerprint, store,
      group, detect spikes.

    A shallow embedding of [app/normalize.py], [app/validate.py],
    [app/fingerprint.py], [app/ingest.py], [app/db.py], [app/group.py],
    [app/spikes.py] and [app/generator_service.py], with the properties of
    the specification proved (or refuted) over it.

    Conventions of the embedding.
    - A Python [str] is a [string]; character classes ([\d], [\w], [\s],
      [str.lower], [str.upper], [str.strip]) are given on the ASCII range,
      and the UTF-8 length of a string is its number of bytes.
    - A Python [float] and an SQLite REAL are IEEE binary64 numbers ([float]
      of the kernel); Python [int]s are [Z].
    - The wall clock ([datetime.utcnow()]) is an explicit argument [now].
    - A raised exception is the [Raise] case of [result].
    - The SQLite tables are lists of rows in rowid order. *)

From Stdlib Require Import ZArith List String Ascii Bool Lia Floats.
From Stdlib Require Import Sorting.Permutation Sorting.Sorted.
From Stdlib Require Import Numbers.DecimalString.
Import ListNotations.

Local Open Scope string_scope.
Local Open Scope Z_scope.

Set Warnings "-register-all".

(** ** Python values and exceptions *)

(** The values a decoded JSON document holds; a dict keeps insertion order. *)
Inductive pyval : Type :=
| VNone
| VBool (b : bool)
| VInt (z : Z)
| VFloat (f : float)
| VStr (s : string)
| VList (l : list pyval)
| VDict (d : list (string * pyval)).

(** The exception classes the modelled library calls raise. *)
Inductive exn : Type :=
| ValueError
| OverflowError
| OSError
| OperationalError.

Inductive result (A : Type) : Type :=
| Ok (a : A)
| Raise (e : exn).
Arguments Ok {A} a.
Arguments Raise {A} e.

Definition bind {A B : Type} (r : result A) (k : A -> result B) : result B :=
  match r with
  | Ok a => k a
  | Raise e => Raise e
  end.

Notation "x <- r ;; k" := (bind r (fun x => k))
  (at level 61, r at next level, right associativity).

(** ** Characters and strings *)

Module Str.

Definition code (c : ascii) : nat := nat_of_ascii c.

Definition between (lo hi : nat) (c : ascii) : bool :=
  (Nat.leb lo (code c) && Nat.leb (code c) hi)%bool.

Definition is_digit (c : ascii) : bool := between 48 57 c.
Definition is_upper (c : ascii) : bool := between 65 90 c.
Definition is_lower (c : ascii) : bool := between 97 122 c.

(** [[0-9a-fA-F]] *)
Definition is_hex (c : ascii) : bool :=
  (is_digit c || between 97 102 c || between 65 70 c)%bool.

(** [\w]: letters, digits and the underscore. *)
Definition is_word (c : ascii) : bool :=
  (is_digit c || is_upper c || is_lower c || Nat.eqb (code c) 95)%bool.

(** [\s] and [str.isspace]: TAB, LF, VT, FF, CR, FS, GS, RS, US and space. *)
Definition is_space (c : ascii) : bool :=
  (between 9 13 c || between 28 31 c || Nat.eqb (code c) 32)%bool.

Definition lower_char (c : ascii) : ascii :=
  if is_upper c then ascii_of_nat (code c + 32) else c.

Definition upper_char (c : ascii) : ascii :=
  if is_lower c then ascii_of_nat (code c - 32) else c.

Fixpoint map (f : ascii -> ascii) (s : string) : string :=
  match s with
  | EmptyString => EmptyString
  | String c s' => String (f c) (map f s')
  end.

Definition lower : string -> string := map lower_char.
Definition upper : string -> string := map upper_char.

Fixpoint lstrip (s : string) : string :=
  match s with
  | EmptyString => EmptyString
  | String c s' => if is_space c then lstrip s' else s
  end.

Fixpoint rstrip (s : string) : string :=
  match s with
  | EmptyString => EmptyString
  | String c s' =>
      match rstrip s' with
      | EmptyString => if is_space c then EmptyString else String c EmptyString
      | r => String c r
      end
  end.

Definition strip (s : string) : string := rstrip (lstrip s).

(** [sep.join(parts)] *)
Fixpoint join (sep : string) (parts : list string) : string :=
  match parts with
  | [] => EmptyString
  | [p] => p
  | p :: rest => p ++ sep ++ join sep rest
  end.

(** Truthiness of a [str]: non-empty. *)
Definition nonempty (s : string) : bool :=
  match s with
  | EmptyString => false
  | String _ _ => true
  end.

(** [a or b] on strings. *)
Definition or_else (a b : string) : string := if nonempty a then a else b.

(** [str(n)] for an [int]. *)
Definition of_Z (z : Z) : string := NilEmpty.string_of_int (Z.to_int z).

(** [n] zero-padded to [w] digits, as [%0wd] prints a non-negative [n]. *)
Fixpoint pad_digits (w : nat) (n : Z) : string :=
  match w with
  | O => EmptyString
  | S w' =>
      pad_digits w' (n / 10) ++
      String (ascii_of_nat (48 + Z.to_nat (n mod 10))) EmptyString
  end.

(** Byte-wise comparison, the order of Python's [str] and of SQLite's
    BINARY collation on TEXT. *)
Definition leb (a b : string) : bool := String.leb a b.
Definition ltb (a b : string) : bool := String.ltb a b.

Definition mem (s : string) (l : list string) : bool :=
  existsb (String.eqb s) l.

End Str.

(** ** Canonical schema ([app/schema.py]) *)

(** A [datetime]: [micros] counts the microseconds of its wall-clock fields
    since 0001-01-01T00:00:00, [tz] is the UTC offset in microseconds of an
    aware value and [None] for a naive one. *)
Record datetime : Type := mkDatetime {
  micros : Z;
  tz : option Z
}.

Record CanonicalLog : Type := mkCanonicalLog {
  timestamp : datetime;
  level : string;
  message : string;
  service : string;
  correlation_id : string;
  metadata : list (string * pyval);
  raw : string
}.

(** ** Fingerprints ([app/fingerprint.py]) *)

Module Fingerprint.

(** The regular expressions of the module are sequences of these atoms:
    a character class, a greedy starred class, one literal character and the
    word boundary [\b]. *)
Inductive atom : Type :=
| Cls (p : ascii -> bool)
| Star (p : ascii -> bool)
| Chr (c : ascii)
| WordB.

Definition word_opt (c : option ascii) : bool :=
  match c with
  | Some a => Str.is_word a
  | None => false
  end.

Definition head (s : string) : option ascii :=
  match s with
  | EmptyString => None
  | String c _ => Some c
  end.

(** [\b] holds between [prev] and the head of [s] when exactly one of them is
    a word character; the two ends of the text count as non-word. *)
Definition at_boundary (prev : option ascii) (s : string) : bool :=
  xorb (word_opt prev) (word_opt (head s)).

(** Backtracking match of [pat] at the head of [s], [prev] being the
    character before it. The first match in the engine's priority order is
    returned: a starred class takes as many characters as it can and gives
    them back one at a time. The result is the last character consumed (or
    [prev]) and the text left. *)
Fixpoint match_here (pat : list atom)
  : option ascii -> string -> option (option ascii * string) :=
  match pat with
  | [] => fun prev s => Some (prev, s)
  | a :: pat' =>
      let k := match_here pat' in
      match a with
      | Cls p => fun _ s =>
          match s with
          | String c s' => if p c then k (Some c) s' else None
          | EmptyString => None
          end
      | Chr x => fun _ s =>
          match s with
          | String c s' => if Ascii.eqb c x then k (Some c) s' else None
          | EmptyString => None
          end
      | WordB => fun prev s => if at_boundary prev s then k prev s else None
      | Star p =>
          fix star (prev : option ascii) (s : string) :=
            match s with
            | String c s' =>
                if p c then
                  match star (Some c) s' with
                  | Some r => Some r
                  | None => k prev s
                  end
                else k prev s
            | EmptyString => k prev s
            end
      end
  end.

(** [re.sub(pat, repl, s)] for a pattern that matches no empty text: scan
    left to right, replace each leftmost match and resume after it. [fuel]
    bounds the number of steps; [String.length s] is enough. *)
Fixpoint sub_loop (pat : list atom) (repl : string) (fuel : nat)
  (prev : option ascii) (s : string) : string :=
  match fuel with
  | O => s
  | S fuel' =>
      match s with
      | EmptyString => EmptyString
      | String c s' =>
          match match_here pat prev s with
          | Some (prev', rest) =>
              if Nat.ltb (String.length rest) (String.length s)
              then repl ++ sub_loop pat repl fuel' prev' rest
              else String c (sub_loop pat repl fuel' (Some c) s')
          | None => String c (sub_loop pat repl fuel' (Some c) s')
          end
      end
  end.

Definition re_sub (pat : list atom) (repl : string) (s : string) : string :=
  sub_loop pat repl (String.length s) None s.

Definition hexes (n : nat) : list atom := repeat (Cls Str.is_hex) n.

(** [[0-9a-fA-F]{8}-[0-9a-fA-F]{4}-[0-9a-fA-F]{4}-[0-9a-fA-F]{4}-[0-9a-fA-F]{12}] *)
Definition uuid_re : list atom :=
  hexes 8 ++ [Chr "-"] ++ hexes 4 ++ [Chr "-"] ++ hexes 4 ++ [Chr "-"] ++
  hexes 4 ++ [Chr "-"] ++ hexes 12.

(** [\b0x[0-9a-fA-F]+\b] *)
Definition hex_re : list atom :=
  [WordB; Chr "0"; Chr "x"; Cls Str.is_hex; Star Str.is_hex; WordB].

(** [\b\d+\b] *)
Definition int_re : list atom :=
  [WordB; Cls Str.is_digit; Star Str.is_digit; WordB].

(** [:\s*<n>] *)
Definition colon_re : list atom :=
  [Chr ":"; Star Str.is_space; Chr "<"; Chr "n"; Chr ">"].

Definition _normalize_message_for_fingerprint (message : string) : string :=
  if negb (Str.nonempty message) then ""
  else
    let text := re_sub uuid_re "<uuid>" message in
    let text := re_sub hex_re "<hex>" text in
    let text := re_sub int_re "<n>" text in
    let text := re_sub colon_re ":<n>" text in
    Str.strip text.

Definition compute_fingerprint (log : CanonicalLog) : string :=
  let normalized_msg := _normalize_message_for_fingerprint (message log) in
  let parts := [service log; level log; normalized_msg] in
  Str.join "|" (filter Str.nonempty parts).

End Fingerprint.

(** *** Properties of the fingerprint *)

Module FingerprintProps.
Import Fingerprint.

Lemma append_nil_r (s : string) : s ++ "" = s.
Proof. induction s as [|c s IH]; simpl; [reflexivity | now rewrite IH]. Qed.

Lemma append_assoc (a b c : string) : (a ++ b) ++ c = a ++ (b ++ c).
Proof. induction a as [|x a IH]; simpl; [reflexivity | now rewrite IH]. Qed.

Lemma length_append (a b : string) :
  String.length (a ++ b) = (String.length a + String.length b)%nat.
Proof. induction a as [|x a IH]; simpl; [reflexivity | now rewrite IH]. Qed.

(** A common suffix cancels. *)
Lemma append_cancel_r (t a b : string) : a ++ t = b ++ t -> a = b.
Proof.
  revert b; induction a as [|x a IH]; intros [|y b] H; simpl in H.
  - reflexivity.
  - apply (f_equal String.length) in H; simpl in H.
    rewrite length_append in H; lia.
  - apply (f_equal String.length) in H; simpl in H.
    rewrite length_append in H; lia.
  - injection H as -> H. f_equal. now apply IH.
Qed.

(** [has_bar s]: the separator occurs in [s]. *)
Fixpoint has_bar (s : string) : bool :=
  match s with
  | EmptyString => false
  | String c s' => (Ascii.eqb c "|" || has_bar s')%bool
  end.

Lemma has_bar_append (a b : string) :
  has_bar (a ++ b) = (has_bar a || has_bar b)%bool.
Proof.
  induction a as [|x a IH]; simpl; [reflexivity|].
  now rewrite IH, orb_assoc.
Qed.

(** Splitting at the last separator: when nothing after it holds a
    separator, both sides of it are determined. *)
Lemma split_last_bar (s1 s2 l1 l2 : string) :
  has_bar l1 = false -> has_bar l2 = false ->
  s1 ++ "|" ++ l1 = s2 ++ "|" ++ l2 -> s1 = s2 /\ l1 = l2.
Proof.
  intros H1 H2; revert s2.
  induction s1 as [|x s1 IH]; intros [|y s2] H; simpl in H.
  - injection H as H; now split.
  - injection H as <- H. subst l1.
    rewrite has_bar_append in H1; simpl in H1.
    now rewrite orb_true_r in H1.
  - injection H as -> H. subst l2.
    rewrite has_bar_append in H2; simpl in H2.
    now rewrite orb_true_r in H2.
  - injection H as -> H. destruct (IH _ H) as [-> ->]. now split.
Qed.

(** With a non-empty level the fingerprint is a prefix made of the service
    and the level, followed by a tail that depends on the message only. *)
Definition fp_head (svc lvl : string) : string :=
  if Str.nonempty svc then svc ++ "|" ++ lvl else lvl.

Definition fp_tail (msg : string) : string :=
  let nm := _normalize_message_for_fingerprint msg in
  if Str.nonempty nm then "|" ++ nm else "".

Lemma compute_fingerprint_split (log : CanonicalLog) :
  Str.nonempty (level log) = true ->
  compute_fingerprint log
  = fp_head (service log) (level log) ++ fp_tail (message log).
Proof.
  intros Hl. unfold compute_fingerprint, fp_head, fp_tail.
  cbv zeta. cbn [filter]. rewrite Hl.
  destruct (service log) as [|c svc] eqn:Es;
    destruct (_normalize_message_for_fingerprint (message log)) as [|d nm] eqn:En;
    destruct (level log) as [|e lvl] eqn:El; try discriminate; cbn.
  - now rewrite append_nil_r.
  - reflexivity.
  - now rewrite !append_assoc, append_nil_r.
  - rewrite !append_assoc. reflexivity.
Qed.

Lemma fp_head_inj (s1 l1 s2 l2 : string) :
  has_bar l1 = false -> has_bar l2 = false ->
  fp_head s1 l1 = fp_head s2 l2 -> s1 = s2 /\ l1 = l2.
Proof.
  intros H1 H2. unfold fp_head.
  destruct s1 as [|c1 s1]; destruct s2 as [|c2 s2]; cbn [Str.nonempty]; intros H.
  - now split.
  - subst l1. change (String c2 s2 ++ "|" ++ l2) with (String c2 (s2 ++ "|" ++ l2)) in H1.
    cbn [has_bar] in H1. rewrite has_bar_append in H1. cbn in H1.
    now rewrite !orb_true_r in H1.
  - subst l2. change (String c1 s1 ++ "|" ++ l1) with (String c1 (s1 ++ "|" ++ l1)) in H2.
    cbn [has_bar] in H2. rewrite has_bar_append in H2. cbn in H2.
    now rewrite !orb_true_r in H2.
  - now apply split_last_bar.
Qed.

(** The least number of characters a match of [pat] consumes. *)
Fixpoint min_width (pat : list atom) : nat :=
  match pat with
  | [] => 0
  | (Cls _ | Chr _) :: pat' => S (min_width pat')
  | (Star _ | WordB) :: pat' => min_width pat'
  end.

Lemma match_star_eq (p : ascii -> bool) (pat : list atom)
  (prev : option ascii) (s : string) :
  match_here (Star p :: pat) prev s
  = match s with
    | String c s' =>
        if p c then
          match match_here (Star p :: pat) (Some c) s' with
          | Some r => Some r
          | None => match_here pat prev s
          end
        else match_here pat prev s
    | EmptyString => match_here pat prev s
    end.
Proof. destruct s; reflexivity. Qed.

Lemma match_here_consumes (pat : list atom) :
  forall prev s prev' rest,
    match_here pat prev s = Some (prev', rest) ->
    (String.length rest + min_width pat <= String.length s)%nat.
Proof.
  induction pat as [|a pat IH]; intros prev s prev' rest.
  - cbn. intros H. inversion H; subst. lia.
  - destruct a as [p | p | x | ].
    + cbn. destruct s as [|c s]; [discriminate|].
      destruct (p c); [|discriminate].
      intros H. apply IH in H. cbn. lia.
    + revert prev prev' rest.
      induction s as [|c s IHs]; intros prev prev' rest;
        rewrite match_star_eq.
      * apply IH.
      * destruct (p c); [|apply IH].
        destruct (match_here (Star p :: pat) (Some c) s) as [[q r]|] eqn:E.
        -- intros H. inversion H; subst. apply IHs in E.
           cbn [String.length]. lia.
        -- apply IH.
    + cbn. destruct s as [|c s]; [discriminate|].
      destruct (Ascii.eqb c x); [|discriminate].
      intros H. apply IH in H. cbn. lia.
    + cbn. destruct (at_boundary prev s); [apply IH | discriminate].
Qed.

(** The four patterns of the module match no empty text, so [sub_loop]
    always resumes after the match. *)
Lemma patterns_consume (pat : list atom) :
  In pat [uuid_re; hex_re; int_re; colon_re] ->
  forall prev s prev' rest,
    match_here pat prev s = Some (prev', rest) ->
    (String.length rest < String.length s)%nat.
Proof.
  intros Hpat prev s prev' rest H. apply match_here_consumes in H.
  assert (1 <= min_width pat)%nat; [|lia].
  destruct Hpat as [<- | [<- | [<- | [<- | []]]]]; cbn; lia.
Qed.

Definition sample_log (svc lvl msg : string) : CanonicalLog :=
  mkCanonicalLog (mkDatetime 0 None) lvl msg svc "" [] "".



(** C7, as stated, fails: the parts are joined with a bare "|" and an
    empty part is dropped, so a service that ends in "|B" with level "C" and
    the same service without it with level "B|C" collide on one message. *)
Lemma compute_fingerprint_collision :
  ~ (forall l1 l2 : CanonicalLog,
       message l1 = message l2 ->
       service l1 <> service l2 \/ level l1 <> level l2 ->
       compute_fingerprint l1 <> compute_fingerprint l2).
Proof.
  intros H.
  apply (H (sample_log "a|B" "C" "m") (sample_log "a" "B|C" "m")).
  - reflexivity.
  - left. discriminate.
  - vm_compute. reflexivity.
Qed.

(** C7, amended. For two entries with the same message whose levels are
    non-empty and hold no "|" (every whitelisted level is such), different
    services or different levels give different fingerprints. *)
Theorem compute_fingerprint_separates (l1 l2 : CanonicalLog) :
  message l1 = message l2 ->
  Str.nonempty (level l1) = true -> has_bar (level l1) = false ->
  Str.nonempty (level l2) = true -> has_bar (level l2) = false ->
  service l1 <> service l2 \/ level l1 <> level l2 ->
  compute_fingerprint l1 <> compute_fingerprint l2.
Proof.
  intros Hm N1 B1 N2 B2 Hd Hfp.
  rewrite (compute_fingerprint_split l1 N1) in Hfp.
  rewrite (compute_fingerprint_split l2 N2) in Hfp.
  rewrite Hm in Hfp. apply append_cancel_r in Hfp.
  destruct (fp_head_inj _ _ _ _ B1 B2 Hfp) as [Es El].
  destruct Hd as [Hd | Hd]; contradiction.
Qed.

Lemma compute_fingerprint_separates_witness :
  compute_fingerprint (sample_log "auth|x" "ERROR" "boom 1")
  <> compute_fingerprint (sample_log "auth" "ERROR" "boom 1").
Proof.
  apply (compute_fingerprint_separates
           (sample_log "auth|x" "ERROR" "boom 1")
           (sample_log "auth" "ERROR" "boom 1"));
    try reflexivity.
  left. discriminate.
Defined.

End FingerprintProps.

(** ** Library calls left abstract

    Calls into the Python runtime that are given no definition here (the
    printing and parsing of values) are the fields of this class; every
    theorem holds for every instance. *)
Class PyLib : Type := {
  (** [repr(v)], which [str(v)] returns for every value but a [str] *)
  py_repr : pyval -> string;
  (** [json.dumps(v)] *)
  json_dumps : pyval -> result string;
  (** [datetime.fromisoformat(s)], [None] when it raises *)
  fromisoformat : string -> option datetime;
  (** [float(s)], [None] when it raises *)
  float_of_str : string -> option float;
  (** the order in which a [set] of strings is iterated *)
  set_order : list string -> list string;
  set_order_perm : forall l, Permutation (set_order l) l;
  (** [str(e)] for an exception *)
  exn_str : exn -> string
}.

(** An instance to run the definitions on: values print as ["?"], no text
    parses, a set is iterated as written. *)
Definition plain_lib : PyLib := {|
  py_repr := fun _ => "?";
  json_dumps := fun _ => Ok "?";
  fromisoformat := fun _ => None;
  float_of_str := fun _ => None;
  set_order := fun l => l;
  set_order_perm := fun l => Permutation_refl l;
  exn_str := fun _ => "error"
|}.

(** [str(v)] *)
Definition py_str `{PyLib} (v : pyval) : string :=
  match v with
  | VStr s => s
  | _ => py_repr v
  end.

(** Truth value of a Python object. *)
Definition truthy (v : pyval) : bool :=
  match v with
  | VNone => false
  | VBool b => b
  | VInt z => negb (z =? 0)
  | VFloat f => negb (PrimFloat.eqb f 0%float)
  | VStr s => Str.nonempty s
  | VList l => match l with [] => false | _ => true end
  | VDict d => match d with [] => false | _ => true end
  end.

(** [a or b] *)
Definition py_or (a b : pyval) : pyval := if truthy a then a else b.

(** A [dict] built by inserting the pairs in order: a later pair with the
    key of an earlier one replaces its value and keeps its position. *)
Fixpoint dict_set (d : list (string * pyval)) (k : string) (v : pyval)
  : list (string * pyval) :=
  match d with
  | [] => [(k, v)]
  | (k', v') :: d' =>
      if String.eqb k' k then (k', v) :: d' else (k', v') :: dict_set d' k v
  end.

Fixpoint dict_lookup (d : list (string * pyval)) (k : string) : option pyval :=
  match d with
  | [] => None
  | (k', v) :: d' => if String.eqb k' k then Some v else dict_lookup d' k
  end.

(** [d.get(k)] *)
Definition dict_get (d : list (string * pyval)) (k : string) : pyval :=
  match dict_lookup d k with
  | Some v => v
  | None => VNone
  end.

(** ** Configuration ([app/config.py]) *)

Record Settings : Type := mkSettings {
  max_log_size_bytes : Z
}.

(** [MAX_LOG_SIZE_BYTES] unset. *)
Definition default_settings : Settings := mkSettings 50000.

Definition allowed_levels : list string :=
  ["DEBUG"; "INFO"; "WARNING"; "ERROR"; "CRITICAL"].

(** [str(settings.allowed_levels)] *)
Definition allowed_levels_repr : string :=
  "('DEBUG', 'INFO', 'WARNING', 'ERROR', 'CRITICAL')".

(** ** Validation ([app/validate.py]) *)

Module Validate.

(** What [validate_log] is called on: a [CanonicalLog], or any other value
    (a [dict] among them). *)
Inductive log_arg : Type :=
| ACanonical (log : CanonicalLog)
| AValue (v : pyval).

(** [len(s.encode("utf-8"))] *)
Definition utf8_len (s : string) : Z := Z.of_nat (String.length s).

Definition level_error (level : string) : string :=
  "Invalid level: " ++ level ++ ". Allowed: " ++ allowed_levels_repr.

Definition size_error (settings : Settings) (payload_size : Z) : string :=
  "Log payload too large: " ++ Str.of_Z payload_size ++ " > "
  ++ Str.of_Z (max_log_size_bytes settings).

Definition message_error : string := "Message is required".

(** The three checks after the extraction of [level], [message] and
    [payload_size]; [is_dict] is [isinstance(log, dict)]. *)
Definition check_rules (settings : Settings) (level message : string)
  (payload_size : Z) (is_dict : bool) : bool * list string :=
  let errors : list string := [] in
  let errors :=
    if negb (Str.mem level allowed_levels)
    then (errors ++ [level_error level])%list else errors in
  let errors :=
    if payload_size >? max_log_size_bytes settings
    then (errors ++ [size_error settings payload_size])%list else errors in
  let errors :=
    if (negb (Str.nonempty message) && negb is_dict)%bool
    then (errors ++ [message_error])%list else errors in
  (Nat.eqb (List.length errors) 0, errors).

(** The [CanonicalLog] branch's [payload_size]. *)
Definition canonical_payload_size (log : CanonicalLog) : Z :=
  utf8_len (Str.or_else (raw log) "") + utf8_len (message log).

(** The [dict] branch's [level], [message] and [payload_size]. *)
Definition dict_level (d : list (string * pyval)) : string :=
  let level :=
    py_or (py_or (py_or (dict_get d "level") (dict_get d "lvl"))
             (dict_get d "severity"))
      (VStr "INFO") in
  match level with
  | VStr s => Str.upper s
  | _ => "INFO"
  end.

Definition dict_message `{PyLib} (d : list (string * pyval)) : string :=
  py_str (py_or (py_or (py_or (dict_get d "message") (dict_get d "msg"))
                   (dict_get d "text"))
            (VStr "")).

Definition dict_payload_size `{PyLib} (d : list (string * pyval)) : Z :=
  match json_dumps (VDict d) with
  | Ok s => utf8_len s
  | Raise _ => 0
  end.

Definition validate_log `{PyLib} (settings : Settings) (log : log_arg)
  : bool * list string :=
  match log with
  | ACanonical log =>
      check_rules settings (level log) (message log)
        (canonical_payload_size log) false
  | AValue (VDict d) =>
      check_rules settings (dict_level d) (dict_message d)
        (dict_payload_size d) true
  | AValue _ => (false, ["Log must be a dict or CanonicalLog"])
  end.

End Validate.

(** *** Properties of the validator *)

Module ValidateProps.
Import Validate.

Definition sample_log (lvl msg raw : string) : CanonicalLog :=
  mkCanonicalLog (mkDatetime 0 None) lvl msg "svc" "" [] raw.

Lemma nonempty_false (s : string) : Str.nonempty s = false <-> s = "".
Proof. destruct s; simpl; split; intros; congruence. Qed.

Lemma check_rules_errors settings lvl msg size is_dict :
  snd (check_rules settings lvl msg size is_dict)
  = ((if Str.mem lvl allowed_levels then [] else [level_error lvl])
     ++ (if size >? max_log_size_bytes settings
         then [size_error settings size] else [])
     ++ (if (negb (Str.nonempty msg) && negb is_dict)%bool
         then [message_error] else []))%list.
Proof.
  unfold check_rules; cbv zeta.
  destruct (Str.mem lvl allowed_levels), (size >? max_log_size_bytes settings),
    (negb (Str.nonempty msg) && negb is_dict)%bool; reflexivity.
Qed.

Lemma check_rules_valid settings lvl msg size is_dict :
  fst (check_rules settings lvl msg size is_dict) = true
  <-> Str.mem lvl allowed_levels = true
      /\ size <= max_log_size_bytes settings
      /\ (negb (Str.nonempty msg) && negb is_dict)%bool = false.
Proof.
  unfold check_rules; cbv zeta.
  destruct (Str.mem lvl allowed_levels),
    (Z.gtb_spec size (max_log_size_bytes settings)),
    (negb (Str.nonempty msg) && negb is_dict)%bool; cbn;
    split; try discriminate; try tauto; try lia;
    intros (? & ? & ?); try discriminate; lia.
Qed.

(** C4, as stated, fails: an entry with a whitelisted level and a payload
    under the ceiling is still invalid when its message is empty. *)
Lemma validate_log_third_rule :
  ~ (forall (L : PyLib) (settings : Settings) (log : CanonicalLog),
       fst (validate_log settings (ACanonical log)) = false
       <-> (Str.mem (level log) allowed_levels = false
            \/ canonical_payload_size log > max_log_size_bytes settings)).
Proof.
  intros H.
  destruct (H plain_lib default_settings (sample_log "INFO" "" "")) as [H1 _].
  destruct (H1 eq_refl) as [F | F]; vm_compute in F; discriminate.
Qed.

(** C4, amended. On a [CanonicalLog], [validate_log] answers [False]
    exactly when the level is outside the whitelist, or the UTF-8 length of
    the message plus [raw] exceeds the ceiling, or the message is empty, and
    [True] otherwise; the checks accumulate: when the level and the size
    rules are both violated the error list starts with the level error
    followed by the size error. *)
Theorem validate_log_canonical `{PyLib} (settings : Settings) (log : CanonicalLog) :
  (fst (validate_log settings (ACanonical log)) = false
   <-> (Str.mem (level log) allowed_levels = false
        \/ canonical_payload_size log > max_log_size_bytes settings
        \/ message log = ""))
  /\ (Str.mem (level log) allowed_levels = false ->
      canonical_payload_size log > max_log_size_bytes settings ->
      exists rest,
        snd (validate_log settings (ACanonical log))
        = level_error (level log)
          :: size_error settings (canonical_payload_size log) :: rest).
Proof.
  cbn [validate_log]. split.
  - rewrite <- not_true_iff_false, check_rules_valid.
    rewrite <- nonempty_false.
    destruct (Str.mem (level log) allowed_levels),
      (Str.nonempty (message log)),
      (Z_le_gt_dec (canonical_payload_size log) (max_log_size_bytes settings));
      cbn; intuition (discriminate || lia).
  - intros Hl Hs. rewrite check_rules_errors, Hl.
    destruct (Z.gtb_spec (canonical_payload_size log) (max_log_size_bytes settings));
      [|lia].
    eexists. reflexivity.
Qed.

Lemma validate_log_canonical_witness :
  exists rest,
    snd (@validate_log plain_lib (mkSettings 5)
           (ACanonical (sample_log "TRACE" "hello!" "")))
    = level_error "TRACE" :: size_error (mkSettings 5) 6 :: rest.
Proof.
  exact (proj2 (@validate_log_canonical plain_lib (mkSettings 5)
                  (sample_log "TRACE" "hello!" "")) eq_refl eq_refl).
Defined.

Lemma level_error_not_message lvl : level_error lvl <> message_error.
Proof. unfold level_error, message_error; cbn; discriminate. Qed.

Lemma size_error_not_message settings size :
  size_error settings size <> message_error.
Proof. unfold size_error, message_error; cbn; discriminate. Qed.

(** C10. On a [CanonicalLog] with an empty message [validate_log] answers
    [False] with the error "Message is required", and with that error alone
    when the level is whitelisted and the payload is under the ceiling. The
    rule is never applied to a [dict]: its error list never holds that
    error, and a [dict] whose level and size are acceptable is valid
    whatever its message. *)
Theorem validate_log_message_required `{PyLib} (settings : Settings) :
  (forall log : CanonicalLog,
     message log = "" ->
     fst (validate_log settings (ACanonical log)) = false
     /\ In "Message is required" (snd (validate_log settings (ACanonical log)))
     /\ (Str.mem (level log) allowed_levels = true ->
         canonical_payload_size log <= max_log_size_bytes settings ->
         validate_log settings (ACanonical log)
         = (false, ["Message is required"])))
  /\ (forall d : list (string * pyval),
        ~ In "Message is required" (snd (validate_log settings (AValue (VDict d))))
        /\ (Str.mem (dict_level d) allowed_levels = true ->
            dict_payload_size d <= max_log_size_bytes settings ->
            validate_log settings (AValue (VDict d)) = (true, []))).
Proof.
  split.
  - intros log Hm. cbn [validate_log].
    assert (Hv : fst (check_rules settings (level log) (message log)
                        (canonical_payload_size log) false) = false).
    { apply not_true_iff_false. rewrite check_rules_valid, Hm.
      intros (_ & _ & F). discriminate. }
    split; [exact Hv|].
    split.
    + rewrite check_rules_errors, Hm. cbn.
      rewrite !in_app_iff. right. right. now left.
    + intros Hl Hs. unfold check_rules; cbv zeta. rewrite Hl, Hm.
      destruct (Z.gtb_spec (canonical_payload_size log) (max_log_size_bytes settings));
        [lia | reflexivity].
  - intros d. cbn [validate_log]. split.
    + rewrite check_rules_errors, andb_false_r, app_nil_r, in_app_iff.
      intros [F | F].
      * destruct (Str.mem (dict_level d) allowed_levels); [contradiction|].
        destruct F as [F | []]. now apply level_error_not_message in F.
      * destruct (dict_payload_size d >? max_log_size_bytes settings);
          [|contradiction].
        destruct F as [F | []]. now apply size_error_not_message in F.
    + intros Hl Hs. unfold check_rules; cbv zeta. rewrite Hl, andb_false_r.
      destruct (Z.gtb_spec (dict_payload_size d) (max_log_size_bytes settings));
        [lia | reflexivity].
Qed.

Lemma validate_log_message_required_witness :
  @validate_log plain_lib default_settings
    (ACanonical (sample_log "INFO" "" "{}"))
  = (false, ["Message is required"])
  /\ @validate_log plain_lib default_settings
       (AValue (VDict [("level", VStr "info"); ("message", VStr "")]))
     = (true, []).
Proof.
  split.
  - apply (proj1 (@validate_log_message_required plain_lib default_settings)
             (sample_log "INFO" "" "{}") eq_refl);
      [reflexivity | vm_compute; discriminate].
  - apply (proj2 (@validate_log_message_required plain_lib default_settings)
             [("level", VStr "info"); ("message", VStr "")]);
      [reflexivity | vm_compute; discriminate].
Defined.

End ValidateProps.

(** ** Numbers: [int], [float] and their conversions *)

Module Num.

(** [float(z)] for a Python [int], and the conversion of an SQLite INTEGER
    to REAL: the nearest binary64 number, ties to even; infinite when [z]
    is beyond the range. *)
Definition of_Z (z : Z) : float :=
  SF2Prim (binary_normalize prec emax z 0 false).

Definition is_finite (f : float) : bool :=
  negb (PrimFloat.is_nan f || PrimFloat.is_infinity f).

(** The integer part of [m * 2^e] for a positive [m]. *)
Definition mag_trunc (m : positive) (e : Z) : Z :=
  if 0 <=? e then Z.pos m * 2 ^ e else Z.pos m / 2 ^ (- e).

(** [m * 2^e] rounded to the nearest integer, ties to the even one. *)
Definition mag_round_half_even (m : positive) (e : Z) : Z :=
  if 0 <=? e then Z.pos m * 2 ^ e
  else
    let d := 2 ^ (- e) in
    let q := Z.pos m / d in
    let r := Z.pos m mod d in
    if (d <? 2 * r) || ((d =? 2 * r) && Z.odd q) then q + 1 else q.

(** [trunc(f)] of a finite [f] (zero otherwise). *)
Definition trunc (f : float) : Z :=
  match Prim2SF f with
  | S754_finite s m e => if s then - mag_trunc m e else mag_trunc m e
  | _ => 0
  end.

(** [k * f] rounded to the nearest integer, ties to even, for a finite [f]
    (zero otherwise); the product is exact. *)
Definition round_half_even_scaled (k : positive) (f : float) : Z :=
  match Prim2SF f with
  | S754_finite s m e =>
      if s then - mag_round_half_even (m * k) e
      else mag_round_half_even (m * k) e
  | _ => 0
  end.

(** [round(f, 2)]: the decimal with two places nearest the exact value of
    [f] (ties to even), and then the binary64 number nearest that decimal.
    From [2^46] on, every binary64 number is further from its neighbours than
    a hundredth and [round] returns its argument. *)
Definition round2 (f : float) : float :=
  if negb (is_finite f) then f
  else if PrimFloat.leb (of_Z (2 ^ 46)) (PrimFloat.abs f) then f
  else
    let n := round_half_even_scaled 100 f in
    if n =? 0 then PrimFloat.mul f 0%float
    else PrimFloat.div (of_Z n) (of_Z 100).

End Num.

(** ** [datetime] *)

Module Datetime.

Definition us_per_second : Z := 1000000.
Definition us_per_day : Z := 86400 * us_per_second.

(** Days from 0001-01-01 to 1970-01-01 and to 10000-01-01. *)
Definition epoch_days : Z := 719162.
Definition end_days : Z := 3652059.

(** [datetime.min <= d <= datetime.max] on the wall-clock fields. *)
Definition in_range (m : Z) : bool :=
  (0 <=? m) && (m <? end_days * us_per_day).

(** Proleptic Gregorian date of the day [days] after 0001-01-01. *)
Definition civil_from_days (days : Z) : Z * Z * Z :=
  let z := days + 306 in
  let era := z / 146097 in
  let doe := z - era * 146097 in
  let yoe := (doe - doe / 1460 + doe / 36524 - doe / 146096) / 365 in
  let y := yoe + era * 400 in
  let doy := doe - (365 * yoe + yoe / 4 - yoe / 100) in
  let mp := (5 * doy + 2) / 153 in
  let d := doy - (153 * mp + 2) / 5 + 1 in
  let m := if mp <? 10 then mp + 3 else mp - 9 in
  (if m <=? 2 then y + 1 else y, m, d).

Definition year_of (m : Z) : Z :=
  let '(y, _, _) := civil_from_days (m / us_per_day) in y.

(** The UTC offset as [isoformat] prints it: [+HH:MM], then [:SS] and
    [.ffffff] when they are not zero. *)
Definition format_offset (off : Z) : string :=
  let sign := if off <? 0 then "-" else "+" in
  let a := Z.abs off in
  let us := a mod us_per_second in
  let secs := a / us_per_second in
  let ss := secs mod 60 in
  let mm := (secs / 60) mod 60 in
  let hh := secs / 3600 in
  sign ++ Str.pad_digits 2 hh ++ ":" ++ Str.pad_digits 2 mm
  ++ (if (ss =? 0) && (us =? 0) then ""
      else ":" ++ Str.pad_digits 2 ss
           ++ (if us =? 0 then "" else "." ++ Str.pad_digits 6 us)).

(** [d.isoformat()] *)
Definition isoformat (d : datetime) : string :=
  let m := micros d in
  let '(y, mo, dd) := civil_from_days (m / us_per_day) in
  let rest := m mod us_per_day in
  let us := rest mod us_per_second in
  let secs := rest / us_per_second in
  Str.pad_digits 4 y ++ "-" ++ Str.pad_digits 2 mo ++ "-" ++ Str.pad_digits 2 dd
  ++ "T" ++ Str.pad_digits 2 (secs / 3600) ++ ":"
  ++ Str.pad_digits 2 ((secs / 60) mod 60) ++ ":" ++ Str.pad_digits 2 (secs mod 60)
  ++ (if us =? 0 then "" else "." ++ Str.pad_digits 6 us)
  ++ match tz d with
     | None => ""
     | Some off => format_offset off
     end.

(** The naive [datetime] of [secs] seconds and [us] microseconds after the
    epoch, as CPython builds it (on Linux): [OverflowError] beyond
    [time_t], [OSError] when [gmtime] cannot hold the year in an [int],
    [ValueError] when the year is outside 1..9999. *)
Definition from_timet_and_us (secs us : Z) : result datetime :=
  if negb ((- 2 ^ 63 <=? secs) && (secs <? 2 ^ 63)) then Raise OverflowError
  else
    let m := (epoch_days * 86400 + secs) * us_per_second + us in
    let y := year_of m in
    if negb ((- 2 ^ 31 <=? y - 1900) && (y - 1900 <? 2 ^ 31)) then Raise OSError
    else if negb (in_range m) then Raise ValueError
    else Ok (mkDatetime m None).

(** [datetime.utcfromtimestamp(z)] for an [int]. *)
Definition utcfromtimestamp_int (z : Z) : result datetime :=
  from_timet_and_us z 0.

(** [datetime.utcfromtimestamp(f)] for a [float]: the integral part, and the
    fractional part scaled to microseconds in binary64 and rounded to the
    nearest integer, ties to even, with the carry into the seconds. *)
Definition utcfromtimestamp_float (f : float) : result datetime :=
  if PrimFloat.is_nan f then Raise ValueError
  else if PrimFloat.is_infinity f then Raise OverflowError
  else
    let intpart := Num.trunc f in
    let floatpart := PrimFloat.sub f (Num.of_Z intpart) in
    let us :=
      Num.round_half_even_scaled 1
        (PrimFloat.mul floatpart (Num.of_Z us_per_second)) in
    let '(intpart, us) :=
      if us_per_second <=? us then (intpart + 1, us - us_per_second)
      else if us <? 0 then (intpart - 1, us + us_per_second)
      else (intpart, us) in
    from_timet_and_us intpart us.

(** [d - timedelta(minutes=n)]: [OverflowError] when the [timedelta] has
    more than 999999999 days, or the difference leaves the range of
    [datetime]. *)
Definition sub_minutes (d : datetime) (n : Z) : result datetime :=
  let delta := n * 60 * us_per_second in
  if 999999999 <? Z.abs (delta / us_per_day) then Raise OverflowError
  else
    let m := micros d - delta in
    if in_range m then Ok (mkDatetime m (tz d)) else Raise OverflowError.

End Datetime.

(** ** Normalisation ([app/normalize.py]) *)

Module Normalize.

Definition LEVEL_ALIASES : list string :=
  ["lvl"; "level"; "severity"; "log_level"; "severityLevel";
   "logLevel"; "severity_level"].
Definition MESSAGE_ALIASES : list string :=
  ["msg"; "message"; "text"; "log"; "description"].
Definition SERVICE_ALIASES : list string :=
  ["service"; "service_name"; "app"; "application"; "source"; "logger"].
Definition CORRELATION_ALIASES : list string :=
  ["correlation_id"; "correlationId"; "request_id"; "trace_id"; "traceId";
   "requestId"].
Definition TIMESTAMP_ALIASES : list string :=
  ["timestamp"; "time"; "ts"; "@timestamp"; "datetime"; "date"].

(** [{k.lower(): v for k, v in data.items()}] *)
Definition lower_keys (data : list (string * pyval)) : list (string * pyval) :=
  fold_left (fun acc kv => dict_set acc (Str.lower (fst kv)) (snd kv)) data [].

(** The loop of [_find_value] over the keys in the order given. *)
Fixpoint first_present (data_lower : list (string * pyval))
  (keys : list string) : pyval :=
  match keys with
  | [] => VNone
  | key :: keys' =>
      match dict_lookup data_lower (Str.lower key) with
      | Some v => v
      | None => first_present data_lower keys'
      end
  end.

(** [_find_value(data, *keys)]; the caller unpacks a [set], so the keys come
    in the set's iteration order. *)
Definition _find_value `{PyLib} (data : list (string * pyval))
  (keys : list string) : pyval :=
  first_present (lower_keys data) (set_order keys).

(** [s.replace("Z", "+00:00")] *)
Fixpoint replace_Z (s : string) : string :=
  match s with
  | EmptyString => EmptyString
  | String c s' =>
      if Ascii.eqb c "Z" then "+00:00" ++ replace_Z s'
      else String c (replace_Z s')
  end.

Definition _coerce_timestamp `{PyLib} (now : datetime) (ts : pyval)
  : result datetime :=
  match ts with
  | VNone => Ok now
  | VBool b => Datetime.utcfromtimestamp_int (if b then 1 else 0)
  | VInt z =>
      if z >? 10 ^ 12 then
        let f := Num.of_Z z in
        if PrimFloat.is_infinity f then Raise OverflowError
        else Datetime.utcfromtimestamp_float (PrimFloat.div f (Num.of_Z 1000))
      else Datetime.utcfromtimestamp_int z
  | VFloat f =>
      let f :=
        if PrimFloat.ltb (Num.of_Z (10 ^ 12)) f
        then PrimFloat.div f (Num.of_Z 1000) else f in
      Datetime.utcfromtimestamp_float f
  | VStr s =>
      match fromisoformat (replace_Z s) with
      | Some d => Ok d
      | None =>
          match float_of_str s with
          | Some f =>
              match Datetime.utcfromtimestamp_float f with
              | Ok d => Ok d
              | Raise _ => Ok now
              end
          | None => Ok now
          end
      end
  | VList _ | VDict _ => Ok now
  end.

Definition _coerce_level `{PyLib} (level : pyval) : string :=
  match level with
  | VNone => "INFO"
  | _ =>
      let s := Str.upper (Str.strip (py_str level)) in
      if Str.nonempty s then s else "INFO"
  end.

Definition _coerce_string `{PyLib} (val : pyval) : string :=
  match val with
  | VNone => ""
  | _ => Str.strip (py_str val)
  end.

(** The union of the five alias sets, lower-cased. *)
Definition known_lower : list string :=
  List.map Str.lower
    (LEVEL_ALIASES ++ MESSAGE_ALIASES ++ SERVICE_ALIASES
     ++ CORRELATION_ALIASES ++ TIMESTAMP_ALIASES).

Definition is_none (v : pyval) : bool :=
  match v with
  | VNone => true
  | _ => false
  end.

(** The test of the metadata loop on one item. *)
Definition keeps (kv : string * pyval) : bool :=
  negb (Str.mem (Str.lower (fst kv)) known_lower) && negb (is_none (snd kv)).

(** The metadata loop: [metadata[k] = v] for each item that passes. *)
Definition build_metadata (raw : list (string * pyval))
  : list (string * pyval) :=
  fold_left
    (fun metadata kv =>
       if keeps kv then dict_set metadata (fst kv) (snd kv) else metadata)
    raw [].

Definition normalize `{PyLib} (now : datetime) (raw : list (string * pyval))
  : result CanonicalLog :=
  let ts := _find_value raw TIMESTAMP_ALIASES in
  let level := _find_value raw LEVEL_ALIASES in
  let message := _find_value raw MESSAGE_ALIASES in
  let service := _find_value raw SERVICE_ALIASES in
  let correlation_id := _find_value raw CORRELATION_ALIASES in
  let metadata := build_metadata raw in
  timestamp <- _coerce_timestamp now ts ;;
  Ok (mkCanonicalLog
        timestamp
        (_coerce_level level)
        (Str.or_else (_coerce_string message) "(no message)")
        (Str.or_else (_coerce_string service) "unknown")
        (Str.or_else (_coerce_string correlation_id) "")
        metadata
        (match raw with
         | [] => ""
         | _ => py_str (VDict raw)
         end)).

End Normalize.

(** *** Properties of the normaliser *)

Module NormalizeProps.
Import Normalize.

Definition noon : datetime := mkDatetime (738000 * Datetime.us_per_day) None.

(** When every key that is present carries the same value, the iteration
    order does not matter. *)
Lemma first_present_unique (dl : list (string * pyval)) (v : pyval)
  (keys : list string) :
  (forall k, In k keys ->
             dict_lookup dl (Str.lower k) = Some v
             \/ dict_lookup dl (Str.lower k) = None) ->
  (exists k, In k keys /\ dict_lookup dl (Str.lower k) = Some v) ->
  first_present dl keys = v.
Proof.
  induction keys as [|key keys IH]; intros Hall (k & Hin & Hk).
  - destruct Hin.
  - cbn [first_present].
    destruct (Hall key (or_introl eq_refl)) as [E | E]; rewrite E; [reflexivity|].
    apply IH.
    + intros k' Hk'. apply Hall. now right.
    + exists k. split; [|exact Hk].
      destruct Hin as [-> | Hin]; [congruence | exact Hin].
Qed.

Lemma timestamp_only `{PyLib} (v : pyval) :
  _find_value [("timestamp", v)] TIMESTAMP_ALIASES = v.
Proof.
  unfold _find_value. apply first_present_unique.
  - intros k Hk. apply (Permutation_in _ (set_order_perm _)) in Hk.
    cbn in Hk.
    repeat (destruct Hk as [<- | Hk]; [cbn; tauto|]). destruct Hk.
  - exists "timestamp". split; [|reflexivity].
    apply (Permutation_in _ (Permutation_sym (set_order_perm _))).
    now left.
Qed.

(** C2 fails on the code: a numeric timestamp is handed to
    [datetime.utcfromtimestamp] outside any [try], and the call raises when
    the instant is outside the years 1..9999. Here the epoch-milliseconds
    value [10^18] becomes [1e15] seconds, in the year 31690708. *)
Theorem normalize_raises_on_numeric_timestamp `{PyLib} (now : datetime) :
  normalize now [("timestamp", VInt (10 ^ 18))] = Raise ValueError.
Proof.
  unfold normalize. rewrite timestamp_only. reflexivity.
Qed.

(** What C2 says does hold away from the numeric branch: when the timestamp
    found is not a number, [normalize] returns, and whenever it returns the
    level, the message and the service are non-empty. *)
Definition is_number (v : pyval) : bool :=
  match v with
  | VBool _ | VInt _ | VFloat _ => true
  | _ => false
  end.

Lemma coerce_timestamp_total `{PyLib} (now : datetime) (ts : pyval) :
  is_number ts = false -> exists d, _coerce_timestamp now ts = Ok d.
Proof.
  destruct ts; cbn; try discriminate; intros _; eauto.
  destruct (fromisoformat (replace_Z s)); eauto.
  destruct (float_of_str s); eauto.
  destruct (Datetime.utcfromtimestamp_float f); eauto.
Qed.

Lemma or_else_nonempty (a b : string) :
  Str.nonempty b = true -> Str.nonempty (Str.or_else a b) = true.
Proof. unfold Str.or_else. destruct (Str.nonempty a) eqn:E; auto. Qed.

Lemma coerce_level_nonempty `{PyLib} (v : pyval) :
  Str.nonempty (_coerce_level v) = true.
Proof.
  unfold _coerce_level.
  destruct v; try reflexivity;
    match goal with
    | |- context [if Str.nonempty ?s then _ else _] =>
        destruct (Str.nonempty s) eqn:E; [exact E | reflexivity]
    end.
Qed.

Lemma normalize_fields_defined `{PyLib} (now : datetime)
  (raw : list (string * pyval)) :
  (is_number (_find_value raw TIMESTAMP_ALIASES) = false ->
   exists c, normalize now raw = Ok c)
  /\ (forall c, normalize now raw = Ok c ->
        Str.nonempty (level c) = true
        /\ Str.nonempty (message c) = true
        /\ Str.nonempty (service c) = true
        /\ (_find_value raw LEVEL_ALIASES = VNone -> level c = "INFO")
        /\ (_find_value raw MESSAGE_ALIASES = VNone -> message c = "(no message)")
        /\ (_find_value raw SERVICE_ALIASES = VNone -> service c = "unknown")).
Proof.
  unfold normalize. split.
  - intros Hn. destruct (coerce_timestamp_total now _ Hn) as [d ->].
    cbn. eauto.
  - intros c. destruct (_coerce_timestamp now _); cbn; [|discriminate].
    intros [= <-]. cbn.
    repeat split.
    + apply coerce_level_nonempty.
    + now apply or_else_nonempty.
    + now apply or_else_nonempty.
    + now intros ->.
    + now intros ->.
    + now intros ->.
Qed.

(** Inserting a fresh key appends the pair. *)
Lemma dict_set_fresh (d : list (string * pyval)) (k : string) (v : pyval) :
  ~ In k (List.map fst d) -> dict_set d k v = (d ++ [(k, v)])%list.
Proof.
  induction d as [|[k' v'] d IH]; cbn; intros Hn; [reflexivity|].
  destruct (String.eqb_spec k' k) as [-> | Hne]; [tauto|].
  rewrite IH; [reflexivity | tauto].
Qed.

Lemma build_metadata_from (raw acc : list (string * pyval)) :
  NoDup (List.map fst raw) ->
  (forall k, In k (List.map fst raw) -> ~ In k (List.map fst acc)) ->
  fold_left
    (fun metadata kv =>
       if keeps kv then dict_set metadata (fst kv) (snd kv) else metadata)
    raw acc
  = (acc ++ filter keeps raw)%list.
Proof.
  revert acc. induction raw as [|[k v] raw IH]; intros acc Hnd Hdis; cbn.
  - now rewrite app_nil_r.
  - cbn in Hnd. inversion Hnd as [|? ? Hk Hnd']; subst.
    destruct (keeps (k, v)) eqn:Ek.
    + cbn [fst snd]. rewrite dict_set_fresh by (apply Hdis; now left).
      rewrite IH; [now rewrite <- app_assoc | exact Hnd' |].
      intros k' Hk'. rewrite map_app, in_app_iff. cbn.
      intros [F | [-> | []]].
      * apply (Hdis k'); [now right | exact F].
      * contradiction.
    + apply IH; [exact Hnd'|]. intros k' Hk'. apply Hdis. now right.
Qed.

(** On a dict (its keys are distinct) the metadata loop is a filter. *)
Lemma build_metadata_filter (raw : list (string * pyval)) :
  NoDup (List.map fst raw) -> build_metadata raw = filter keeps raw.
Proof.
  intros Hnd. unfold build_metadata.
  rewrite build_metadata_from; [reflexivity | exact Hnd | intros ? ? []].
Qed.

Lemma dict_lookup_in (d : list (string * pyval)) (k : string) (v : pyval) :
  NoDup (List.map fst d) -> (dict_lookup d k = Some v <-> In (k, v) d).
Proof.
  induction d as [|[k' v'] d IH]; cbn; intros Hnd.
  - split; [discriminate | tauto].
  - inversion Hnd as [|? ? Hk Hnd']; subst.
    destruct (String.eqb_spec k' k) as [-> | Hne].
    + split.
      * intros [= ->]. now left.
      * intros [[= ->] | Hin]; [reflexivity|].
        exfalso. apply Hk. now apply (in_map fst) in Hin.
    + rewrite (IH Hnd'). split; [tauto|].
      intros [[= -> _] | Hin]; [congruence | exact Hin].
Qed.

Lemma NoDup_keys_filter (f : string * pyval -> bool) (d : list (string * pyval)) :
  NoDup (List.map fst d) -> NoDup (List.map fst (filter f d)).
Proof.
  induction d as [|kv d IH]; cbn; intros Hnd; [constructor|].
  inversion Hnd as [|? ? Hk Hnd']; subst.
  destruct (f kv); cbn; [|now apply IH].
  constructor; [|now apply IH].
  intros Hin. apply Hk. apply in_map_iff in Hin as (kv' & E & Hin).
  apply filter_In in Hin as [Hin _]. rewrite <- E. now apply in_map.
Qed.

(** C8, as stated, fails: a key that matches no alias is left out of the
    metadata when its value is [None]. *)
Lemma metadata_drops_none :
  ~ (forall (L : PyLib) (now : datetime) (raw : list (string * pyval))
            (c : CanonicalLog),
       NoDup (List.map fst raw) ->
       normalize now raw = Ok c ->
       forall k v,
         dict_lookup (metadata c) k = Some v
         <-> In (k, v) raw /\ Str.mem (Str.lower k) known_lower = false).
Proof.
  intros H.
  destruct (@normalize plain_lib noon [("foo", VNone)]) as [c|] eqn:E;
    [|discriminate].
  assert (Hnd : NoDup (List.map fst [("foo", VNone)]))
    by (constructor; [intros [] | constructor]).
  destruct (H plain_lib noon _ c Hnd E "foo" VNone) as [_ H2].
  injection E as <-. cbn in H2.
  assert (F : None = Some VNone) by (apply H2; split; [now left | reflexivity]).
  discriminate.
Qed.

(** C8, amended. The metadata of the entry [normalize] returns holds exactly
    the items of the raw event whose lower-cased key is in none of the five
    alias sets and whose value is not [None], each key with its original
    value. *)
Theorem normalize_metadata `{PyLib} (now : datetime)
  (raw : list (string * pyval)) (c : CanonicalLog) :
  NoDup (List.map fst raw) ->
  normalize now raw = Ok c ->
  forall k v,
    dict_lookup (metadata c) k = Some v
    <-> In (k, v) raw
        /\ Str.mem (Str.lower k) known_lower = false
        /\ v <> VNone.
Proof.
  intros Hnd Hc k v.
  assert (Em : metadata c = filter keeps raw).
  { unfold normalize in Hc.
    destruct (_coerce_timestamp now _); cbn in Hc; [|discriminate].
    injection Hc as <-. cbn. now apply build_metadata_filter. }
  rewrite Em, dict_lookup_in by now apply NoDup_keys_filter.
  rewrite filter_In. unfold keeps. cbn [fst snd].
  rewrite andb_true_iff, !negb_true_iff.
  split.
  - intros (Hin & Hk & Hv). repeat split; try assumption.
    intros ->. discriminate.
  - intros (Hin & Hk & Hv). repeat split; try assumption.
    destruct v; try reflexivity. congruence.
Qed.

Lemma normalize_metadata_witness :
  exists c,
    @normalize plain_lib noon
      [("msg", VStr "disk full"); ("Host", VStr "db-1"); ("pid", VNone)] = Ok c
    /\ dict_lookup (metadata c) "Host" = Some (VStr "db-1")
    /\ dict_lookup (metadata c) "pid" = None
    /\ dict_lookup (metadata c) "msg" = None.
Proof.
  eexists. split; [reflexivity|].
  split; [|split; reflexivity].
  apply (@normalize_metadata plain_lib noon
           [("msg", VStr "disk full"); ("Host", VStr "db-1"); ("pid", VNone)]).
  - repeat constructor; cbn; intuition discriminate.
  - reflexivity.
  - split; [cbn; tauto | split; [reflexivity | discriminate]].
Defined.

End NormalizeProps.

(** ** The database ([app/db.py]) *)

Module Db.

(** A row of [logs], as [store_log] writes it ([created_at], which no query
    reads, is left out). [row_timestamp] is the ISO text of the entry's
    timestamp: the column is TEXT and is compared as text. *)
Record Row : Type := mkRow {
  row_id : Z;
  row_timestamp : string;
  row_level : string;
  row_message : string;
  row_service : string;
  row_correlation_id : string;
  row_metadata : string;
  row_raw : string;
  row_fingerprint : string;
  row_group_id : string
}.

(** A number in a column: INTEGER (64 bits) or REAL. *)
Inductive sqlnum : Type :=
| SqlInt (z : Z)
| SqlReal (f : float).

Definition fits_int64 (z : Z) : bool := (- 2 ^ 63 <=? z) && (z <? 2 ^ 63).

(** [a + b] for an INTEGER [b]: exact while the sum fits 64 bits, REAL
    otherwise. *)
Definition sql_add (a : sqlnum) (b : Z) : sqlnum :=
  match a with
  | SqlInt x =>
      if fits_int64 (x + b) then SqlInt (x + b)
      else SqlReal (PrimFloat.add (Num.of_Z x) (Num.of_Z b))
  | SqlReal f => SqlReal (PrimFloat.add f (Num.of_Z b))
  end.

(** The database file: the committed rows of [logs] in rowid order, the
    AUTOINCREMENT sequence, and [total_rejected] of the row [id = 1] of
    [ingest_totals] ([None] while the row does not exist). *)
Record Database : Type := mkDatabase {
  logs : list Row;
  last_id : Z;
  ingest_totals : option sqlnum
}.

(** A connection: the database and the rows inserted but not committed. *)
Record Connection : Type := mkConnection {
  database : Database;
  pending : list Row
}.

(** [init_db]: create what is missing, keep what exists. *)
Definition init_db (db : Database) : Database :=
  mkDatabase (logs db) (last_id db)
    (match ingest_totals db with
     | Some n => Some n
     | None => Some (SqlInt 0)
     end).

(** Entering [with get_connection() as conn]. *)
Definition get_connection (db : Database) : Connection :=
  mkConnection (init_db db) [].

(** Leaving the [with] block: [conn.close()] drops what is not committed. *)
Definition close (conn : Connection) : Database := database conn.

(** [conn.commit()] *)
Definition commit (conn : Connection) : Connection :=
  let db := database conn in
  mkConnection
    (mkDatabase (logs db ++ pending conn)
       (last_id db + Z.of_nat (List.length (pending conn)))
       (ingest_totals db))
    [].

(** A failed [COMMIT] that rolled the transaction back. *)
Definition rollback (conn : Connection) : Connection :=
  mkConnection (database conn) [].

Definition add_rejected_count (count : Z) (db : Database) : Database :=
  let conn := get_connection db in
  let db := database conn in
  let conn :=
    mkConnection
      (mkDatabase (logs db) (last_id db)
         (match ingest_totals db with
          | Some n => Some (sql_add n count)
          | None => None
          end))
      (pending conn) in
  close (commit conn).

(** [total_rejected] as [get_stats] reads it. *)
Definition total_rejected (db : Database) : sqlnum :=
  match ingest_totals db with
  | Some n => n
  | None => SqlInt 0
  end.

End Db.

(** ** Ingestion ([app/ingest.py]) *)

Module Ingest.
Import Db.

(** How the storage of one item goes: the INSERT or the COMMIT may raise,
    and a failed COMMIT may or may not have rolled the transaction back. *)
Inductive fault : Type :=
| NoFault
| InsertFault (e : exn)
| CommitFault (e : exn) (rolled_back : bool).

(** [store_log]: the INSERT; the rowid is the next of the sequence. *)
Definition store_log `{PyLib} (f : fault) (conn : Connection)
  (log : CanonicalLog) (fingerprint group_id : string) : result Connection :=
  metadata_text <-
    match metadata log with
    | [] => Ok "{}"
    | md => json_dumps (VDict md)
    end ;;
  match f with
  | InsertFault e => Raise e
  | _ =>
      let db := database conn in
      let row :=
        mkRow (last_id db + Z.of_nat (List.length (pending conn)) + 1)
          (Datetime.isoformat (timestamp log))
          (level log) (message log) (service log) (correlation_id log)
          metadata_text (raw log) fingerprint group_id in
      Ok (mkConnection db (pending conn ++ [row]))
  end.

(** [conn.commit()] under the fault of the item. *)
Definition commit_with (f : fault) (conn : Connection) : result Connection :=
  match f with
  | CommitFault e _ => Raise e
  | _ => Ok (commit conn)
  end.

(** The connection a failed COMMIT leaves behind. *)
Definition after_failed_commit (f : fault) (conn : Connection) : Connection :=
  match f with
  | CommitFault _ true => rollback conn
  | _ => conn
  end.

Record IngestError : Type := mkIngestError {
  index : nat;
  error : string
}.

(** The variables of the loop of [process_logs]. *)
Record LoopState : Type := mkLoopState {
  accepted : Z;
  rejected : Z;
  errors : list IngestError;
  conn : Connection
}.

Definition reject (st : LoopState) (i : nat) (err_msg : string)
  (conn' : Connection) : LoopState :=
  mkLoopState (accepted st) (rejected st + 1)
    (errors st ++ [mkIngestError i err_msg]) conn'.

Section Batch.
Context `{PyLib}.
Variable settings : Settings.
(** The clock read while item [i] is normalised, and what goes wrong while
    item [i] is stored. *)
Variable clock : nat -> datetime.
Variable faults : nat -> fault.

(** One turn of the loop, on item [i]. *)
Definition loop_body (st : LoopState) (i : nat) (raw : pyval) : LoopState :=
  match raw with
  | VDict d =>
      match Normalize.normalize (clock i) d with
      | Raise e =>
          reject st i ("Normalization failed: " ++ exn_str e) (conn st)
      | Ok canonical =>
          let '(valid, err_list) :=
            Validate.validate_log settings (Validate.ACanonical canonical) in
          if negb valid then reject st i (Str.join "; " err_list) (conn st)
          else
            let fingerprint := Fingerprint.compute_fingerprint canonical in
            let group_id := fingerprint in
            match store_log (faults i) (conn st) canonical fingerprint group_id with
            | Raise e =>
                reject st i ("Storage failed: " ++ exn_str e) (conn st)
            | Ok conn1 =>
                match commit_with (faults i) conn1 with
                | Raise e =>
                    reject st i ("Storage failed: " ++ exn_str e)
                      (after_failed_commit (faults i) conn1)
                | Ok conn2 =>
                    mkLoopState (accepted st + 1) (rejected st) (errors st) conn2
                end
            end
      end
  | _ => reject st i "Each log must be a JSON object" (conn st)
  end.

(** [for i, raw in enumerate(raw_logs)], from index [i] on. *)
Fixpoint loop (st : LoopState) (i : nat) (raw_logs : list pyval) : LoopState :=
  match raw_logs with
  | [] => st
  | raw :: rest => loop (loop_body st i raw) (S i) rest
  end.

(** [process_logs]: the result and the database it leaves. The two
    in-memory lists of recent batches and recent rejections, which take no
    part in either, are not modelled. *)
Definition process_logs (raw_logs : list pyval) (db : Database)
  : (Z * Z * list IngestError) * Database :=
  let st := loop (mkLoopState 0 0 [] (get_connection db)) 0 raw_logs in
  let db := close (conn st) in
  let db := if rejected st >? 0 then add_rejected_count (rejected st) db else db in
  ((accepted st, rejected st, errors st), db).

End Batch.

End Ingest.

(** *** Properties of the ingestion *)

Module IngestProps.
Import Db Ingest.

Section Tally.
Context `{PyLib}.
Variable settings : Settings.
Variable clock : nat -> datetime.
Variable faults : nat -> fault.

(** Why item [i] is rejected, [None] when it is accepted. *)
Definition verdict (i : nat) (raw : pyval) : option string :=
  match raw with
  | VDict d =>
      match Normalize.normalize (clock i) d with
      | Raise e => Some ("Normalization failed: " ++ exn_str e)
      | Ok canonical =>
          match Validate.validate_log settings (Validate.ACanonical canonical) with
          | (false, err_list) => Some (Str.join "; " err_list)
          | (true, _) =>
              match
                match metadata canonical with
                | [] => Ok "{}"
                | md => json_dumps (VDict md)
                end
              with
              | Raise e => Some ("Storage failed: " ++ exn_str e)
              | Ok _ =>
                  match faults i with
                  | NoFault => None
                  | InsertFault e | CommitFault e _ =>
                      Some ("Storage failed: " ++ exn_str e)
                  end
              end
          end
      end
  | _ => Some "Each log must be a JSON object"
  end.

(** The error records of the items from index [i] on, in batch order. *)
Fixpoint rejections (i : nat) (raw_logs : list pyval) : list IngestError :=
  match raw_logs with
  | [] => []
  | raw :: rest =>
      match verdict i raw with
      | Some reason => mkIngestError i reason :: rejections (S i) rest
      | None => rejections (S i) rest
      end
  end.

Definition counter_of (st : LoopState) : option sqlnum :=
  ingest_totals (database (conn st)).

(** One turn of the loop moves exactly one of the two tallies, by one, and
    leaves the rejection counter of the database alone. *)
Lemma loop_body_verdict (st : LoopState) (i : nat) (raw : pyval) :
  let st' := loop_body settings clock faults st i raw in
  counter_of st' = counter_of st
  /\ match verdict i raw with
     | Some reason =>
         accepted st' = accepted st
         /\ rejected st' = rejected st + 1
         /\ errors st' = (errors st ++ [mkIngestError i reason])%list
     | None =>
         accepted st' = accepted st + 1
         /\ rejected st' = rejected st
         /\ errors st' = errors st
     end.
Proof.
  unfold loop_body, verdict, counter_of.
  destruct raw; try solve [cbn; auto].
  destruct (Normalize.normalize (clock i) d) as [c | e]; [|solve [cbn; auto]].
  destruct (Validate.validate_log settings (Validate.ACanonical c)) as [[|] errs];
    [|solve [cbn; auto]].
  cbn [negb]. unfold store_log, bind.
  destruct (match metadata c with [] => Ok "{}" | _ :: _ => _ end) as [txt | e];
    [|solve [cbn; auto]].
  destruct (faults i) as [ | e | e [|]]; cbn; auto.
Qed.

Lemma loop_tally (raw_logs : list pyval) (st : LoopState) (i : nat) :
  let st' := loop settings clock faults st i raw_logs in
  counter_of st' = counter_of st
  /\ accepted st' + rejected st'
     = accepted st + rejected st + Z.of_nat (List.length raw_logs)
  /\ rejected st' = rejected st + Z.of_nat (List.length (rejections i raw_logs))
  /\ errors st' = (errors st ++ rejections i raw_logs)%list.
Proof.
  revert st i. induction raw_logs as [|raw rest IH]; intros st i.
  - cbn. rewrite app_nil_r. repeat split; lia.
  - cbn [loop rejections List.length].
    destruct (loop_body_verdict st i raw) as (Hc & Hv).
    destruct (IH (loop_body settings clock faults st i raw) (S i))
      as (Hc' & Hsum & Hrej & Herr).
    cbv zeta in *. rewrite Hc', Hsum, Hrej, Herr, Hc.
    destruct (verdict i raw) as [reason|]; destruct Hv as (-> & -> & ->).
    + cbn [List.length]. rewrite <- app_assoc. cbn. repeat split; lia.
    + repeat split; lia.
Qed.


Lemma rejections_length (raw_logs : list pyval) (i : nat) :
  (List.length (rejections i raw_logs) <= List.length raw_logs)%nat.
Proof.
  revert i. induction raw_logs as [|raw rest IH]; intros i; cbn; [lia|].
  specialize (IH (S i)). destruct (verdict i raw); cbn; lia.
Qed.

End Tally.

Lemma init_db_total (db : Database) :
  ingest_totals (init_db db) = Some (total_rejected db).
Proof. unfold init_db, total_rejected. cbn. now destruct (ingest_totals db). Qed.


Definition sample_batch : list pyval :=
  [ VDict [("msg", VStr "User login failed for user_id=4821");
           ("lvl", VStr "error"); ("service_name", VStr "auth-service")];
    VDict [("level", VStr "INVALID"); ("message", VStr "")];
    VInt 7;
    VDict [("msg", VStr "disk full"); ("level", VStr "warning")] ].

Definition sample_faults (i : nat) : fault :=
  match i with
  | 3%nat => InsertFault OperationalError
  | _ => NoFault
  end.

Definition empty_db : Database := mkDatabase [] 0 None.


(** The sample batch, run: the first item is stored, the second fails the
    level rule, the third is no object, the fourth meets a failing INSERT. *)
Example process_logs_sample :
  let '((accepted, rejected, errors), db') :=
    @process_logs plain_lib default_settings (fun _ => NormalizeProps.noon)
      sample_faults sample_batch empty_db in
  accepted = 1 /\ rejected = 3
  /\ List.map index errors = [1%nat; 2%nat; 3%nat]
  /\ total_rejected db' = SqlInt 3
  /\ List.map row_group_id (logs db')
     = ["auth-service|ERROR|User login failed for user_id=<n>"].
Proof. vm_compute. repeat split. Qed.

End IngestProps.

(** ** The SQL the queries use *)

Module Sql.
Import Db.

(** A condition the Python code adds only [if value:]. *)
Definition opt_eq (value : option string) (column : string) : bool :=
  match value with
  | Some v => if Str.nonempty v then String.eqb column v else true
  | None => true
  end.

(** [column >= value], added only [if value:]. *)
Definition opt_ge (value : option string) (column : string) : bool :=
  match value with
  | Some v => if Str.nonempty v then Str.leb v column else true
  | None => true
  end.

(** [GROUP BY group_id]: the keys of the groups, and the rows of a group. The
    order in which SQLite produces the groups is not specified. *)
Definition group_keys (rows : list Row) : list string :=
  nodup string_dec (List.map row_group_id rows).

Definition members (group_id : string) (rows : list Row) : list Row :=
  filter (fun r => String.eqb (row_group_id r) group_id) rows.

(** [COUNT( * )] *)
Definition count_rows (rows : list Row) : Z := Z.of_nat (List.length rows).

(** [MIN(timestamp)] and [MAX(timestamp)] over a group that starts with
    [r]. *)
Definition min_text (a b : string) : string := if Str.ltb b a then b else a.
Definition max_text (a b : string) : string := if Str.ltb a b then b else a.

Definition min_timestamp (r : Row) (rows : list Row) : string :=
  fold_left min_text (List.map row_timestamp rows) (row_timestamp r).

Definition max_timestamp (r : Row) (rows : list Row) : string :=
  fold_left max_text (List.map row_timestamp rows) (row_timestamp r).

(** [ORDER BY key DESC]: [x] is put before the first element that ranks
    strictly lower ([lower y x]). The order among equal keys is not
    specified by SQLite; here rows keep their order. *)
Section Sort.
Context {A : Type}.
Variable lower : A -> A -> bool.

Fixpoint insert_desc (x : A) (l : list A) : list A :=
  match l with
  | [] => [x]
  | y :: l' => if lower y x then x :: l else y :: insert_desc x l'
  end.

Definition order_desc (l : list A) : list A :=
  fold_left (fun acc x => insert_desc x acc) l [].

End Sort.

(** [LIMIT n]: a negative [n] is no limit. *)
Definition limit {A : Type} (n : Z) (l : list A) : list A :=
  if n <? 0 then l else firstn (Z.to_nat n) l.

(** Binding a Python [int] to a parameter: it must fit 64 bits. *)
Definition bind_int (z : Z) : result Z :=
  if fits_int64 z then Ok z else Raise OverflowError.

End Sql.

(** ** Groups ([app/group.py]) *)

Module Group.
Import Db.

Record GroupItem : Type := mkGroupItem {
  group_id : string;
  fingerprint : string;
  count : Z;
  level : string;
  service : string;
  sample_message : string;
  first_seen : datetime;
  last_seen : datetime
}.

Record GroupResponse : Type := mkGroupResponse {
  groups : list GroupItem;
  total_groups : Z
}.

(** A row of the result of the SELECT. *)
Record GroupRow : Type := mkGroupRow {
  col_group_id : string;
  col_fingerprint : string;
  col_level : string;
  col_service : string;
  col_cnt : Z;
  col_first_seen : string;
  col_last_seen : string;
  col_sample_message : option string
}.

(** The WHERE clause. *)
Definition where_clause (service level since : option string) (r : Row) : bool :=
  Sql.opt_eq service (row_service r)
  && Sql.opt_eq level (row_level r)
  && Sql.opt_ge since (row_timestamp r).

(** One group of the SELECT: the aggregates over the filtered rows of the
    group, the bare columns from one of its rows (SQLite does not say
    which; the first here), and the sub-select of the sample message, which
    reads the whole table. *)
Definition select_group (table filtered : list Row) (gid : string)
  : option GroupRow :=
  match Sql.members gid filtered with
  | [] => None
  | r :: rest =>
      Some (mkGroupRow
              (row_group_id r) (row_fingerprint r) (row_level r) (row_service r)
              (Sql.count_rows (r :: rest))
              (Sql.min_timestamp r rest)
              (Sql.max_timestamp r rest)
              (option_map row_message (List.hd_error (Sql.members gid table))))
  end.

Fixpoint somes {A : Type} (l : list (option A)) : list A :=
  match l with
  | [] => []
  | Some a :: l' => a :: somes l'
  | None :: l' => somes l'
  end.

Definition select_groups (table : list Row)
  (service level since : option string) (limit : Z) : list GroupRow :=
  let filtered := filter (where_clause service level since) table in
  let grouped :=
    somes (List.map (select_group table filtered) (Sql.group_keys filtered)) in
  Sql.limit limit
    (Sql.order_desc (fun a b => col_cnt a <? col_cnt b) grouped).

(** [GroupItem(...)] for one row; [datetime.fromisoformat] may raise. *)
Definition to_item `{PyLib} (row : GroupRow) : result GroupItem :=
  match fromisoformat (col_first_seen row) with
  | None => Raise ValueError
  | Some first =>
      match fromisoformat (col_last_seen row) with
      | None => Raise ValueError
      | Some last =>
          Ok (mkGroupItem
                (col_group_id row) (col_fingerprint row) (col_cnt row)
                (col_level row) (col_service row)
                (match col_sample_message row with
                 | Some m => Str.or_else m ""
                 | None => ""
                 end)
                first last)
      end
  end.

(** The list comprehension: the first exception ends it. *)
Fixpoint map_result {A B : Type} (f : A -> result B) (l : list A)
  : result (list B) :=
  match l with
  | [] => Ok []
  | a :: l' =>
      b <- f a ;;
      bs <- map_result f l' ;;
      Ok (b :: bs)
  end.

(** [get_groups]: the response (or the exception) and the database the
    call leaves. *)
Definition get_groups `{PyLib} (service level : option string) (limit : Z)
  (since : option string) (db : Database)
  : result GroupResponse * Database :=
  let conn := get_connection db in
  let table := logs (database conn) in
  let res :=
    limit' <- Sql.bind_int limit ;;
    let rows := select_groups table service level since limit' in
    groups <- map_result to_item rows ;;
    Ok (mkGroupResponse groups (Z.of_nat (List.length groups))) in
  (res, close conn).

End Group.

(** *** Facts about the SQL operations *)

Module SqlProps.
Import Db Sql.

Lemma ascii_compare_trans (c1 c2 c3 : ascii) (o : comparison) :
  Ascii.compare c1 c2 = o -> Ascii.compare c2 c3 = o -> Ascii.compare c1 c3 = o.
Proof.
  unfold Ascii.compare. destruct o.
  - rewrite !N.compare_eq_iff. congruence.
  - rewrite !N.compare_lt_iff. lia.
  - rewrite !N.compare_gt_iff. lia.
Qed.

Lemma leb_trans (s1 s2 s3 : string) :
  Str.leb s1 s2 = true -> Str.leb s2 s3 = true -> Str.leb s1 s3 = true.
Proof.
  unfold Str.leb, String.leb. revert s2 s3.
  induction s1 as [|c1 s1 IH]; intros [|c2 s2] [|c3 s3]; cbn; try congruence.
  destruct (Ascii.compare c1 c2) eqn:E12; try discriminate;
    destruct (Ascii.compare c2 c3) eqn:E23; try discriminate; intros H1 H2.
  - apply Ascii.compare_eq_iff in E12, E23. subst.
    replace (Ascii.compare c3 c3) with Eq
      by (symmetry; apply N.compare_refl).
    now apply IH with s2.
  - apply Ascii.compare_eq_iff in E12. subst. now rewrite E23.
  - apply Ascii.compare_eq_iff in E23. subst. now rewrite E12.
  - now rewrite (ascii_compare_trans _ _ _ _ E12 E23).
Qed.

Lemma leb_refl (s : string) : Str.leb s s = true.
Proof. destruct (String.leb_total s s); assumption. Qed.

Lemma ltb_false_leb (s1 s2 : string) :
  Str.ltb s1 s2 = false <-> Str.leb s2 s1 = true.
Proof.
  unfold Str.ltb, Str.leb, String.ltb, String.leb.
  rewrite (String.compare_antisym s1 s2).
  destruct (String.compare s2 s1); cbn; split; congruence.
Qed.

Lemma ltb_true_leb (s1 s2 : string) :
  Str.ltb s1 s2 = true -> Str.leb s1 s2 = true.
Proof.
  unfold Str.ltb, Str.leb, String.ltb, String.leb.
  destruct (String.compare s1 s2); congruence.
Qed.

(** [MIN] returns an element below all the others, [MAX] one above. *)
Lemma fold_min_spec (l : list string) (a : string) :
  In (fold_left min_text l a) (a :: l)
  /\ forall x, In x (a :: l) -> Str.leb (fold_left min_text l a) x = true.
Proof.
  revert a. induction l as [|b l IH]; intros a; cbn [fold_left].
  - split; [now left|]. intros x [<- | []]. apply leb_refl.
  - destruct (IH (min_text a b)) as (Hin & Hle). split.
    + destruct Hin as [E | Hin]; [|right; now right].
      rewrite <- E. unfold min_text. destruct (Str.ltb b a); cbn; auto.
    + intros x Hx.
      assert (Ha : Str.leb (min_text a b) a = true
                   /\ Str.leb (min_text a b) b = true).
      { unfold min_text. destruct (Str.ltb b a) eqn:E.
        - split; [now apply ltb_true_leb | apply leb_refl].
        - split; [apply leb_refl | now apply ltb_false_leb]. }
      destruct Hx as [<- | [<- | Hx]].
      * eapply leb_trans; [apply Hle; now left | apply Ha].
      * eapply leb_trans; [apply Hle; now left | apply Ha].
      * apply Hle. now right.
Qed.

Lemma fold_max_spec (l : list string) (a : string) :
  In (fold_left max_text l a) (a :: l)
  /\ forall x, In x (a :: l) -> Str.leb x (fold_left max_text l a) = true.
Proof.
  revert a. induction l as [|b l IH]; intros a; cbn [fold_left].
  - split; [now left|]. intros x [<- | []]. apply leb_refl.
  - destruct (IH (max_text a b)) as (Hin & Hle). split.
    + destruct Hin as [E | Hin]; [|right; now right].
      rewrite <- E. unfold max_text. destruct (Str.ltb a b); cbn; auto.
    + intros x Hx.
      assert (Ha : Str.leb a (max_text a b) = true
                   /\ Str.leb b (max_text a b) = true).
      { unfold max_text. destruct (Str.ltb a b) eqn:E.
        - split; [now apply ltb_true_leb | apply leb_refl].
        - split; [apply leb_refl | now apply ltb_false_leb]. }
      destruct Hx as [<- | [<- | Hx]].
      * eapply leb_trans; [apply Ha | apply Hle; now left].
      * eapply leb_trans; [apply Ha | apply Hle; now left].
      * apply Hle. now right.
Qed.

(** [ORDER BY ... DESC] permutes its input and leaves no pair in which an
    earlier element ranks strictly lower than a later one. *)
Section SortFacts.
Context {A : Type}.
Variable lower : A -> A -> bool.
Hypothesis lower_asym : forall a b, lower a b = true -> lower b a = false.
Hypothesis lower_trans :
  forall a b c, lower a b = true -> lower b c = true -> lower a c = true.

Definition not_lower (a b : A) : Prop := lower a b = false.

Lemma insert_desc_perm (x : A) (l : list A) :
  Permutation (insert_desc lower x l) (x :: l).
Proof.
  induction l as [|y l IH]; cbn; [reflexivity|].
  destruct (lower y x); [reflexivity|].
  rewrite IH. apply perm_swap.
Qed.

Lemma order_desc_perm (l : list A) : Permutation (order_desc lower l) l.
Proof.
  unfold order_desc.
  assert (G : forall acc, Permutation
                (fold_left (fun acc x => insert_desc lower x acc) l acc)
                (acc ++ l)%list).
  { induction l as [|x l IH]; intros acc; cbn.
    - now rewrite app_nil_r.
    - rewrite IH, insert_desc_perm.
      change (x :: acc)%list with ([x] ++ acc)%list.
      rewrite (Permutation_app_comm [x] acc), <- app_assoc. reflexivity. }
  apply (G []).
Qed.

Lemma insert_desc_sorted (x : A) (l : list A) :
  StronglySorted not_lower l -> StronglySorted not_lower (insert_desc lower x l).
Proof.
  induction l as [|y l IH]; cbn; intros Hs.
  - constructor; constructor.
  - inversion Hs as [|? ? Hs' Hy]; subst.
    destruct (lower y x) eqn:E.
    + constructor; [exact Hs|].
      constructor; [now apply lower_asym|].
      rewrite Forall_forall in *. intros z Hz. unfold not_lower.
      destruct (lower x z) eqn:Exz; [exfalso|reflexivity].
      pose proof (lower_trans y x z E Exz) as F.
      specialize (Hy z Hz). unfold not_lower in Hy. congruence.
    + constructor; [now apply IH|].
      rewrite Forall_forall in *. intros z Hz.
      apply (Permutation_in _ (insert_desc_perm x l)) in Hz.
      destruct Hz as [<- | Hz]; [exact E | now apply Hy].
Qed.

Lemma order_desc_sorted (l : list A) :
  StronglySorted not_lower (order_desc lower l).
Proof.
  unfold order_desc.
  assert (G : forall acc, StronglySorted not_lower acc ->
                StronglySorted not_lower
                  (fold_left (fun acc x => insert_desc lower x acc) l acc)).
  { induction l as [|x l IH]; intros acc Hacc; cbn; [exact Hacc|].
    apply IH. now apply insert_desc_sorted. }
  apply G. constructor.
Qed.

End SortFacts.

Lemma In_firstn {A : Type} (n : nat) (l : list A) (x : A) :
  In x (firstn n l) -> In x l.
Proof.
  revert l. induction n as [|n IH]; intros [|a l]; cbn; try tauto.
  intros [-> | Hx]; [now left | right; now apply IH].
Qed.

Lemma StronglySorted_firstn {A : Type} (R : A -> A -> Prop) (n : nat)
  (l : list A) :
  StronglySorted R l -> StronglySorted R (firstn n l).
Proof.
  revert l. induction n as [|n IH]; intros l Hs; [constructor|].
  destruct l as [|a l]; cbn; [constructor|].
  inversion Hs as [|? ? Hs' Ha]; subst.
  constructor; [now apply IH|].
  rewrite Forall_forall in *. intros x Hx. apply Ha.
  now apply In_firstn in Hx.
Qed.

End SqlProps.

(** ** A reader of ISO timestamps, to run the queries on examples

    It reads [YYYY-MM-DDTHH:MM:SS], optionally followed by [+HH:MM] or
    [-HH:MM], which is what [isoformat] prints for a timestamp without
    fractional seconds. *)

Module Iso.

Definition digit_val (c : ascii) : option Z :=
  if Str.is_digit c then Some (Z.of_nat (Str.code c) - 48) else None.

Fixpoint digits_from (acc : Z) (s : string) : option Z :=
  match s with
  | EmptyString => Some acc
  | String c s' =>
      match digit_val c with
      | Some d => digits_from (acc * 10 + d) s'
      | None => None
      end
  end.

Definition field (s : string) (start len : nat) : option Z :=
  let f := String.substring start len s in
  if Nat.eqb (String.length f) len then digits_from 0 f else None.

Definition sep (s : string) (pos : nat) (c : ascii) : bool :=
  match String.get pos s with
  | Some x => Ascii.eqb x c
  | None => false
  end.

(** Days from 0001-01-01 to the date. *)
Definition days_from_civil (y m d : Z) : Z :=
  let y := if m <=? 2 then y - 1 else y in
  let era := y / 400 in
  let yoe := y - era * 400 in
  let doy := (153 * (if 2 <? m then m - 3 else m + 9) + 2) / 5 + d - 1 in
  let doe := yoe * 365 + yoe / 4 - yoe / 100 + doy in
  era * 146097 + doe - 306.

Definition parse_offset (s : string) : option (option Z) :=
  match s with
  | EmptyString => Some None
  | String sign _ =>
      if (Nat.eqb (String.length s) 6 && sep s 3 ":")%bool then
        match field s 1 2, field s 4 2 with
        | Some hh, Some mm =>
            let off := (hh * 3600 + mm * 60) * Datetime.us_per_second in
            if Ascii.eqb sign "+" then Some (Some off)
            else if Ascii.eqb sign "-" then Some (Some (- off))
            else None
        | _, _ => None
        end
      else None
  end.

Definition parse (s : string) : option datetime :=
  if (sep s 4 "-" && sep s 7 "-" && sep s 10 "T" && sep s 13 ":"
      && sep s 16 ":")%bool then
    match field s 0 4, field s 5 2, field s 8 2,
          field s 11 2, field s 14 2, field s 17 2,
          parse_offset (String.substring 19 (String.length s - 19) s) with
    | Some y, Some mo, Some d, Some hh, Some mi, Some ss, Some off =>
        Some (mkDatetime
                ((days_from_civil y mo d * 86400 + hh * 3600 + mi * 60 + ss)
                 * Datetime.us_per_second)
                off)
    | _, _, _, _, _, _, _ => None
    end
  else None.

End Iso.

(** [plain_lib] with the reader above for [datetime.fromisoformat]. *)
Definition iso_lib : PyLib := {|
  py_repr := fun _ => "?";
  json_dumps := fun _ => Ok "?";
  fromisoformat := Iso.parse;
  float_of_str := fun _ => None;
  set_order := fun l => l;
  set_order_perm := fun l => Permutation_refl l;
  exn_str := fun _ => "error"
|}.

(** *** Properties of the group query *)

Module GroupProps.
Import Db Sql Group SqlProps.

(** The stored entries that match the filters and carry [gid]. *)
Definition matching (service level since : option string) (gid : string)
  (table : list Row) : list Row :=
  members gid (filter (where_clause service level since) table).

Lemma In_somes {A B : Type} (f : A -> option B) (l : list A) (b : B) :
  In b (somes (List.map f l)) <-> exists a, In a l /\ f a = Some b.
Proof.
  induction l as [|a l IH]; cbn.
  - split; [tauto | intros (? & [] & _)].
  - destruct (f a) as [b'|] eqn:E; cbn; rewrite ?IH; split.
    + intros [<- | (a' & Ha & Hf)]; [exists a | exists a']; auto.
    + intros (a' & [<- | Ha] & Hf); [left; congruence | right; eauto].
    + intros (a' & Ha & Hf); eauto.
    + intros (a' & [<- | Ha] & Hf); [congruence | eauto].
Qed.

Lemma NoDup_somes {A B : Type} (f : A -> option B) (key : B -> A)
  (l : list A) :
  (forall a b, f a = Some b -> key b = a) ->
  NoDup l -> NoDup (List.map key (somes (List.map f l))).
Proof.
  intros Hkey. induction l as [|a l IH]; cbn; intros Hnd; [constructor|].
  inversion Hnd as [|? ? Ha Hnd']; subst.
  destruct (f a) as [b|] eqn:E; cbn; [|now apply IH].
  constructor; [|now apply IH].
  rewrite (Hkey _ _ E). intros Hin. apply Ha.
  apply in_map_iff in Hin as (b' & Eb & Hb').
  apply In_somes in Hb' as (a' & Ha' & Hf).
  rewrite <- Eb, (Hkey _ _ Hf). exact Ha'.
Qed.

Lemma NoDup_firstn {A : Type} (n : nat) (l : list A) :
  NoDup l -> NoDup (firstn n l).
Proof.
  revert l. induction n as [|n IH]; intros [|a l] Hnd; cbn; try constructor.
  - inversion Hnd; subst. intros Hin. apply In_firstn in Hin. contradiction.
  - inversion Hnd; subst. now apply IH.
Qed.

Lemma StronglySorted_map {A B : Type} (R : B -> B -> Prop) (f : A -> B)
  (l : list A) :
  StronglySorted (fun a b => R (f a) (f b)) l -> StronglySorted R (List.map f l).
Proof.
  induction 1 as [|a l Hs IH Ha]; cbn; constructor; [exact IH|].
  rewrite Forall_forall in *. intros b Hb.
  apply in_map_iff in Hb as (x & <- & Hx). now apply Ha.
Qed.

Lemma StronglySorted_impl {A : Type} (R R' : A -> A -> Prop) (l : list A) :
  (forall a b, R a b -> R' a b) -> StronglySorted R l -> StronglySorted R' l.
Proof.
  intros HR. induction 1 as [|a l Hs IH Ha]; constructor; [exact IH|].
  eapply Forall_impl; [|exact Ha]. apply HR.
Qed.

Lemma members_In (gid : string) (rows : list Row) (r : Row) :
  In r (members gid rows) <-> In r rows /\ row_group_id r = gid.
Proof.
  unfold members. rewrite filter_In. now rewrite String.eqb_eq.
Qed.

(** What one group of the SELECT holds. *)
Lemma select_group_spec (table filtered : list Row) (gid : string)
  (g : GroupRow) :
  select_group table filtered gid = Some g ->
  col_group_id g = gid
  /\ col_cnt g = count_rows (members gid filtered)
  /\ members gid filtered <> []
  /\ (exists r, In r (members gid filtered)
                /\ row_timestamp r = col_first_seen g
                /\ forall r', In r' (members gid filtered) ->
                              Str.leb (row_timestamp r) (row_timestamp r') = true)
  /\ (exists r, In r (members gid filtered)
                /\ row_timestamp r = col_last_seen g
                /\ forall r', In r' (members gid filtered) ->
                              Str.leb (row_timestamp r') (row_timestamp r) = true).
Proof.
  unfold select_group.
  destruct (members gid filtered) as [|r rest] eqn:E; [discriminate|].
  intros [= <-]. cbn.
  assert (Hr : row_group_id r = gid).
  { apply (members_In gid filtered r). rewrite E. now left. }
  split; [exact Hr|]. split; [reflexivity|]. split; [discriminate|].
  split.
  - destruct (fold_min_spec (List.map row_timestamp rest) (row_timestamp r))
      as (Hin & Hle).
    change (row_timestamp r :: List.map row_timestamp rest)
      with (List.map row_timestamp (r :: rest)) in Hin, Hle.
    apply in_map_iff in Hin as (r0 & E0 & Hr0).
    exists r0. split; [exact Hr0|]. split; [exact E0|].
    intros r' Hr'. rewrite E0. apply Hle. now apply in_map.
  - destruct (fold_max_spec (List.map row_timestamp rest) (row_timestamp r))
      as (Hin & Hle).
    change (row_timestamp r :: List.map row_timestamp rest)
      with (List.map row_timestamp (r :: rest)) in Hin, Hle.
    apply in_map_iff in Hin as (r0 & E0 & Hr0).
    exists r0. split; [exact Hr0|]. split; [exact E0|].
    intros r' Hr'. rewrite E0. apply Hle. now apply in_map.
Qed.

Lemma limit_In {A : Type} (n : Z) (l : list A) (x : A) :
  In x (limit n l) -> In x l.
Proof.
  unfold limit. destruct (n <? 0); [auto | apply In_firstn].
Qed.

Lemma limit_length {A : Type} (n : Z) (l : list A) :
  0 <= n -> Z.of_nat (List.length (limit n l)) <= n.
Proof.
  intros Hn. unfold limit. destruct (Z.ltb_spec n 0); [lia|].
  rewrite length_firstn. lia.
Qed.

(** The rows of the SELECT. *)
Lemma select_groups_spec (table : list Row)
  (service level since : option string) (n : Z) :
  let rows := select_groups table service level since n in
  (0 <= n -> Z.of_nat (List.length rows) <= n)
  /\ StronglySorted (fun x y => y <= x) (List.map col_cnt rows)
  /\ NoDup (List.map col_group_id rows)
  /\ forall g, In g rows ->
       select_group table (filter (where_clause service level since) table)
         (col_group_id g) = Some g.
Proof.
  unfold select_groups.
  set (filtered := filter (where_clause service level since) table).
  set (grouped := somes (List.map (select_group table filtered)
                           (group_keys filtered))).
  set (lower := fun a b : GroupRow => col_cnt a <? col_cnt b).
  assert (Hkey : forall gid g, select_group table filtered gid = Some g ->
                               col_group_id g = gid).
  { intros gid g Hg. now apply select_group_spec in Hg. }
  cbv zeta. split; [apply limit_length|]. split; [|split].
  - apply StronglySorted_map.
    assert (Hs : StronglySorted (fun a b => col_cnt b <= col_cnt a)
                   (order_desc lower grouped)).
    { apply (StronglySorted_impl (not_lower lower)).
      - intros a b. unfold not_lower, lower. now rewrite Z.ltb_ge.
      - apply order_desc_sorted.
        + intros a b. unfold lower. rewrite Z.ltb_lt, Z.ltb_ge. lia.
        + intros a b c. unfold lower. rewrite !Z.ltb_lt. lia. }
    unfold limit. destruct (n <? 0); [exact Hs|].
    now apply StronglySorted_firstn.
  - assert (Hnd : NoDup (List.map col_group_id (order_desc lower grouped))).
    { eapply Permutation_NoDup.
      - apply Permutation_map, Permutation_sym, order_desc_perm.
      - apply NoDup_somes; [exact Hkey | apply NoDup_nodup]. }
    unfold limit. destruct (n <? 0); [exact Hnd|].
    rewrite <- firstn_map. now apply NoDup_firstn.
  - intros g Hg. apply limit_In in Hg.
    apply (Permutation_in _ (order_desc_perm lower grouped)) in Hg.
    apply In_somes in Hg as (gid & _ & Hsel).
    now rewrite (Hkey _ _ Hsel).
Qed.

Lemma to_item_inv `{PyLib} (row : GroupRow) (item : GroupItem) :
  to_item row = Ok item ->
  group_id item = col_group_id row
  /\ count item = col_cnt row
  /\ fromisoformat (col_first_seen row) = Some (first_seen item)
  /\ fromisoformat (col_last_seen row) = Some (last_seen item).
Proof.
  unfold to_item.
  destruct (fromisoformat (col_first_seen row)); [|discriminate].
  destruct (fromisoformat (col_last_seen row)); [|discriminate].
  intros [= <-]. cbn. auto.
Qed.

Lemma map_result_ok {A B : Type} (f : A -> result B) (l : list A) :
  (forall a, In a l -> exists b, f a = Ok b) ->
  exists bs, map_result f l = Ok bs /\ Forall2 (fun a b => f a = Ok b) l bs.
Proof.
  induction l as [|a l IH]; intros Hall; cbn.
  - exists []. split; [reflexivity | constructor].
  - destruct (Hall a (or_introl eq_refl)) as (b & Hb).
    destruct IH as (bs & Hbs & HF); [intros; apply Hall; now right|].
    exists (b :: bs). rewrite Hb, Hbs. split; [reflexivity|].
    now constructor.
Qed.




Definition sample_row (id : Z) (ts lvl msg svc gid : string) : Row :=
  mkRow id ts lvl msg svc "" "{}" "" gid gid.

Definition sample_db : Database :=
  mkDatabase
    [ sample_row 1 "2024-01-01T00:04:00" "INFO" "Cache miss for key 17"
        "cache" "cache|INFO|Cache miss for key <n>";
      sample_row 2 "2024-01-01T00:02:00" "ERROR" "boom" "api" "api|ERROR|boom";
      sample_row 3 "2024-01-01T00:01:00" "INFO" "Cache miss for key 94210"
        "cache" "cache|INFO|Cache miss for key <n>" ]
    3 (Some (SqlInt 0)).

Lemma sample_db_iso (r : Row) :
  In r (logs sample_db) -> @fromisoformat iso_lib (row_timestamp r) <> None.
Proof.
  intros [<- | [<- | [<- | []]]]; vm_compute; discriminate.
Qed.


(** The sample store, grouped (scenario D of the specification: the two
    cache misses fall in one group of count 2). *)
Example get_groups_sample :
  option_map
    (fun resp =>
       List.map (fun g => (group_id g, count g,
                           Datetime.isoformat (first_seen g),
                           Datetime.isoformat (last_seen g)))
         (groups resp))
    (match fst (@get_groups iso_lib None None 10 None sample_db) with
     | Ok resp => Some resp
     | Raise _ => None
     end)
  = Some [("cache|INFO|Cache miss for key <n>", 2,
           "2024-01-01T00:01:00", "2024-01-01T00:04:00");
          ("api|ERROR|boom", 1,
           "2024-01-01T00:02:00", "2024-01-01T00:02:00")].
Proof. vm_compute. reflexivity. Qed.

(** [MIN] and [MAX] compare the stored texts: of these two entries the
    first is the earlier instant (05:00 UTC against 06:00 UTC), and it is the
    second that is reported as [first_seen]. *)
Example first_seen_is_least_text :
  List.map (fun g => (col_first_seen g, col_last_seen g))
    (select_groups
       [ sample_row 1 "2024-01-01T10:00:00+05:00" "ERROR" "boom" "api" "g";
         sample_row 2 "2024-01-01T06:00:00+00:00" "ERROR" "boom" "api" "g" ]
       None None None 10)
  = [("2024-01-01T06:00:00+00:00", "2024-01-01T10:00:00+05:00")].
Proof. vm_compute. reflexivity. Qed.

End GroupProps.

(** ** Spikes ([app/spikes.py]) *)

Module Spikes.
Import Db.

Record SpikeItem : Type := mkSpikeItem {
  group_id : string;
  service : string;
  level : string;
  window_start : string;
  count : Z;
  baseline_avg : float;
  ratio : float
}.

Record SpikesResponse : Type := mkSpikesResponse {
  spikes : list SpikeItem
}.

(** Binding a Python [float]: SQLite stores a NaN as NULL. *)
Definition real_param (f : float) : option float :=
  if PrimFloat.is_nan f then None else Some f.

(** [x <= i] for a REAL [x] and an INTEGER [i], compared exactly as SQLite
    does; not true of a NaN. *)
Definition real_le_int (x : float) (i : Z) : bool :=
  match Prim2SF x with
  | S754_nan => false
  | S754_zero _ => 0 <=? i
  | S754_infinity s => s
  | S754_finite s m e =>
      let v := if s then Z.neg m else Z.pos m in
      if 0 <=? e then v * 2 ^ e <=? i else v <=? i * 2 ^ (- e)
  end.

(** [avg > 0] *)
Definition positive_avg (avg : float) : bool := PrimFloat.ltb 0%float avg.

(** [cnt >= ? * avg], the parameter being [ratio_threshold]. *)
Definition meets_threshold (ratio_threshold : float) (cnt : Z) (avg : float)
  : bool :=
  match real_param ratio_threshold with
  | Some t => real_le_int (PrimFloat.mul t avg) cnt
  | None => false
  end.

(** The two WHERE clauses. *)
Definition w_cur (cur_start_s : string) (service level : option string)
  (r : Row) : bool :=
  Str.leb cur_start_s (row_timestamp r)
  && Sql.opt_eq service (row_service r)
  && Sql.opt_eq level (row_level r).

Definition w_base (base_start_s cur_start_s : string)
  (service level : option string) (r : Row) : bool :=
  Str.leb base_start_s (row_timestamp r)
  && Str.ltb (row_timestamp r) cur_start_s
  && Sql.opt_eq service (row_service r)
  && Sql.opt_eq level (row_level r).

(** A row of [cur]: the count of the group, and [service] and [level] from
    one of its rows (SQLite does not say which; the first here). *)
Record CurRow : Type := mkCurRow {
  cur_group_id : string;
  cur_service : string;
  cur_level : string;
  cur_cnt : Z
}.

(** A row of [base]: [CAST(COUNT( * ) AS REAL) / ?]. *)
Record BaseRow : Type := mkBaseRow {
  base_group_id : string;
  avg_cnt : float
}.

Definition cur_group (filtered : list Row) (gid : string) : option CurRow :=
  match Sql.members gid filtered with
  | [] => None
  | r :: rest =>
      Some (mkCurRow (row_group_id r) (row_service r) (row_level r)
              (Sql.count_rows (r :: rest)))
  end.

Definition base_group (windows : Z) (filtered : list Row) (gid : string)
  : option BaseRow :=
  match Sql.members gid filtered with
  | [] => None
  | r :: rest =>
      Some (mkBaseRow (row_group_id r)
              (PrimFloat.div (Num.of_Z (Sql.count_rows (r :: rest)))
                 (Num.of_Z windows)))
  end.

Definition cur_table (table : list Row) (cur_start_s : string)
  (service level : option string) : list CurRow :=
  let filtered := filter (w_cur cur_start_s service level) table in
  Group.somes (List.map (cur_group filtered) (Sql.group_keys filtered)).

Definition base_table (table : list Row) (base_start_s cur_start_s : string)
  (windows : Z) (service level : option string) : list BaseRow :=
  let filtered := filter (w_base base_start_s cur_start_s service level) table in
  Group.somes (List.map (base_group windows filtered) (Sql.group_keys filtered)).

(** [cur LEFT JOIN base ON cur.group_id = base.group_id]: [base.avg_cnt] of
    the row joined to a row of [cur], NULL when there is none. *)
Definition joined_avg (base : list BaseRow) (gid : string) : option float :=
  option_map avg_cnt
    (find (fun b => String.eqb gid (base_group_id b)) base).

(** A row of the result. *)
Record SpikeRow : Type := mkSpikeRow {
  col_group_id : string;
  col_service : string;
  col_level : string;
  col_cnt : Z;
  col_baseline_avg : float;
  col_ratio : float
}.

(** The final WHERE, and the columns of a row that passes it. *)
Definition passes (ratio_threshold : float) (c : CurRow)
  (avg : option float) : bool :=
  match avg with
  | Some a => positive_avg a && meets_threshold ratio_threshold (cur_cnt c) a
  | None => false
  end.

Definition select_row (c : CurRow) (avg : option float) : SpikeRow :=
  let baseline_avg :=
    match avg with
    | Some a => a
    | None => 0%float
    end in
  mkSpikeRow (cur_group_id c) (cur_service c) (cur_level c) (cur_cnt c)
    baseline_avg
    (match avg with
     | Some a =>
         if positive_avg baseline_avg
         then PrimFloat.div (Num.of_Z (cur_cnt c)) a
         else Num.of_Z 999
     | None => Num.of_Z 999
     end).

Definition select_spikes (table : list Row) (cur_start_s base_start_s : string)
  (windows : Z) (ratio_threshold : float) (service level : option string)
  : list SpikeRow :=
  let cur := cur_table table cur_start_s service level in
  let base := base_table table base_start_s cur_start_s windows service level in
  let joined :=
    List.map (fun c => (c, joined_avg base (cur_group_id c))) cur in
  let kept := filter (fun ca => passes ratio_threshold (fst ca) (snd ca)) joined in
  Sql.order_desc (fun a b => PrimFloat.ltb (col_ratio a) (col_ratio b))
    (List.map (fun ca => select_row (fst ca) (snd ca)) kept).

Definition to_item (cur_start_s : string) (row : SpikeRow) : SpikeItem :=
  mkSpikeItem (col_group_id row) (col_service row) (col_level row)
    cur_start_s (col_cnt row) (col_baseline_avg row)
    (Num.round2 (col_ratio row)).

(** The two window bounds; the [datetime] arithmetic may overflow. *)
Definition window_bounds (now : datetime) (window_minutes baseline_windows : Z)
  : result (datetime * datetime) :=
  cur_start <- Datetime.sub_minutes now window_minutes ;;
  base_start <-
    Datetime.sub_minutes cur_start
      (window_minutes * Z.max baseline_windows 1) ;;
  Ok (cur_start, base_start).

(** [get_spikes]: the response (or the exception) and the database the call
    leaves. *)
Definition get_spikes (now : datetime) (window_minutes : Z)
  (ratio_threshold : float) (baseline_windows : Z)
  (service level : option string) (db : Database)
  : result SpikesResponse * Database :=
  match window_bounds now window_minutes baseline_windows with
  | Raise e => (Raise e, db)
  | Ok (cur_start, base_start) =>
      let cur_start_s := Datetime.isoformat cur_start in
      let base_start_s := Datetime.isoformat base_start in
      let conn := get_connection db in
      let res :=
        windows <- Sql.bind_int (Z.max baseline_windows 1) ;;
        let rows :=
          select_spikes (logs (database conn)) cur_start_s base_start_s
            windows ratio_threshold service level in
        Ok (mkSpikesResponse (List.map (to_item cur_start_s) rows)) in
      (res, close conn)
  end.

End Spikes.

(** *** Facts about binary64 comparison *)

Module NumProps.

Ltac cmp_norm :=
  repeat match goal with
  | H : context [Pos.compare_cont Eq ?a ?b] |- _ =>
      change (Pos.compare_cont Eq a b) with (Pos.compare a b) in H
  | |- context [Pos.compare_cont Eq ?a ?b] =>
      change (Pos.compare_cont Eq a b) with (Pos.compare a b)
  end.

Ltac cmp_split :=
  repeat match goal with
  | H : context [(?a ?= ?b)%positive] |- _ => destruct (Pos.compare_spec a b)
  | |- context [(?a ?= ?b)%positive] => destruct (Pos.compare_spec a b)
  | H : context [(?a ?= ?b)%Z] |- _ => destruct (Z.compare_spec a b)
  | |- context [(?a ?= ?b)%Z] => destruct (Z.compare_spec a b)
  end.

Ltac cmp_solve :=
  cbn in *; cmp_norm; cmp_split; cbn in *;
  try congruence; try (exfalso; lia).

Lemma SFcompare_lt_asym (x y : spec_float) :
  SFcompare x y = Some Lt -> SFcompare y x = Some Gt.
Proof.
  destruct x as [sx|sx| |sx mx ex], y as [sy|sy| |sy my ey];
    try destruct sx; try destruct sy; intros H; cmp_solve.
Qed.

Lemma SFcompare_lt_trans (x y z : spec_float) :
  SFcompare x y = Some Lt -> SFcompare y z = Some Lt ->
  SFcompare x z = Some Lt.
Proof.
  destruct x as [sx|sx| |sx mx ex], y as [sy|sy| |sy my ey],
    z as [sz|sz| |sz mz ez];
    try destruct sx; try destruct sy; try destruct sz; intros H1 H2;
    cmp_solve.
Qed.

Lemma ltb_asym (a b : float) :
  PrimFloat.ltb a b = true -> PrimFloat.ltb b a = false.
Proof.
  rewrite !ltb_spec. unfold SFltb.
  destruct (SFcompare (Prim2SF a) (Prim2SF b)) as [[| |]|] eqn:E;
    try discriminate.
  now rewrite (SFcompare_lt_asym _ _ E).
Qed.

Lemma ltb_trans (a b c : float) :
  PrimFloat.ltb a b = true -> PrimFloat.ltb b c = true ->
  PrimFloat.ltb a c = true.
Proof.
  rewrite !ltb_spec. unfold SFltb.
  destruct (SFcompare (Prim2SF a) (Prim2SF b)) as [[| |]|] eqn:E1;
    try discriminate.
  destruct (SFcompare (Prim2SF b) (Prim2SF c)) as [[| |]|] eqn:E2;
    try discriminate.
  now rewrite (SFcompare_lt_trans _ _ _ E1 E2).
Qed.

(** The average of an empty baseline, [0.0 / n], is not above zero. *)
Lemma zero_div_not_positive (x : float) :
  PrimFloat.ltb 0%float (PrimFloat.div (Num.of_Z 0) x) = false.
Proof.
  rewrite ltb_spec, div_spec.
  change (Prim2SF (Num.of_Z 0)) with (S754_zero false).
  change (Prim2SF 0%float) with (S754_zero false).
  unfold SF64div, SFdiv. destruct (Prim2SF x); reflexivity.
Qed.

End NumProps.

(** *** Properties of the spike query *)

Module SpikesProps.
Import Db Sql Spikes SqlProps GroupProps NumProps.

(** The entries of a group in the current window and in the baseline
    window, and the baseline average of a list of baseline entries. *)
Definition current_window (cur_start_s : string)
  (service level : option string) (gid : string) (table : list Row)
  : list Row :=
  members gid (filter (w_cur cur_start_s service level) table).

Definition baseline_window (base_start_s cur_start_s : string)
  (service level : option string) (gid : string) (table : list Row)
  : list Row :=
  members gid (filter (w_base base_start_s cur_start_s service level) table).

Definition baseline_average (windows : Z) (rows : list Row) : float :=
  PrimFloat.div (Num.of_Z (count_rows rows)) (Num.of_Z windows).

(** [current_count / baseline_avg] of a report, before rounding. *)
Definition unrounded_ratio (s : SpikeItem) : float :=
  PrimFloat.div (Num.of_Z (count s)) (baseline_avg s).

Lemma group_keys_In (gid : string) (rows : list Row) :
  In gid (group_keys rows) <-> members gid rows <> [].
Proof.
  unfold group_keys. rewrite nodup_In, in_map_iff. split.
  - intros (r & E & Hr) F.
    assert (Hin : In r (members gid rows)) by now apply members_In.
    rewrite F in Hin. destruct Hin.
  - intros Hne. destruct (members gid rows) as [|r rest] eqn:E; [congruence|].
    assert (Hin : In r (members gid rows)) by (rewrite E; now left).
    apply members_In in Hin as [Hin Hg]. now exists r.
Qed.

Lemma count_rows_pos (rows : list Row) : 1 <= count_rows rows <-> rows <> [].
Proof.
  unfold count_rows. destruct rows; cbn [List.length]; split; intros; try lia;
    congruence.
Qed.

Lemma cur_group_spec (filtered : list Row) (gid : string) (c : CurRow) :
  cur_group filtered gid = Some c ->
  cur_group_id c = gid /\ cur_cnt c = count_rows (members gid filtered).
Proof.
  unfold cur_group.
  destruct (members gid filtered) as [|r rest] eqn:E; [discriminate|].
  intros [= <-]. cbn. split; [|reflexivity].
  apply (members_In gid filtered r). rewrite E. now left.
Qed.

Lemma base_group_key (windows : Z) (filtered : list Row) (gid : string)
  (b : BaseRow) :
  base_group windows filtered gid = Some b -> base_group_id b = gid.
Proof.
  unfold base_group.
  destruct (members gid filtered) as [|r rest] eqn:E; [discriminate|].
  intros [= <-]. cbn.
  apply (members_In gid filtered r). rewrite E. now left.
Qed.

(** The join finds the row of [base] with the key, when there is one. *)
Lemma find_somes (f : string -> option BaseRow) (keys : list string)
  (gid : string) :
  (forall k b, f k = Some b -> base_group_id b = k) ->
  (~ In gid keys -> f gid = None) ->
  find (fun b => String.eqb gid (base_group_id b))
    (Group.somes (List.map f keys))
  = f gid.
Proof.
  intros Hkey. induction keys as [|k keys IH]; intros Hout; cbn.
  - symmetry. apply Hout. tauto.
  - destruct (f k) as [b|] eqn:E; cbn.
    + rewrite (Hkey _ _ E).
      destruct (String.eqb_spec gid k) as [-> | Hne]; [now rewrite E|].
      apply IH. intros Hn. apply Hout. intros [-> | Hin]; tauto.
    + destruct (string_dec gid k) as [-> | Hne]; [|].
      * rewrite E.
        destruct (find _ _) as [b|] eqn:Ef; [|reflexivity].
        apply find_some in Ef as [Hin Hb].
        apply In_somes in Hin as (k' & _ & Hk').
        apply String.eqb_eq in Hb. rewrite (Hkey _ _ Hk') in Hb. subst k'.
        congruence.
      * apply IH. intros Hn. apply Hout. intros [-> | Hin]; tauto.
Qed.

Lemma joined_avg_spec (table : list Row) (base_start_s cur_start_s : string)
  (windows : Z) (service level : option string) (gid : string) :
  joined_avg
    (base_table table base_start_s cur_start_s windows service level) gid
  = match baseline_window base_start_s cur_start_s service level gid table with
    | [] => None
    | rows => Some (baseline_average windows rows)
    end.
Proof.
  unfold joined_avg, base_table, baseline_window. cbv zeta.
  set (filtered := filter _ table).
  rewrite find_somes.
  - unfold base_group, baseline_average.
    now destruct (members gid filtered).
  - intros k b. apply base_group_key.
  - intros Hn. unfold base_group.
    destruct (members gid filtered) eqn:E; [reflexivity|].
    exfalso. apply Hn, group_keys_In. congruence.
Qed.

Lemma NoDup_map_filter {A B : Type} (f : A -> B) (p : A -> bool)
  (l : list A) :
  NoDup (List.map f l) -> NoDup (List.map f (filter p l)).
Proof.
  induction l as [|a l IH]; cbn; intros Hnd; [constructor|].
  inversion Hnd as [|? ? Ha Hnd']; subst.
  destruct (p a); cbn; [|now apply IH].
  constructor; [|now apply IH].
  intros Hin. apply Ha. apply in_map_iff in Hin as (x & E & Hx).
  apply filter_In in Hx as [Hx _]. rewrite <- E. now apply in_map.
Qed.

Lemma StronglySorted_impl_in {A : Type} (R R' : A -> A -> Prop)
  (l : list A) :
  (forall a b, In a l -> In b l -> R a b -> R' a b) ->
  StronglySorted R l -> StronglySorted R' l.
Proof.
  intros HR Hs. induction Hs as [|a l Hs IH Ha]; constructor.
  - apply IH. intros x y Hx Hy. apply HR; now right.
  - rewrite Forall_forall in *. intros b Hb.
    apply HR; [now left | now right | now apply Ha].
Qed.

Section Select.
Variable table : list Row.
Variables cur_start_s base_start_s : string.
Variable windows : Z.
Variable ratio_threshold : float.
Variables service level : option string.

Let cur (gid : string) : list Row :=
  current_window cur_start_s service level gid table.
Let avg (gid : string) : float :=
  baseline_average windows
    (baseline_window base_start_s cur_start_s service level gid table).
Let curT : list CurRow := cur_table table cur_start_s service level.
Let javg (c : CurRow) : option float :=
  joined_avg
    (base_table table base_start_s cur_start_s windows service level)
    (cur_group_id c).

Lemma cur_table_member (c : CurRow) :
  In c curT ->
  cur_cnt c = count_rows (cur (cur_group_id c)) /\ cur (cur_group_id c) <> [].
Proof.
  unfold curT, cur_table. cbv zeta. intros Hc.
  apply In_somes in Hc as (gid & Hgid & Hc).
  apply group_keys_In in Hgid.
  apply cur_group_spec in Hc as (-> & ->). now split.
Qed.

Lemma cur_table_has (gid : string) :
  cur gid <> [] -> exists c, In c curT /\ cur_group_id c = gid.
Proof.
  intros Hne. unfold curT, cur_table. cbv zeta.
  set (filtered := filter (w_cur cur_start_s service level) table).
  destruct (cur_group filtered gid) as [c|] eqn:E.
  - exists c. split; [|now apply cur_group_spec in E].
    apply In_somes. exists gid. split; [now apply group_keys_In | exact E].
  - unfold cur_group in E. fold filtered in Hne. unfold cur, current_window in Hne.
    fold filtered in Hne. now destruct (members gid filtered).
Qed.

Lemma cur_table_NoDup : NoDup (List.map cur_group_id curT).
Proof.
  unfold curT, cur_table. cbv zeta. apply NoDup_somes.
  - intros gid c Hc. now apply cur_group_spec in Hc.
  - apply NoDup_nodup.
Qed.

Lemma javg_cases (c : CurRow) :
  (javg c = None
   /\ baseline_window base_start_s cur_start_s service level
        (cur_group_id c) table = [])
  \/ javg c = Some (avg (cur_group_id c)).
Proof.
  unfold javg, avg. rewrite joined_avg_spec.
  destruct (baseline_window _ _ _ _ _ _); [left | right]; auto.
Qed.

Lemma passes_iff (c : CurRow) :
  passes ratio_threshold c (javg c) = true
  <-> positive_avg (avg (cur_group_id c)) = true
      /\ meets_threshold ratio_threshold (cur_cnt c) (avg (cur_group_id c))
         = true.
Proof.
  destruct (javg_cases c) as [(E & Hb) | E]; rewrite E; cbn [passes].
  - split; [discriminate|]. intros (Hp & _).
    unfold avg, baseline_average in Hp. rewrite Hb in Hp.
    unfold positive_avg in Hp. change (count_rows []) with 0 in Hp.
    now rewrite zero_div_not_positive in Hp.
  - apply andb_true_iff.
Qed.

Lemma select_spikes_member (row : SpikeRow) :
  In row (select_spikes table cur_start_s base_start_s windows
            ratio_threshold service level)
  <-> exists c, In c curT
                /\ passes ratio_threshold c (javg c) = true
                /\ row = select_row c (javg c).
Proof.
  unfold select_spikes. cbv zeta. fold curT.
  split.
  - intros Hrow.
    apply (Permutation_in _ (order_desc_perm _ _)) in Hrow.
    apply in_map_iff in Hrow as ([c a] & <- & Hca).
    apply filter_In in Hca as (Hca & Hp).
    apply in_map_iff in Hca as (c' & [= <- <-] & Hc).
    exists c'. auto.
  - intros (c & Hc & Hp & ->).
    apply (Permutation_in _ (Permutation_sym (order_desc_perm _ _))).
    apply in_map_iff. exists (c, javg c). split; [reflexivity|].
    apply filter_In. split; [|exact Hp].
    apply in_map_iff. exists c. auto.
Qed.

(** The rows the SELECT of [get_spikes] returns. *)
Lemma select_spikes_spec :
  let rows :=
    select_spikes table cur_start_s base_start_s windows ratio_threshold
      service level in
  (forall gid,
     In gid (List.map col_group_id rows)
     <-> cur gid <> []
         /\ positive_avg (avg gid) = true
         /\ meets_threshold ratio_threshold (count_rows (cur gid)) (avg gid)
            = true)
  /\ NoDup (List.map col_group_id rows)
  /\ (forall row, In row rows ->
        col_cnt row = count_rows (cur (col_group_id row))
        /\ col_baseline_avg row = avg (col_group_id row)
        /\ col_ratio row
           = PrimFloat.div (Num.of_Z (col_cnt row)) (col_baseline_avg row))
  /\ StronglySorted
       (fun a b => PrimFloat.ltb (col_ratio a) (col_ratio b) = false) rows.
Proof.
  cbv zeta. split; [|split; [|split]].
  - intros gid. rewrite in_map_iff. split.
    + intros (row & <- & Hrow).
      apply select_spikes_member in Hrow as (c & Hc & Hp & ->).
      cbn [select_row col_group_id].
      apply cur_table_member in Hc as (Hcnt & Hne).
      apply passes_iff in Hp as (Hpos & Hm).
      rewrite <- Hcnt. auto.
    + intros (Hne & Hpos & Hm).
      destruct (cur_table_has gid Hne) as (c & Hc & <-).
      exists (select_row c (javg c)). split; [reflexivity|].
      apply select_spikes_member. exists c. split; [exact Hc|].
      split; [|reflexivity].
      apply passes_iff. split; [exact Hpos|].
      now rewrite (proj1 (cur_table_member c Hc)).
  - unfold select_spikes. cbv zeta. fold curT.
    eapply Permutation_NoDup.
    + apply Permutation_map, Permutation_sym, order_desc_perm.
    + rewrite map_map. cbn [select_row col_group_id].
      apply (NoDup_map_filter (fun ca : CurRow * option float =>
                                 cur_group_id (fst ca))).
      rewrite map_map. cbn [fst]. apply cur_table_NoDup.
  - intros row Hrow.
    apply select_spikes_member in Hrow as (c & Hc & Hp & ->).
    pose proof (proj1 (passes_iff c) Hp) as (Hpos & _).
    destruct (javg_cases c) as [(E & _) | E];
      rewrite E in *; [discriminate|].
    cbn [select_row col_group_id col_cnt col_baseline_avg col_ratio].
    rewrite Hpos.
    split; [now apply cur_table_member|]. split; reflexivity.
  - unfold select_spikes. cbv zeta.
    apply (order_desc_sorted
             (fun a b => PrimFloat.ltb (col_ratio a) (col_ratio b))).
    + intros a b. apply ltb_asym.
    + intros a b c. apply ltb_trans.
Qed.

End Select.

(** With a baseline of at least one window that fits 64 bits, and window
    bounds that are [datetime]s, [get_spikes] returns the rows of the SELECT
    with the ratio rounded. *)
Lemma get_spikes_returns (now : datetime) (window_minutes : Z)
  (ratio_threshold : float) (baseline_windows : Z)
  (service level : option string) (db : Database)
  (cur_start base_start : datetime) :
  1 <= baseline_windows < 2 ^ 63 ->
  window_bounds now window_minutes baseline_windows
  = Ok (cur_start, base_start) ->
  get_spikes now window_minutes ratio_threshold baseline_windows service
    level db
  = (Ok (mkSpikesResponse
           (List.map (to_item (Datetime.isoformat cur_start))
              (select_spikes (logs db) (Datetime.isoformat cur_start)
                 (Datetime.isoformat base_start) baseline_windows
                 ratio_threshold service level))),
     init_db db).
Proof.
  intros Hbw Hwin. unfold get_spikes. rewrite Hwin.
  unfold get_connection, close. cbn [database].
  change (logs (init_db db)) with (logs db).
  replace (Z.max baseline_windows 1) with baseline_windows by lia.
  unfold bind_int, fits_int64.
  destruct (Z.leb_spec (- 2 ^ 63) baseline_windows); [|lia].
  destruct (Z.ltb_spec baseline_windows (2 ^ 63)); [reflexivity | lia].
Qed.

(** The window bounds are [datetime]s as long as both stay within the years
    1..9999 (and the [timedelta]s within their billion days). *)
Lemma window_bounds_in_range (now : datetime) (window_minutes baseline_windows : Z) :
  let step := window_minutes * 60 * Datetime.us_per_second in
  let back :=
    window_minutes * Z.max baseline_windows 1 * 60 * Datetime.us_per_second in
  Z.abs (step / Datetime.us_per_day) <= 999999999 ->
  Z.abs (back / Datetime.us_per_day) <= 999999999 ->
  Datetime.in_range (micros now - step) = true ->
  Datetime.in_range (micros now - step - back) = true ->
  window_bounds now window_minutes baseline_windows
  = Ok (mkDatetime (micros now - step) (tz now),
        mkDatetime (micros now - step - back) (tz now)).
Proof.
  cbv zeta. intros H1 H2 H3 H4.
  unfold window_bounds, Datetime.sub_minutes, bind.
  destruct (Z.ltb_spec 999999999
              (Z.abs (window_minutes * 60 * Datetime.us_per_second
                      / Datetime.us_per_day))); [lia|].
  rewrite H3. cbn [micros tz].
  destruct (Z.ltb_spec 999999999
              (Z.abs (window_minutes * Z.max baseline_windows 1 * 60
                      * Datetime.us_per_second / Datetime.us_per_day)));
    [lia|].
  now rewrite H4.
Qed.

Definition spike_row (id : Z) (ts : string) : Row :=
  sample_row id ts "ERROR" "boom" "api" "api|ERROR|boom".

(** 2024-01-01T01:00:00, and a store with one entry in the baseline, one in
    the last five minutes and one dated an hour ahead. *)
Definition sample_now : datetime :=
  mkDatetime
    ((Iso.days_from_civil 2024 1 1 * 86400 + 3600) * Datetime.us_per_second)
    None.

Definition spike_db : Database :=
  mkDatabase
    [ spike_row 1 "2024-01-01T00:40:00";
      spike_row 2 "2024-01-01T00:57:00";
      spike_row 3 "2024-01-01T02:00:00" ]
    3 (Some (SqlInt 0)).

(** C1, as stated, fails for windows that reach before the year 1: the
    [datetime] subtraction raises [OverflowError] and nothing is reported.
    Here five-minute windows and [10^10] baseline windows. *)
Lemma get_spikes_overflow :
  ~ (forall (now : datetime) (window_minutes : Z) (ratio_threshold : float)
            (baseline_windows : Z) (service level : option string)
            (db : Database),
       1 <= baseline_windows ->
       exists resp,
         fst (get_spikes now window_minutes ratio_threshold baseline_windows
                service level db) = Ok resp).
Proof.
  intros H.
  destruct (H sample_now 5 2%float (10 ^ 10) None None spike_db) as (resp & F);
    [lia|].
  vm_compute in F. discriminate.
Qed.

(** C1, amended. When the two window bounds are [datetime]s and
    [baseline_windows >= 1] fits 64 bits, [get_spikes] reports a group
    exactly when it has an entry in the current window, its baseline average
    (its number of baseline entries divided by [baseline_windows]) is above
    zero, and its current count is at least [ratio_threshold] times that
    average; no group is reported twice; each report carries the current
    count, the baseline average, and their quotient rounded to two places;
    and the reports are in order of non-increasing quotient. The arithmetic
    is that of binary64 numbers. *)
Theorem get_spikes_reports (now : datetime) (window_minutes : Z)
  (ratio_threshold : float) (baseline_windows : Z)
  (service level : option string) (db : Database)
  (cur_start base_start : datetime) :
  1 <= baseline_windows < 2 ^ 63 ->
  window_bounds now window_minutes baseline_windows
  = Ok (cur_start, base_start) ->
  let cur gid :=
    current_window (Datetime.isoformat cur_start) service level gid (logs db) in
  let avg gid :=
    baseline_average baseline_windows
      (baseline_window (Datetime.isoformat base_start)
         (Datetime.isoformat cur_start) service level gid (logs db)) in
  exists resp,
    get_spikes now window_minutes ratio_threshold baseline_windows service
      level db = (Ok resp, init_db db)
    /\ (forall gid,
          In gid (List.map group_id (spikes resp))
          <-> cur gid <> []
              /\ positive_avg (avg gid) = true
              /\ meets_threshold ratio_threshold (count_rows (cur gid))
                   (avg gid) = true)
    /\ NoDup (List.map group_id (spikes resp))
    /\ (forall s, In s (spikes resp) ->
          count s = count_rows (cur (group_id s))
          /\ baseline_avg s = avg (group_id s)
          /\ ratio s = Num.round2 (unrounded_ratio s))
    /\ StronglySorted
         (fun a b =>
            PrimFloat.ltb (unrounded_ratio a) (unrounded_ratio b) = false)
         (spikes resp).
Proof.
  intros Hbw Hwin. cbv zeta.
  eexists. split;
    [exact (get_spikes_returns now window_minutes ratio_threshold
              baseline_windows service level db cur_start base_start
              Hbw Hwin)|].
  cbn [spikes].
  destruct (select_spikes_spec (logs db) (Datetime.isoformat cur_start)
              (Datetime.isoformat base_start) baseline_windows
              ratio_threshold service level)
    as (Hiff & Hnd & Hrow & Hsort).
  set (rows := select_spikes _ _ _ _ _ _ _) in *.
  assert (Hids : List.map group_id
                   (List.map (to_item (Datetime.isoformat cur_start)) rows)
                 = List.map col_group_id rows)
    by (rewrite map_map; reflexivity).
  split; [intros gid; rewrite Hids; apply Hiff|].
  split; [now rewrite Hids|].
  split.
  - intros s Hs. apply in_map_iff in Hs as (row & <- & Hr).
    destruct (Hrow row Hr) as (Hc & Ha & Hq).
    unfold unrounded_ratio. cbn [to_item group_id count baseline_avg ratio].
    now rewrite <- Hq.
  - apply StronglySorted_map.
    eapply StronglySorted_impl_in; [|exact Hsort].
    intros a b Ha Hb. unfold unrounded_ratio.
    cbn [to_item count baseline_avg].
    destruct (Hrow a Ha) as (_ & _ & <-).
    destruct (Hrow b Hb) as (_ & _ & <-). auto.
Qed.

(** The bounds of the sample query: 00:55:00 and 00:25:00. *)
Definition sample_cur_start : datetime :=
  mkDatetime (micros sample_now - 5 * 60 * Datetime.us_per_second) None.
Definition sample_base_start : datetime :=
  mkDatetime
    (micros sample_now - 5 * 60 * Datetime.us_per_second
     - 5 * 6 * 60 * Datetime.us_per_second) None.

Lemma sample_bounds :
  window_bounds sample_now 5 6 = Ok (sample_cur_start, sample_base_start).
Proof. vm_compute. reflexivity. Qed.

Lemma get_spikes_reports_witness :
  exists resp,
    get_spikes sample_now 5 2%float 6 None None spike_db
    = (Ok resp, init_db spike_db)
    /\ NoDup (List.map group_id (spikes resp))
    /\ StronglySorted
         (fun a b =>
            PrimFloat.ltb (unrounded_ratio a) (unrounded_ratio b) = false)
         (spikes resp).
Proof.
  destruct (get_spikes_reports sample_now 5 2%float 6 None None spike_db
              sample_cur_start sample_base_start)
    as (resp & H1 & _ & H3 & _ & H5).
  - lia.
  - exact sample_bounds.
  - exists resp. split; [exact H1|]. split; [exact H3 | exact H5].
Defined.

(** Scenario C of the specification: 50 entries of a group over the ten
    baseline windows and 40 in the current five minutes, with threshold 2.0:
    the baseline average is 5, the ratio 8.0, and the group is reported. *)
Definition scenario_c : Database :=
  mkDatabase
    (List.map (fun i => spike_row (Z.of_nat i) "2024-01-01T00:30:00") (seq 1 50)
     ++ List.map (fun i => spike_row (Z.of_nat i) "2024-01-01T00:57:00")
          (seq 51 40))
    90 (Some (SqlInt 0)).

Example get_spikes_scenario_c :
  fst (get_spikes sample_now 5 2%float 10 None None scenario_c)
  = Ok (mkSpikesResponse
          [mkSpikeItem "api|ERROR|boom" "api" "ERROR" "2024-01-01T00:55:00"
             40 5%float 8%float]).
Proof. vm_compute. reflexivity. Qed.

(** C6, as stated, fails: the current window has no upper bound. Of the
    sample store the entry dated an hour after [now] is counted: the report
    has count 2, and one entry only lies in the five minutes before [now]. *)
Lemma get_spikes_counts_future_entry :
  ~ (forall (now : datetime) (window_minutes : Z) (ratio_threshold : float)
            (baseline_windows : Z) (service level : option string)
            (db : Database) (cur_start base_start : datetime)
            (resp : SpikesResponse),
       window_bounds now window_minutes baseline_windows
       = Ok (cur_start, base_start) ->
       fst (get_spikes now window_minutes ratio_threshold baseline_windows
              service level db) = Ok resp ->
       forall s, In s (spikes resp) ->
         count s
         = count_rows
             (filter
                (fun r => Str.ltb (row_timestamp r) (Datetime.isoformat now))
                (current_window (Datetime.isoformat cur_start) service level
                   (group_id s) (logs db)))).
Proof.
  intros H.
  destruct (fst (get_spikes sample_now 5 2%float 6 None None spike_db))
    as [resp|e] eqn:E; [|vm_compute in E; discriminate].
  pose proof (H sample_now 5 2%float 6 None None spike_db
                sample_cur_start sample_base_start resp sample_bounds E) as F.
  vm_compute in E. injection E as <-.
  specialize (F _ (or_introl eq_refl)).
  vm_compute in F. discriminate.
Qed.

(** C6, amended. The current window of [get_spikes] holds the entries whose
    timestamp is at or after [now - window_minutes], with no upper bound,
    and the baseline window those from
    [now - window_minutes * (1 + baseline_windows)] up to, and not including,
    [now - window_minutes] (timestamps compared as the stored ISO texts): the
    count of a report is the number of entries of its group in the first, its
    baseline average the number in the second over [baseline_windows]; an
    entry at or after [now - window_minutes], a future-dated one among them,
    is in the baseline window of no group, and in the current window of its
    group when it matches the filters. *)
Theorem get_spikes_windows (now : datetime) (window_minutes : Z)
  (ratio_threshold : float) (baseline_windows : Z)
  (service level : option string) (db : Database)
  (cur_start base_start : datetime) :
  1 <= baseline_windows < 2 ^ 63 ->
  window_bounds now window_minutes baseline_windows
  = Ok (cur_start, base_start) ->
  let cur_s := Datetime.isoformat cur_start in
  let base_s := Datetime.isoformat base_start in
  exists resp,
    get_spikes now window_minutes ratio_threshold baseline_windows service
      level db = (Ok resp, init_db db)
    /\ (forall s, In s (spikes resp) ->
          window_start s = cur_s
          /\ count s
             = count_rows
                 (current_window cur_s service level (group_id s) (logs db))
          /\ baseline_avg s
             = baseline_average baseline_windows
                 (baseline_window base_s cur_s service level (group_id s)
                    (logs db)))
    /\ (forall gid r,
          In r (current_window cur_s service level gid (logs db))
          <-> In r (logs db) /\ row_group_id r = gid
              /\ opt_eq service (row_service r) = true
              /\ opt_eq level (row_level r) = true
              /\ Str.leb cur_s (row_timestamp r) = true)
    /\ (forall gid r,
          In r (baseline_window base_s cur_s service level gid (logs db))
          <-> In r (logs db) /\ row_group_id r = gid
              /\ opt_eq service (row_service r) = true
              /\ opt_eq level (row_level r) = true
              /\ Str.leb base_s (row_timestamp r) = true
              /\ Str.ltb (row_timestamp r) cur_s = true)
    /\ (forall gid r,
          Str.leb cur_s (row_timestamp r) = true ->
          ~ In r (baseline_window base_s cur_s service level gid (logs db))).
Proof.
  intros Hbw Hwin. cbv zeta.
  assert (Hcurw : forall gid r,
             In r (current_window (Datetime.isoformat cur_start) service level
                     gid (logs db))
             <-> In r (logs db) /\ row_group_id r = gid
                 /\ opt_eq service (row_service r) = true
                 /\ opt_eq level (row_level r) = true
                 /\ Str.leb (Datetime.isoformat cur_start) (row_timestamp r)
                    = true).
  { intros gid r. unfold current_window, w_cur.
    rewrite members_In, filter_In, !andb_true_iff. tauto. }
  assert (Hbasew : forall gid r,
             In r (baseline_window (Datetime.isoformat base_start)
                     (Datetime.isoformat cur_start) service level gid (logs db))
             <-> In r (logs db) /\ row_group_id r = gid
                 /\ opt_eq service (row_service r) = true
                 /\ opt_eq level (row_level r) = true
                 /\ Str.leb (Datetime.isoformat base_start) (row_timestamp r)
                    = true
                 /\ Str.ltb (row_timestamp r) (Datetime.isoformat cur_start)
                    = true).
  { intros gid r. unfold baseline_window, w_base.
    rewrite members_In, filter_In, !andb_true_iff. tauto. }
  eexists. split;
    [exact (get_spikes_returns now window_minutes ratio_threshold
              baseline_windows service level db cur_start base_start
              Hbw Hwin)|].
  cbn [spikes].
  split; [|split; [exact Hcurw | split; [exact Hbasew|]]].
  - destruct (select_spikes_spec (logs db) (Datetime.isoformat cur_start)
                (Datetime.isoformat base_start) baseline_windows
                ratio_threshold service level)
      as (_ & _ & Hrow & _).
    intros s Hs. apply in_map_iff in Hs as (row & <- & Hr).
    destruct (Hrow row Hr) as (Hc & Ha & _).
    cbn [to_item window_start group_id count baseline_avg]. auto.
  - intros gid r Hle Hin. apply Hbasew in Hin as (_ & _ & _ & _ & _ & Hlt).
    apply ltb_false_leb in Hle. congruence.
Qed.

Lemma get_spikes_windows_witness :
  exists resp,
    get_spikes sample_now 5 2%float 6 None None spike_db
    = (Ok resp, init_db spike_db)
    /\ ~ In (spike_row 3 "2024-01-01T02:00:00")
           (baseline_window (Datetime.isoformat sample_base_start)
              (Datetime.isoformat sample_cur_start) None None
              "api|ERROR|boom" (logs spike_db)).
Proof.
  destruct (get_spikes_windows sample_now 5 2%float 6 None None spike_db
              sample_cur_start sample_base_start)
    as (resp & H1 & _ & _ & _ & H5).
  - lia.
  - exact sample_bounds.
  - exists resp. split; [exact H1|]. apply H5. vm_compute. reflexivity.
Defined.

(** The sample store, queried: the report counts the future-dated entry. *)
Example get_spikes_sample :
  fst (get_spikes sample_now 5 2%float 6 None None spike_db)
  = Ok (mkSpikesResponse
          [mkSpikeItem "api|ERROR|boom" "api" "ERROR" "2024-01-01T00:55:00"
             2 (PrimFloat.div 1 6) 12%float]).
Proof. vm_compute. reflexivity. Qed.

End SpikesProps.

(** * Further properties of the store and of the queries *)

(** ** What [process_logs] writes *)

Module StoreProps.
Import Db Ingest IngestProps.

(** The fingerprint of the service, level and message a row holds. *)
Definition row_fp (r : Row) : string :=
  Fingerprint.compute_fingerprint
    (mkCanonicalLog (mkDatetime 0 None) (row_level r) (row_message r)
       (row_service r) "" [] "").

(** The form of a row written by the pipeline. *)
Definition stored_form (r : Row) : Prop :=
  Str.mem (row_level r) allowed_levels = true
  /\ Str.nonempty (row_message r) = true
  /\ Str.nonempty (row_service r) = true
  /\ row_fingerprint r = row_fp r
  /\ row_group_id r = row_fingerprint r.

(** The rows carry the identifiers [start], [start + 1], ... *)
Fixpoint consecutive_from (start : Z) (rows : list Row) : Prop :=
  match rows with
  | [] => True
  | r :: rows' => row_id r = start /\ consecutive_from (start + 1) rows'
  end.

Lemma consecutive_app (start : Z) (a b : list Row) :
  consecutive_from start (a ++ b)
  <-> consecutive_from start a
      /\ consecutive_from (start + Z.of_nat (List.length a)) b.
Proof.
  revert start. induction a as [|r a IH]; intros start; cbn [app consecutive_from List.length].
  - rewrite Z.add_0_r. tauto.
  - rewrite IH.
    replace (start + 1 + Z.of_nat (List.length a))
      with (start + Z.of_nat (S (List.length a))) by lia.
    tauto.
Qed.

(** The rows of a connection, committed and pending, against the table
    [logs0] and the sequence value [last0] the batch started from: [added]
    are the rows committed since. *)
Definition store_inv (logs0 : list Row) (last0 : Z) (c : Connection)
  (added : list Row) : Prop :=
  logs (database c) = (logs0 ++ added)%list
  /\ last_id (database c) = last0 + Z.of_nat (List.length added)
  /\ Forall stored_form (added ++ pending c)
  /\ consecutive_from (last0 + 1) (added ++ pending c).

Section Writes.
Context `{PyLib}.
Variable settings : Settings.
Variable clock : nat -> datetime.
Variable faults : nat -> fault.

(** A row that [store_log] builds from an entry that passed validation has
    the stored form. *)
Lemma store_log_row (f : fault) (c c' : Connection) (d : list (string * pyval))
  (now : datetime) (canonical : CanonicalLog) (errs : list string) :
  Normalize.normalize now d = Ok canonical ->
  Validate.validate_log settings (Validate.ACanonical canonical) = (true, errs) ->
  store_log f c canonical (Fingerprint.compute_fingerprint canonical)
    (Fingerprint.compute_fingerprint canonical) = Ok c' ->
  exists row,
    c' = mkConnection (database c) (pending c ++ [row])
    /\ row_id row
       = last_id (database c) + Z.of_nat (List.length (pending c)) + 1
    /\ stored_form row.
Proof.
  intros Hn Hv Hs. unfold store_log, bind in Hs.
  destruct (match metadata canonical with [] => Ok "{}" | _ :: _ => _ end)
    as [txt|e]; [|discriminate].
  assert (Hc' : c' = mkConnection (database c)
                  (pending c ++
                   [mkRow (last_id (database c)
                           + Z.of_nat (List.length (pending c)) + 1)
                      (Datetime.isoformat (timestamp canonical))
                      (level canonical) (message canonical) (service canonical)
                      (correlation_id canonical) txt (raw canonical)
                      (Fingerprint.compute_fingerprint canonical)
                      (Fingerprint.compute_fingerprint canonical)]))
    by (destruct f; congruence).
  eexists. split; [exact Hc'|]. split; [reflexivity|].
  assert (Hvalid : fst (Validate.validate_log settings
                          (Validate.ACanonical canonical)) = true)
    by now rewrite Hv.
  cbn [Validate.validate_log] in Hvalid.
  apply ValidateProps.check_rules_valid in Hvalid as (Hl & _ & Hm).
  destruct (NormalizeProps.normalize_fields_defined now d) as (_ & Hf).
  destruct (Hf canonical Hn) as (_ & _ & Hsvc & _).
  unfold stored_form. cbn.
  repeat split; auto.
  destruct (Str.nonempty (message canonical)); [reflexivity | discriminate].
Qed.

(** One turn of the loop keeps the invariant and only adds rows. *)
Lemma loop_body_store (logs0 : list Row) (last0 : Z) (st : LoopState)
  (i : nat) (raw : pyval) (added : list Row) :
  store_inv logs0 last0 (conn st) added ->
  exists more,
    store_inv logs0 last0 (conn (loop_body settings clock faults st i raw))
      (added ++ more).
Proof.
  intros Hinv.
  assert (Hsame : exists more, store_inv logs0 last0 (conn st) (added ++ more))
    by (exists []; now rewrite app_nil_r).
  unfold loop_body.
  destruct raw; try exact Hsame.
  destruct (Normalize.normalize (clock i) d) as [canonical|e] eqn:Hn;
    [|exact Hsame].
  destruct (Validate.validate_log settings (Validate.ACanonical canonical))
    as [[|] errs] eqn:Hv; [|exact Hsame].
  cbn [negb].
  destruct (store_log (faults i) (conn st) canonical _ _) as [c1|e] eqn:Hs;
    [|exact Hsame].
  destruct (store_log_row _ _ _ _ _ _ _ Hn Hv Hs) as (row & -> & Hid & Hrow).
  destruct Hinv as (Hlogs & Hlast & Hforms & Hids).
  assert (Hforms' : Forall stored_form (added ++ pending (conn st) ++ [row])).
  { rewrite app_assoc. apply Forall_app. split; [exact Hforms|].
    now constructor. }
  assert (Hids' : consecutive_from (last0 + 1)
                    (added ++ pending (conn st) ++ [row])).
  { rewrite app_assoc. apply consecutive_app. split; [exact Hids|].
    cbn. split; [|exact I]. rewrite Hid, Hlast, length_app. lia. }
  destruct (faults i) as [ | e | e [|]] eqn:Hf; cbn.
  - exists (pending (conn st) ++ [row])%list. unfold store_inv. cbn.
    rewrite Hlogs, Hlast, !length_app, app_nil_r, <- !app_assoc.
    repeat split; auto. cbn. lia.
  - exists (pending (conn st) ++ [row])%list. unfold store_inv. cbn.
    rewrite Hlogs, Hlast, !length_app, app_nil_r, <- !app_assoc.
    repeat split; auto. cbn. lia.
  - exists []. unfold store_inv. cbn. rewrite !app_nil_r.
    repeat split; auto.
    + apply Forall_app in Hforms. tauto.
    + apply consecutive_app in Hids. tauto.
  - exists []. unfold store_inv. cbn. rewrite !app_nil_r.
    repeat split; auto.
Qed.

Lemma loop_store (logs0 : list Row) (last0 : Z) (raw_logs : list pyval)
  (st : LoopState) (i : nat) (added : list Row) :
  store_inv logs0 last0 (conn st) added ->
  exists more,
    store_inv logs0 last0 (conn (loop settings clock faults st i raw_logs))
      (added ++ more).
Proof.
  revert st i added. induction raw_logs as [|raw rest IH]; intros st i added Hinv.
  - exists []. now rewrite app_nil_r.
  - cbn [loop].
    destruct (loop_body_store logs0 last0 st i raw added Hinv) as (m1 & H1).
    destruct (IH _ (S i) _ H1) as (m2 & H2).
    exists (m1 ++ m2)%list. now rewrite app_assoc.
Qed.

(** Without a failing COMMIT nothing stays pending, and the table grows by
    one row for each accepted item. *)
Definition no_commit_fault (f : fault) : Prop :=
  match f with
  | CommitFault _ _ => False
  | _ => True
  end.

Definition table_size (st : LoopState) : Z :=
  Z.of_nat (List.length (logs (database (conn st)))).

Lemma loop_body_accepts (st : LoopState) (i : nat) (raw : pyval) :
  no_commit_fault (faults i) ->
  pending (conn st) = [] ->
  let st' := loop_body settings clock faults st i raw in
  pending (conn st') = []
  /\ table_size st' - accepted st' = table_size st - accepted st.
Proof.
  intros Hf Hp. cbv zeta. unfold loop_body, table_size.
  destruct raw; try (cbn; split; [exact Hp | reflexivity]).
  destruct (Normalize.normalize (clock i) d) as [canonical|e];
    [|cbn; split; [exact Hp | reflexivity]].
  destruct (Validate.validate_log settings (Validate.ACanonical canonical))
    as [[|] errs]; [|cbn; split; [exact Hp | reflexivity]].
  cbn [negb]. unfold store_log, bind.
  destruct (match metadata canonical with [] => Ok "{}" | _ :: _ => _ end)
    as [txt|e]; [|cbn; split; [exact Hp | reflexivity]].
  destruct (faults i) as [ | e | e b]; cbn in Hf |- *.
  - rewrite Hp. cbn. split; [reflexivity|]. rewrite length_app. cbn. lia.
  - split; [exact Hp | reflexivity].
  - destruct Hf.
Qed.

Lemma loop_accepts (raw_logs : list pyval) (st : LoopState) (i : nat) :
  (forall j, no_commit_fault (faults j)) ->
  pending (conn st) = [] ->
  let st' := loop settings clock faults st i raw_logs in
  pending (conn st') = []
  /\ table_size st' - accepted st' = table_size st - accepted st.
Proof.
  intros Hf. revert st i.
  induction raw_logs as [|raw rest IH]; intros st i Hp; cbn [loop].
  - split; [exact Hp | reflexivity].
  - destruct (loop_body_accepts st i raw (Hf i) Hp) as (Hp1 & H1).
    destruct (IH _ (S i) Hp1) as (Hp2 & H2).
    cbv zeta in *. split; [exact Hp2 | lia].
Qed.

(** The table [process_logs] leaves, against the one it found. *)
Lemma process_logs_added (raw_logs : list pyval) (db : Database) :
  let db' := snd (process_logs settings clock faults raw_logs db) in
  exists added,
    logs db' = (logs db ++ added)%list
    /\ last_id db' = last_id db + Z.of_nat (List.length added)
    /\ Forall stored_form added
    /\ consecutive_from (last_id db + 1) added.
Proof.
  cbv zeta. unfold process_logs. cbn [snd].
  set (st0 := mkLoopState 0 0 [] (get_connection db)).
  assert (H0 : store_inv (logs db) (last_id db) (conn st0) []).
  { unfold store_inv, st0. cbn. rewrite app_nil_r.
    repeat split; auto. lia. }
  destruct (loop_store (logs db) (last_id db) raw_logs st0 0 [] H0)
    as (added & Hlogs & Hlast & Hforms & Hids).
  set (st := loop settings clock faults st0 0 raw_logs) in *.
  cbn [app] in Hlogs, Hlast, Hforms, Hids.
  apply Forall_app in Hforms as (Hforms & _).
  apply consecutive_app in Hids as (Hids & _).
  exists added.
  destruct (rejected st >? 0); unfold add_rejected_count, close; cbn;
    rewrite ?app_nil_r, ?Z.add_0_r; auto.
Qed.

End Writes.

(** Row identifiers grow along the table and stay within the sequence. *)
Definition ids_increasing (db : Database) : Prop :=
  StronglySorted (fun a b => row_id a < row_id b) (logs db)
  /\ Forall (fun r => row_id r <= last_id db) (logs db).

Lemma consecutive_bounds (start : Z) (rows : list Row) :
  consecutive_from start rows ->
  StronglySorted (fun a b => row_id a < row_id b) rows
  /\ Forall (fun r => start <= row_id r
                     < start + Z.of_nat (List.length rows)) rows.
Proof.
  revert start. induction rows as [|r rows IH]; intros start; cbn.
  - intros _. split; constructor.
  - intros (Hr & Hrest). destruct (IH _ Hrest) as (Hs & Hb). split.
    + constructor; [exact Hs|].
      eapply Forall_impl; [|exact Hb]. cbn. intros a Ha. lia.
    + constructor; [lia|].
      eapply Forall_impl; [|exact Hb]. cbn. intros a Ha. lia.
Qed.

Lemma StronglySorted_app {A : Type} (R : A -> A -> Prop) (a b : list A) :
  StronglySorted R a -> StronglySorted R b ->
  (forall x y, In x a -> In y b -> R x y) ->
  StronglySorted R (a ++ b).
Proof.
  intros Ha Hb Hab. induction Ha as [|x a Ha IH Hx]; cbn; [exact Hb|].
  constructor.
  - apply IH. intros u v Hu Hv. apply Hab; [now right | exact Hv].
  - apply Forall_app. split; [exact Hx|].
    apply Forall_forall. intros y Hy. apply Hab; [now left | exact Hy].
Qed.

(** X1. [process_logs] only appends: the rows that were stored stay, in
    their order, and each row it adds is in stored form: a whitelisted
    level, a non-empty message and service, and a [group_id] that is the
    fingerprint of the row's own service, level and message. *)
Theorem process_logs_append_only `{PyLib} (settings : Settings)
  (clock : nat -> datetime) (faults : nat -> fault)
  (raw_logs : list pyval) (db : Database) :
  exists added,
    logs (snd (process_logs settings clock faults raw_logs db))
    = (logs db ++ added)%list
    /\ Forall stored_form added.
Proof.
  destruct (process_logs_added settings clock faults raw_logs db)
    as (added & Hlogs & _ & Hforms & _).
  exists added. now split.
Qed.

(** X2. The identifiers [process_logs] assigns continue the sequence: on a
    table whose identifiers increase and do not exceed the sequence value,
    the table it leaves is such again. *)
Theorem process_logs_ids_increasing `{PyLib} (settings : Settings)
  (clock : nat -> datetime) (faults : nat -> fault)
  (raw_logs : list pyval) (db : Database) :
  ids_increasing db ->
  ids_increasing (snd (process_logs settings clock faults raw_logs db)).
Proof.
  intros (Hs & Hb).
  destruct (process_logs_added settings clock faults raw_logs db)
    as (added & Hlogs & Hlast & _ & Hids).
  cbv zeta in *. unfold ids_increasing. rewrite Hlogs, Hlast.
  apply consecutive_bounds in Hids as (Hs' & Hb').
  rewrite Forall_forall in Hb, Hb'. split.
  - apply StronglySorted_app; [exact Hs | exact Hs'|].
    intros x y Hx Hy. specialize (Hb x Hx). specialize (Hb' y Hy). lia.
  - apply Forall_forall. intros r Hr. apply in_app_iff in Hr as [Hr | Hr].
    + specialize (Hb r Hr). lia.
    + specialize (Hb' r Hr). lia.
Qed.

Lemma process_logs_ids_increasing_witness :
  ids_increasing
    (snd (@process_logs plain_lib default_settings
            (fun _ => NormalizeProps.noon) sample_faults sample_batch
            empty_db)).
Proof.
  apply (@process_logs_ids_increasing plain_lib default_settings
           (fun _ => NormalizeProps.noon) sample_faults sample_batch empty_db).
  split; constructor.
Defined.

(** X3. When no COMMIT fails, the table grows by exactly [accepted] rows. *)
Theorem process_logs_accepted_rows `{PyLib} (settings : Settings)
  (clock : nat -> datetime) (faults : nat -> fault)
  (raw_logs : list pyval) (db : Database) :
  (forall j, no_commit_fault (faults j)) ->
  let '((accepted, _, _), db') :=
    process_logs settings clock faults raw_logs db in
  Z.of_nat (List.length (logs db'))
  = Z.of_nat (List.length (logs db)) + accepted.
Proof.
  intros Hf. unfold process_logs.
  set (st0 := mkLoopState 0 0 [] (get_connection db)).
  destruct (loop_accepts settings clock faults raw_logs st0 0 Hf eq_refl)
    as (_ & Hsize).
  cbv zeta in Hsize.
  set (st := loop settings clock faults st0 0 raw_logs) in *.
  unfold table_size in Hsize. cbn in Hsize.
  destruct (rejected st >? 0); unfold add_rejected_count, close; cbn;
    rewrite ?app_nil_r; lia.
Qed.

Lemma process_logs_accepted_rows_witness :
  let '((accepted, _, _), db') :=
    @process_logs plain_lib default_settings (fun _ => NormalizeProps.noon)
      sample_faults sample_batch empty_db in
  Z.of_nat (List.length (logs db'))
  = Z.of_nat (List.length (logs empty_db)) + accepted.
Proof.
  apply (@process_logs_accepted_rows plain_lib default_settings
           (fun _ => NormalizeProps.noon) sample_faults sample_batch empty_db).
  intros [|[|[|[|j]]]]; exact I.
Defined.

(** A COMMIT that fails and leaves its transaction open: the first item is
    reported as rejected, and its row is committed with the second. *)
Example rejected_item_stored :
  let '((accepted, rejected, _), db') :=
    @process_logs plain_lib default_settings (fun _ => NormalizeProps.noon)
      (fun i => match i with
                | O => CommitFault OperationalError false
                | _ => NoFault
                end)
      [ VDict [("msg", VStr "first")]; VDict [("msg", VStr "second")] ]
      empty_db in
  accepted = 1 /\ rejected = 1
  /\ List.map row_message (logs db') = ["first"; "second"].
Proof. vm_compute. repeat split. Qed.

End StoreProps.

(** ** Dashboard reads of the database ([app/db.py]) *)

Module Stats.

(** The dict [get_stats] returns. *)
Record StatsRow : Type := mkStatsRow {
  total_logs : Z;
  total_groups : Z;
  total_rejected : Db.sqlnum
}.

(** [get_stats]: [COUNT( * )], [COUNT(DISTINCT group_id)] and the counter
    ([0] when its row is missing). *)
Definition get_stats (db : Db.Database) : StatsRow * Db.Database :=
  let conn := Db.get_connection db in
  let table := Db.logs (Db.database conn) in
  (mkStatsRow
     (Sql.count_rows table)
     (Z.of_nat (List.length (Sql.group_keys table)))
     (match Db.ingest_totals (Db.database conn) with
      | Some n => n
      | None => Db.SqlInt 0
      end),
   Db.close conn).

(** A row of [get_recent_logs]: the six columns it selects. *)
Record RecentLog : Type := mkRecentLog {
  log_id : Z;
  log_timestamp : string;
  log_level : string;
  log_message : string;
  log_service : string;
  log_correlation_id : string
}.

Definition to_recent (r : Db.Row) : RecentLog :=
  mkRecentLog (Db.row_id r) (Db.row_timestamp r) (Db.row_level r)
    (Db.row_message r) (Db.row_service r) (Db.row_correlation_id r).

(** [get_recent_logs]: [ORDER BY id DESC LIMIT ?]. *)
Definition get_recent_logs (limit : Z) (db : Db.Database)
  : result (list RecentLog) * Db.Database :=
  let conn := Db.get_connection db in
  let res :=
    limit' <- Sql.bind_int limit ;;
    Ok (List.map to_recent
          (Sql.limit limit'
             (Sql.order_desc (fun a b => Db.row_id a <? Db.row_id b)
                (Db.logs (Db.database conn))))) in
  (res, Db.close conn).

End Stats.

(** ** The in-memory lists of recent batches and rejections
       ([app/ingest.py]) *)

Module Recent.

Definition _RECENT_MAX : Z := 50.
Definition _RECENT_REJECTED_MAX : Z := 100.

(** An element of [_RECENT_REJECTED] and one of [_RECENT_INGESTS]. *)
Record RejectedEntry : Type := mkRejectedEntry {
  rejected_at : string;
  rejected_error : string;
  rejected_index : Z
}.

Record IngestEntry : Type := mkIngestEntry {
  batch_accepted : Z;
  batch_rejected : Z;
  batch_at : string
}.

(** The two module-level lists. *)
Record Memory : Type := mkMemory {
  _RECENT_INGESTS : list IngestEntry;
  _RECENT_REJECTED : list RejectedEntry
}.

(** [l.append(x)], then [l.pop(0)] when [len(l) > max]. *)
Definition push_bounded {A : Type} (max : Z) (l : list A) (x : A) : list A :=
  let l := (l ++ [x])%list in
  if max <? Z.of_nat (List.length l) then List.tl l else l.

(** [datetime.utcnow().isoformat() + "Z"] *)
Definition stamp (d : datetime) : string := Datetime.isoformat d ++ "Z".

(** The loop over [errors]; [tick k] is the clock read for the [k]-th. *)
Fixpoint record_rejected (tick : nat -> datetime) (k : nat)
  (errors : list Ingest.IngestError) (buf : list RejectedEntry)
  : list RejectedEntry :=
  match errors with
  | [] => buf
  | err :: rest =>
      record_rejected tick (S k) rest
        (push_bounded _RECENT_REJECTED_MAX buf
           (mkRejectedEntry (stamp (tick k)) (Ingest.error err)
              (Z.of_nat (Ingest.index err))))
  end.

(** The end of [process_logs], after the counter is persisted. *)
Definition record_batch (tick : nat -> datetime) (accepted rejected : Z)
  (errors : list Ingest.IngestError) (mem : Memory) : Memory :=
  mkMemory
    (push_bounded _RECENT_MAX (_RECENT_INGESTS mem)
       (mkIngestEntry accepted rejected
          (stamp (tick (List.length errors)))))
    (record_rejected tick 0 errors (_RECENT_REJECTED mem)).

(** [process_logs] with the two lists: the result, the database and the
    lists it leaves. *)
Definition process_logs `{PyLib} (settings : Settings)
  (clock : nat -> datetime) (faults : nat -> Ingest.fault)
  (tick : nat -> datetime) (raw_logs : list pyval)
  (db : Db.Database) (mem : Memory)
  : (Z * Z * list Ingest.IngestError) * Db.Database * Memory :=
  let '((accepted, rejected, errors), db') :=
    Ingest.process_logs settings clock faults raw_logs db in
  ((accepted, rejected, errors), db',
   record_batch tick accepted rejected errors mem).

Definition get_recent_ingests (mem : Memory) : list IngestEntry :=
  _RECENT_INGESTS mem.

(** [l[start:]] *)
Definition slice_from {A : Type} (start : Z) (l : list A) : list A :=
  let len := Z.of_nat (List.length l) in
  let start := if start <? 0 then Z.max (len + start) 0 else Z.min start len in
  skipn (Z.to_nat start) l.

(** [list(_RECENT_REJECTED)[-limit:][::-1]] *)
Definition get_recent_rejected (limit : Z) (mem : Memory)
  : list RejectedEntry :=
  rev (slice_from (- limit) (_RECENT_REJECTED mem)).

End Recent.

(** *** Properties of the recent lists *)

Module RecentProps.
Import Recent.

(** The last [n] elements. *)
Definition keep_last {A : Type} (n : nat) (l : list A) : list A :=
  skipn (List.length l - n) l.

Lemma keep_last_length {A : Type} (n : nat) (l : list A) :
  (List.length (keep_last n l) <= n)%nat.
Proof. unfold keep_last. rewrite length_skipn. lia. Qed.

Lemma keep_last_short {A : Type} (n : nat) (l : list A) :
  (List.length l <= n)%nat -> keep_last n l = l.
Proof.
  intros Hl. unfold keep_last.
  replace (List.length l - n)%nat with 0%nat by lia. reflexivity.
Qed.

Lemma keep_last_app {A : Type} (n : nat) (a b : list A) :
  keep_last n (keep_last n a ++ b) = keep_last n (a ++ b).
Proof.
  unfold keep_last.
  destruct (Nat.le_gt_cases (List.length a) n) as [Hle | Hgt].
  - replace (List.length a - n)%nat with 0%nat by lia. reflexivity.
  - rewrite !length_app, length_skipn.
    rewrite (skipn_app (List.length a + List.length b - n)).
    rewrite (skipn_app _ (skipn _ a)), length_skipn, skipn_skipn.
    f_equal; f_equal; lia.
Qed.

Lemma push_bounded_keep_last {A : Type} (n : nat) (l : list A) (x : A) :
  (List.length l <= n)%nat ->
  push_bounded (Z.of_nat n) l x = keep_last n (l ++ [x]).
Proof.
  intros Hl. unfold push_bounded, keep_last. cbv zeta.
  rewrite length_app. cbn [List.length].
  destruct (Z.ltb_spec (Z.of_nat n) (Z.of_nat (List.length l + 1))).
  - replace (List.length l + 1 - n)%nat with 1%nat by lia.
    now destruct (l ++ [x])%list.
  - replace (List.length l + 1 - n)%nat with 0%nat by lia. reflexivity.
Qed.

(** The entries the loop over [errors] appends. *)
Fixpoint entries (tick : nat -> datetime) (k : nat)
  (errors : list Ingest.IngestError) : list RejectedEntry :=
  match errors with
  | [] => []
  | err :: rest =>
      mkRejectedEntry (stamp (tick k)) (Ingest.error err)
        (Z.of_nat (Ingest.index err))
      :: entries tick (S k) rest
  end.

Lemma record_rejected_keep_last (tick : nat -> datetime)
  (errors : list Ingest.IngestError) (k : nat) (buf : list RejectedEntry) :
  (List.length buf <= 100)%nat ->
  record_rejected tick k errors buf
  = keep_last 100 (buf ++ entries tick k errors).
Proof.
  revert k buf. induction errors as [|err rest IH]; intros k buf Hl; cbn.
  - rewrite app_nil_r. symmetry. now apply keep_last_short.
  - change _RECENT_REJECTED_MAX with (Z.of_nat 100).
    rewrite push_bounded_keep_last by exact Hl.
    rewrite IH by apply keep_last_length.
    rewrite keep_last_app, <- app_assoc. reflexivity.
Qed.

(** X4. The two lists are bounded: when they hold at most 100 rejections
    and 50 batches, after [process_logs] they hold the newest 100 of the old
    rejections followed by one entry for each error of the batch, in order,
    and the newest 50 of the old batches followed by the tally of this
    one. *)
Theorem process_logs_recent_bounded `{PyLib} (settings : Settings)
  (clock : nat -> datetime) (faults : nat -> Ingest.fault)
  (tick : nat -> datetime) (raw_logs : list pyval)
  (db : Db.Database) (mem : Memory) :
  (List.length (_RECENT_REJECTED mem) <= 100)%nat ->
  (List.length (_RECENT_INGESTS mem) <= 50)%nat ->
  let '((accepted, rejected, errors), _, mem') :=
    Recent.process_logs settings clock faults tick raw_logs db mem in
  _RECENT_REJECTED mem'
  = keep_last 100 (_RECENT_REJECTED mem ++ entries tick 0 errors)
  /\ _RECENT_INGESTS mem'
     = keep_last 50
         (_RECENT_INGESTS mem
          ++ [mkIngestEntry accepted rejected
                (stamp (tick (List.length errors)))])
  /\ (List.length (_RECENT_REJECTED mem') <= 100)%nat
  /\ (List.length (_RECENT_INGESTS mem') <= 50)%nat.
Proof.
  intros Hr Hi. unfold Recent.process_logs.
  destruct (Ingest.process_logs settings clock faults raw_logs db)
    as [[[accepted rejected] errors] db'].
  unfold record_batch. cbn [_RECENT_REJECTED _RECENT_INGESTS].
  rewrite record_rejected_keep_last by exact Hr.
  change _RECENT_MAX with (Z.of_nat 50).
  rewrite push_bounded_keep_last by exact Hi.
  repeat split; apply keep_last_length.
Qed.

Definition empty_memory : Memory := mkMemory [] [].

Lemma process_logs_recent_bounded_witness :
  let '((accepted, rejected, errors), _, mem') :=
    @Recent.process_logs plain_lib default_settings
      (fun _ => NormalizeProps.noon) IngestProps.sample_faults
      (fun _ => NormalizeProps.noon) IngestProps.sample_batch
      IngestProps.empty_db empty_memory in
  _RECENT_REJECTED mem'
  = keep_last 100
      (_RECENT_REJECTED empty_memory
       ++ entries (fun _ => NormalizeProps.noon) 0 errors)
  /\ _RECENT_INGESTS mem'
     = keep_last 50
         (_RECENT_INGESTS empty_memory
          ++ [mkIngestEntry accepted rejected
                (stamp (NormalizeProps.noon))])
  /\ (List.length (_RECENT_REJECTED mem') <= 100)%nat
  /\ (List.length (_RECENT_INGESTS mem') <= 50)%nat.
Proof.
  apply (@process_logs_recent_bounded plain_lib default_settings
           (fun _ => NormalizeProps.noon) IngestProps.sample_faults
           (fun _ => NormalizeProps.noon) IngestProps.sample_batch
           IngestProps.empty_db empty_memory); cbn; lia.
Defined.

(** X5. [get_recent_rejected(limit)] returns the newest [limit] entries,
    newest first, for a positive [limit]; for [limit = 0] the slice
    [[-0:]] is the whole list, and all entries are returned; a negative
    [limit] drops the oldest [-limit]. *)
Theorem get_recent_rejected_slice (limit : Z) (mem : Memory) :
  get_recent_rejected limit mem
  = if 0 <? limit then firstn (Z.to_nat limit) (rev (_RECENT_REJECTED mem))
    else if limit =? 0 then rev (_RECENT_REJECTED mem)
    else rev (skipn (Z.to_nat (- limit)) (_RECENT_REJECTED mem)).
Proof.
  unfold get_recent_rejected, slice_from. cbv zeta.
  set (buf := _RECENT_REJECTED mem).
  destruct (Z.ltb_spec 0 limit) as [Hpos | Hle].
  - destruct (Z.ltb_spec (- limit) 0); [|lia].
    rewrite firstn_rev. f_equal. f_equal. lia.
  - destruct (Z.eqb_spec limit 0) as [-> | Hne].
    + cbn [Z.opp Z.ltb Z.compare]. rewrite Z.min_l by lia. reflexivity.
    + destruct (Z.ltb_spec (- limit) 0); [lia|].
      destruct (Z.le_gt_cases (- limit) (Z.of_nat (List.length buf))).
      * rewrite Z.min_l by lia. reflexivity.
      * rewrite Z.min_r by lia. rewrite Nat2Z.id.
        rewrite !skipn_all2; [reflexivity | lia | lia].
Qed.

End RecentProps.

(** *** Properties of the dashboard reads and of the unlimited group query *)

Module StatsProps.
Import Db Sql Group SqlProps GroupProps Stats.

(** On keys that increase along the list, [ORDER BY key DESC] reverses. *)
Lemma order_desc_increasing {A : Type} (key : A -> Z) (l : list A) :
  StronglySorted (fun a b => key a < key b) l ->
  order_desc (fun a b => key a <? key b) l = rev l.
Proof.
  unfold order_desc.
  assert (G : forall acc,
             (forall a x, In a acc -> In x l -> key a < key x) ->
             StronglySorted (fun a b => key a < key b) l ->
             fold_left (fun acc x => insert_desc (fun a b => key a <? key b) x acc)
               l acc
             = (rev l ++ acc)%list).
  { induction l as [|x l IH]; intros acc Hacc Hs; cbn; [reflexivity|].
    inversion Hs as [|? ? Hs' Hx]; subst.
    assert (Hins : insert_desc (fun a b => key a <? key b) x acc = x :: acc).
    { destruct acc as [|y acc]; cbn; [reflexivity|].
      destruct (Z.ltb_spec (key y) (key x)); [reflexivity|].
      specialize (Hacc y x (or_introl eq_refl) (or_introl eq_refl)). lia. }
    rewrite Hins, IH; [now rewrite <- app_assoc | | exact Hs'].
    rewrite Forall_forall in Hx.
    intros a z [<- | Ha] Hz; [now apply Hx|].
    apply Hacc; [exact Ha | now right]. }
  intros Hs. rewrite G; [now rewrite app_nil_r | intros ? ? [] | exact Hs].
Qed.

(** X6. On a table whose identifiers increase, [get_recent_logs(limit)]
    with [0 <= limit] returns the last [limit] rows of the table, the newest
    first. *)
Theorem get_recent_logs_newest_first (limit : Z) (db : Database) :
  StoreProps.ids_increasing db ->
  0 <= limit < 2 ^ 63 ->
  get_recent_logs limit db
  = (Ok (List.map to_recent (firstn (Z.to_nat limit) (rev (logs db)))),
     init_db db).
Proof.
  intros (Hs & _) Hl. unfold get_recent_logs, get_connection, close.
  cbn [database]. change (logs (init_db db)) with (logs db).
  unfold bind_int, fits_int64.
  destruct (Z.leb_spec (- 2 ^ 63) limit); [|lia].
  destruct (Z.ltb_spec limit (2 ^ 63)); [|lia].
  cbn [andb bind]. rewrite (order_desc_increasing row_id) by exact Hs.
  unfold Sql.limit. destruct (Z.ltb_spec limit 0); [lia | reflexivity].
Qed.

Lemma sample_db_ids : StoreProps.ids_increasing sample_db.
Proof.
  split.
  - repeat constructor; cbn; lia.
  - repeat constructor; cbn; lia.
Qed.

Lemma get_recent_logs_newest_first_witness :
  get_recent_logs 2 sample_db
  = (Ok (List.map to_recent (firstn (Z.to_nat 2) (rev (logs sample_db)))),
     init_db sample_db).
Proof.
  apply (get_recent_logs_newest_first 2 sample_db sample_db_ids). lia.
Defined.

(** The sizes of the groups of a table add up to the size of the table. *)
Definition total (l : list Z) : Z := fold_right Z.add 0 l.

Lemma total_perm (a b : list Z) : Permutation a b -> total a = total b.
Proof.
  unfold total. induction 1; cbn; lia.
Qed.

Lemma members_other (g g' : string) (rows : list Row) :
  g <> g' ->
  members g' (filter (fun r => negb (String.eqb (row_group_id r) g)) rows)
  = members g' rows.
Proof.
  intros Hne. unfold members. induction rows as [|r rows IH]; cbn;
    [reflexivity|].
  destruct (String.eqb_spec (row_group_id r) g) as [E | E]; cbn.
  - rewrite IH. destruct (String.eqb_spec (row_group_id r) g'); [congruence|].
    reflexivity.
  - destruct (String.eqb (row_group_id r) g'); now rewrite IH.
Qed.

Lemma split_length (g : string) (rows : list Row) :
  (List.length rows
   = List.length (members g rows)
     + List.length
         (filter (fun r => negb (String.eqb (row_group_id r) g)) rows))%nat.
Proof.
  unfold members. induction rows as [|r rows IH]; cbn; [reflexivity|].
  destruct (String.eqb (row_group_id r) g); cbn; lia.
Qed.

Lemma group_sizes_total (keys : list string) :
  NoDup keys ->
  forall rows,
    (forall r, In r rows -> In (row_group_id r) keys) ->
    total (List.map (fun g => count_rows (members g rows)) keys)
    = count_rows rows.
Proof.
  induction 1 as [|g keys Hg Hnd IH]; intros rows Hin; cbn [List.map].
  - destruct rows as [|r rows]; [reflexivity|].
    destruct (Hin r (or_introl eq_refl)).
  - change (total (?x :: ?l)) with (x + total l).
    set (others := filter (fun r => negb (String.eqb (row_group_id r) g)) rows).
    assert (Hrest : List.map (fun g' => count_rows (members g' rows)) keys
                    = List.map (fun g' => count_rows (members g' others)) keys).
    { apply map_ext_in. intros g' Hg'. unfold others.
      rewrite members_other; [reflexivity|]. intros ->. contradiction. }
    rewrite Hrest, (IH others).
    + unfold count_rows, others. rewrite (split_length g rows). lia.
    + intros r Hr. unfold others in Hr. apply filter_In in Hr as (Hr & Hne).
      destruct (Hin r Hr) as [E | Hk]; [|exact Hk].
      cbn in Hne. rewrite <- E, String.eqb_refl in Hne. discriminate.
Qed.

(** Every key of the grouping yields a row of the SELECT. *)
Lemma grouped_columns (table filtered : list Row) :
  let grouped :=
    somes (List.map (select_group table filtered) (group_keys filtered)) in
  List.map col_group_id grouped = group_keys filtered
  /\ List.map col_cnt grouped
     = List.map (fun g => count_rows (members g filtered))
         (group_keys filtered).
Proof.
  cbv zeta.
  assert (G : forall keys,
             (forall k, In k keys -> members k filtered <> []) ->
             List.map col_group_id
               (somes (List.map (select_group table filtered) keys)) = keys
             /\ List.map col_cnt
                  (somes (List.map (select_group table filtered) keys))
                = List.map (fun g => count_rows (members g filtered)) keys).
  { induction keys as [|k keys IH]; intros Hk; cbn; [now split|].
    destruct (select_group table filtered k) as [g|] eqn:E.
    - apply select_group_spec in E as (Eg & Ec & _).
      destruct IH as (IH1 & IH2); [intros; apply Hk; now right|].
      cbn. now rewrite Eg, Ec, IH1, IH2.
    - exfalso. unfold select_group in E.
      specialize (Hk k (or_introl eq_refl)).
      now destruct (members k filtered). }
  apply G. intros k Hk. now apply SpikesProps.group_keys_In.
Qed.

(** The rows of the SELECT when the limit cuts nothing. *)
Lemma select_groups_all (table : list Row)
  (service level since : option string) (n : Z) :
  let filtered := filter (where_clause service level since) table in
  n < 0 \/ Z.of_nat (List.length (group_keys filtered)) <= n ->
  let rows := select_groups table service level since n in
  Permutation (List.map col_group_id rows) (group_keys filtered)
  /\ total (List.map col_cnt rows) = count_rows filtered.
Proof.
  cbv zeta. intros Hn. unfold select_groups.
  set (filtered := filter (where_clause service level since) table) in *.
  set (grouped := somes _).
  set (sorted := order_desc _ grouped).
  destruct (grouped_columns table filtered) as (Hids & Hcnts).
  fold grouped in Hids, Hcnts.
  assert (Hperm : Permutation sorted grouped) by apply order_desc_perm.
  assert (Hlim : Sql.limit n sorted = sorted).
  { unfold Sql.limit. destruct (Z.ltb_spec n 0); [reflexivity|].
    apply firstn_all2.
    rewrite (Permutation_length Hperm), <- (length_map col_group_id), Hids.
    lia. }
  rewrite Hlim. split.
  - rewrite <- Hids. now apply Permutation_map.
  - rewrite (total_perm _ _ (Permutation_map col_cnt Hperm)), Hcnts.
    apply group_sizes_total; [apply NoDup_nodup|].
    intros r Hr. unfold group_keys. apply nodup_In. now apply in_map.
Qed.

(** [get_groups] on a store of ISO timestamps returns the rows of the
    SELECT, item by item. *)
Lemma get_groups_rows `{PyLib} (service level : option string) (limit : Z)
  (since : option string) (db : Database) :
  - 2 ^ 63 <= limit < 2 ^ 63 ->
  (forall r, In r (logs db) -> fromisoformat (row_timestamp r) <> None) ->
  exists resp,
    get_groups service level limit since db = (Ok resp, init_db db)
    /\ List.map group_id (groups resp)
       = List.map col_group_id
           (select_groups (logs db) service level since limit)
    /\ List.map count (groups resp)
       = List.map col_cnt (select_groups (logs db) service level since limit).
Proof.
  intros Hlimit Hiso.
  unfold get_groups, get_connection, close. cbn [database].
  change (logs (init_db db)) with (logs db).
  assert (Hfit : bind_int limit = Ok limit).
  { unfold bind_int, fits_int64.
    destruct (Z.leb_spec (- 2 ^ 63) limit); [|lia].
    destruct (Z.ltb_spec limit (2 ^ 63)); [reflexivity | lia]. }
  rewrite Hfit. cbn [bind].
  destruct (select_groups_spec (logs db) service level since limit)
    as (_ & _ & _ & Hsel).
  set (rows := select_groups (logs db) service level since limit) in *.
  assert (Hparse : forall row, In row rows -> exists item, to_item row = Ok item).
  { intros row Hrow. apply Hsel, select_group_spec in Hrow.
    destruct Hrow as (_ & _ & _ & (r1 & Hr1 & E1 & _) & (r2 & Hr2 & E2 & _)).
    apply members_In in Hr1 as [Hr1 _]. apply filter_In in Hr1 as [Hr1 _].
    apply members_In in Hr2 as [Hr2 _]. apply filter_In in Hr2 as [Hr2 _].
    unfold to_item. rewrite <- E1, <- E2.
    destruct (fromisoformat (row_timestamp r1)) eqn:P1;
      [|now apply Hiso in Hr1].
    destruct (fromisoformat (row_timestamp r2)) eqn:P2;
      [|now apply Hiso in Hr2].
    eauto. }
  destruct (map_result_ok to_item rows Hparse) as (items & Hitems & HF).
  rewrite Hitems. cbn [bind].
  eexists. split; [reflexivity|]. cbn [groups].
  split.
  - clear -HF. induction HF as [|row item rows items Hi _ IH]; cbn;
      [reflexivity|].
    apply to_item_inv in Hi as (-> & _). now rewrite IH.
  - clear -HF. induction HF as [|row item rows items Hi _ IH]; cbn;
      [reflexivity|].
    apply to_item_inv in Hi as (_ & -> & _). now rewrite IH.
Qed.

(** X7. When the limit cuts nothing (it is negative, or at least the number
    of groups), [get_groups] on a store of ISO timestamps returns every group
    that has an entry matching the filters, and the counts of the groups add
    up to the number of matching entries. *)
Theorem get_groups_unlimited `{PyLib} (service level : option string)
  (limit : Z) (since : option string) (db : Database) :
  - 2 ^ 63 <= limit < 2 ^ 63 ->
  limit < 0
  \/ Z.of_nat
       (List.length
          (group_keys (filter (where_clause service level since) (logs db))))
     <= limit ->
  (forall r, In r (logs db) -> fromisoformat (row_timestamp r) <> None) ->
  exists resp,
    get_groups service level limit since db = (Ok resp, init_db db)
    /\ (forall gid,
          In gid (List.map group_id (groups resp))
          <-> matching service level since gid (logs db) <> [])
    /\ total (List.map count (groups resp))
       = count_rows (filter (where_clause service level since) (logs db)).
Proof.
  intros Hfit Hn Hiso.
  destruct (get_groups_rows service level limit since db Hfit Hiso)
    as (resp & Hres & Hids & Hcnts).
  destruct (select_groups_all (logs db) service level since limit Hn)
    as (Hperm & Htotal).
  exists resp. split; [exact Hres|]. split.
  - intros gid. rewrite Hids. unfold matching.
    rewrite <- SpikesProps.group_keys_In. split; intros Hin.
    + now apply (Permutation_in _ Hperm).
    + now apply (Permutation_in _ (Permutation_sym Hperm)).
  - now rewrite Hcnts.
Qed.

Lemma get_groups_unlimited_witness :
  exists resp,
    @get_groups iso_lib None (Some "INFO") (-1) None sample_db
    = (Ok resp, init_db sample_db)
    /\ total (List.map count (groups resp)) = 2.
Proof.
  destruct (@get_groups_unlimited iso_lib None (Some "INFO") (-1) None
              sample_db) as (resp & H1 & _ & H3).
  - lia.
  - left. lia.
  - exact sample_db_iso.
  - exists resp. split; [exact H1 | exact H3].
Defined.

Lemma filter_all {A : Type} (p : A -> bool) (l : list A) :
  (forall a, p a = true) -> filter p l = l.
Proof.
  intros Hp. induction l as [|a l IH]; cbn; [reflexivity|].
  now rewrite Hp, IH.
Qed.

(** X8. The dashboard totals agree with the group query: on a store of ISO
    timestamps, [get_stats] reports as [total_groups] the number of groups
    that [get_groups] returns without filters and without limit, and as
    [total_logs] the sum of their counts. *)
Theorem get_stats_matches_groups `{PyLib} (db : Database) :
  (forall r, In r (logs db) -> fromisoformat (row_timestamp r) <> None) ->
  exists resp,
    get_groups None None (-1) None db = (Ok resp, init_db db)
    /\ total_groups (fst (get_stats db))
       = Z.of_nat (List.length (groups resp))
    /\ total_logs (fst (get_stats db)) = total (List.map count (groups resp)).
Proof.
  intros Hiso.
  assert (Hfit : - 2 ^ 63 <= -1 < 2 ^ 63) by lia.
  destruct (get_groups_rows None None (-1) None db Hfit Hiso)
    as (resp & Hres & Hids & Hcnts).
  destruct (select_groups_all (logs db) None None None (-1)) as (Hperm & Htotal);
    [left; lia|].
  rewrite (filter_all (where_clause None None None) (logs db)) in Hperm, Htotal
    by reflexivity.
  exists resp. split; [exact Hres|].
  unfold get_stats, get_connection. cbn [fst database total_groups total_logs].
  change (logs (init_db db)) with (logs db). split.
  - rewrite <- (length_map group_id), Hids.
    now rewrite (Permutation_length Hperm).
  - now rewrite Hcnts.
Qed.

Lemma get_stats_matches_groups_witness :
  exists resp,
    @get_groups iso_lib None None (-1) None sample_db
    = (Ok resp, init_db sample_db)
    /\ total_groups (fst (get_stats sample_db))
       = Z.of_nat (List.length (groups resp)).
Proof.
  destruct (@get_stats_matches_groups iso_lib sample_db sample_db_iso)
    as (resp & H1 & H2 & _).
  exists resp. split; [exact H1 | exact H2].
Defined.

End StatsProps.

(** *** Normalisation followed by validation, and the resolution of aliases *)

Module PipelineProps.
Import Normalize Validate.

(** X9. An entry that [normalize] returns never fails the message rule of
    [validate_log] (its message is never empty): it is valid exactly when its
    level is whitelisted and its payload is within the ceiling. *)
Theorem normalized_log_validation `{PyLib} (settings : Settings)
  (now : datetime) (raw : list (string * pyval)) (c : CanonicalLog) :
  normalize now raw = Ok c ->
  ~ In "Message is required" (snd (validate_log settings (ACanonical c)))
  /\ (fst (validate_log settings (ACanonical c)) = true
      <-> Str.mem (level c) allowed_levels = true
          /\ canonical_payload_size c <= max_log_size_bytes settings).
Proof.
  intros Hn.
  destruct (NormalizeProps.normalize_fields_defined now raw) as (_ & Hf).
  destruct (Hf c Hn) as (_ & Hmsg & _).
  cbn [validate_log]. split.
  - rewrite ValidateProps.check_rules_errors, Hmsg. cbn [negb andb].
    rewrite app_nil_r, in_app_iff. intros [F | F].
    + destruct (Str.mem (level c) allowed_levels); [contradiction|].
      destruct F as [F | []].
      now apply ValidateProps.level_error_not_message in F.
    + destruct (canonical_payload_size c >? max_log_size_bytes settings);
        [|contradiction].
      destruct F as [F | []].
      now apply ValidateProps.size_error_not_message in F.
  - rewrite ValidateProps.check_rules_valid, Hmsg. cbn [negb andb]. tauto.
Qed.

Lemma normalized_log_validation_witness :
  exists c,
    @normalize plain_lib NormalizeProps.noon
      [("lvl", VStr " error "); ("service_name", VStr "auth-service")] = Ok c
    /\ fst (@validate_log plain_lib default_settings (ACanonical c)) = true.
Proof.
  eexists. split; [reflexivity|].
  apply (@normalized_log_validation plain_lib default_settings
           NormalizeProps.noon
           [("lvl", VStr " error "); ("service_name", VStr "auth-service")]).
  - reflexivity.
  - split; [reflexivity | vm_compute; discriminate].
Defined.

(** A key of the raw event matches an alias list when its lower-cased form
    is the lower-cased form of one of the aliases. *)
Definition key_matches (aliases : list string) (k : string) : bool :=
  Str.mem (Str.lower k) (List.map Str.lower aliases).

Lemma dict_lookup_set (d : list (string * pyval)) (k k' : string) (v : pyval) :
  dict_lookup (dict_set d k v) k'
  = if String.eqb k k' then Some v else dict_lookup d k'.
Proof.
  induction d as [|[k0 v0] d IH]; cbn.
  - reflexivity.
  - destruct (String.eqb_spec k0 k) as [-> | Hne]; cbn.
    + destruct (String.eqb k k'); reflexivity.
    + rewrite IH. destruct (String.eqb_spec k0 k') as [-> | Hne'].
      * destruct (String.eqb_spec k k'); [congruence | reflexivity].
      * reflexivity.
Qed.

Lemma find_last {A} (p : A -> bool) (l : list A) (x : A) :
  find p (l ++ [x])
  = match find p l with
    | Some y => Some y
    | None => if p x then Some x else None
    end.
Proof.
  induction l as [|y l IH]; cbn; [reflexivity|].
  destruct (p y); [reflexivity | exact IH].
Qed.

(** The value under a lower-cased key is that of the last item whose key
    lower-cases to it. *)
Lemma lower_keys_lookup (raw acc : list (string * pyval)) (x : string) :
  dict_lookup
    (fold_left (fun acc kv => dict_set acc (Str.lower (fst kv)) (snd kv))
       raw acc) x
  = match find (fun kv => String.eqb (Str.lower (fst kv)) x) (rev raw) with
    | Some kv => Some (snd kv)
    | None => dict_lookup acc x
    end.
Proof.
  revert acc. induction raw as [|kv raw IH]; intros acc; cbn; [reflexivity|].
  rewrite IH, find_last.
  destruct (find _ (rev raw)); [reflexivity|].
  cbn. rewrite dict_lookup_set.
  destruct (String.eqb (Str.lower (fst kv)) x); reflexivity.
Qed.

Lemma lower_keys_sound (raw : list (string * pyval)) (x : string) (v : pyval) :
  dict_lookup (lower_keys raw) x = Some v ->
  exists k, In (k, v) raw /\ Str.lower k = x.
Proof.
  unfold lower_keys. rewrite lower_keys_lookup.
  destruct (find _ (rev raw)) as [[k v']|] eqn:E; [|discriminate].
  intros [= <-]. apply find_some in E as (Hin & Hk).
  exists k. split; [now apply in_rev | now apply String.eqb_eq in Hk].
Qed.

Lemma NoDup_lower_unique (raw : list (string * pyval)) (k k' : string)
  (v v' : pyval) :
  NoDup (List.map (fun kv => Str.lower (fst kv)) raw) ->
  In (k, v) raw -> In (k', v') raw -> Str.lower k = Str.lower k' ->
  (k, v) = (k', v').
Proof.
  induction raw as [|kv raw IH]; cbn; intros Hnd H1 H2 E; [destruct H1|].
  inversion Hnd as [|? ? Hkv Hnd']; subst.
  destruct H1 as [-> | H1], H2 as [E2 | H2].
  - now symmetry.
  - exfalso. apply Hkv. cbn. rewrite E.
    now apply (in_map (fun kv => Str.lower (fst kv)) raw (k', v')).
  - exfalso. apply Hkv. subst kv. cbn. rewrite <- E.
    now apply (in_map (fun kv => Str.lower (fst kv)) raw (k, v)).
  - now apply IH.
Qed.

Lemma lower_keys_complete (raw : list (string * pyval)) (k : string)
  (v : pyval) :
  NoDup (List.map (fun kv => Str.lower (fst kv)) raw) ->
  In (k, v) raw -> dict_lookup (lower_keys raw) (Str.lower k) = Some v.
Proof.
  intros Hnd Hin.
  destruct (dict_lookup (lower_keys raw) (Str.lower k)) as [v'|] eqn:E.
  - apply lower_keys_sound in E as (k' & Hin' & Hk').
    pose proof (NoDup_lower_unique raw k' k v' v Hnd Hin' Hin Hk').
    congruence.
  - exfalso. unfold lower_keys in E. rewrite lower_keys_lookup in E.
    destruct (find _ (rev raw)) eqn:Ef; [discriminate|].
    assert (Hr : In (k, v) (rev raw)) by now apply in_rev in Hin.
    pose proof (find_none _ _ Ef (k, v) Hr) as F. cbn in F.
    rewrite String.eqb_refl in F. discriminate.
Qed.

Lemma key_matches_alias (aliases : list string) (k : string) :
  key_matches aliases k = true
  <-> exists a, In a aliases /\ Str.lower a = Str.lower k.
Proof.
  unfold key_matches, Str.mem. rewrite existsb_exists. split.
  - intros (x & Hx & E). apply in_map_iff in Hx as (a & <- & Ha).
    apply String.eqb_eq in E. now exists a.
  - intros (a & Ha & E). exists (Str.lower a). split; [now apply in_map|].
    apply String.eqb_eq. now symmetry.
Qed.

Lemma first_present_none (dl : list (string * pyval)) (keys : list string) :
  (forall k, In k keys -> dict_lookup dl (Str.lower k) = None) ->
  first_present dl keys = VNone.
Proof.
  induction keys as [|k keys IH]; intros Hk; cbn; [reflexivity|].
  rewrite (Hk k (or_introl eq_refl)). apply IH. intros; apply Hk. now right.
Qed.

Lemma find_value_none `{PyLib} (raw : list (string * pyval))
  (aliases : list string) :
  (forall k v, In (k, v) raw -> key_matches aliases k = false) ->
  _find_value raw aliases = VNone.
Proof.
  intros Hno. unfold _find_value. apply first_present_none.
  intros a Ha. apply (Permutation_in _ (set_order_perm _)) in Ha.
  destruct (dict_lookup (lower_keys raw) (Str.lower a)) as [v|] eqn:E;
    [|reflexivity].
  apply lower_keys_sound in E as (k & Hin & Hk).
  specialize (Hno k v Hin).
  assert (key_matches aliases k = true)
    by (apply key_matches_alias; now exists a).
  congruence.
Qed.

Lemma find_value_of_key `{PyLib} (raw : list (string * pyval))
  (aliases : list string) (k : string) (v : pyval) :
  NoDup (List.map (fun kv => Str.lower (fst kv)) raw) ->
  In (k, v) raw ->
  key_matches aliases k = true ->
  (forall k' v', In (k', v') raw -> key_matches aliases k' = true -> k' = k) ->
  _find_value raw aliases = v.
Proof.
  intros Hnd Hin Hk Honly. unfold _find_value.
  apply NormalizeProps.first_present_unique.
  - intros a Ha. apply (Permutation_in _ (set_order_perm _)) in Ha.
    destruct (dict_lookup (lower_keys raw) (Str.lower a)) as [v'|] eqn:E;
      [left | now right].
    apply lower_keys_sound in E as (k' & Hin' & Hk').
    assert (Hm : key_matches aliases k' = true)
      by (apply key_matches_alias; now exists a).
    rewrite (Honly k' v' Hin' Hm) in Hin'.
    pose proof (NoDup_lower_unique raw k k v' v Hnd Hin' Hin eq_refl).
    congruence.
  - apply key_matches_alias in Hk as (a & Ha & E).
    exists a. split.
    + now apply (Permutation_in _ (Permutation_sym (set_order_perm _))).
    + rewrite E. now apply lower_keys_complete.
Qed.

(** X10. A field none of whose aliases is a key of the raw event (whatever
    the case of the letters) is not found: [_find_value] returns [None]. *)
Theorem find_value_absent `{PyLib} (raw : list (string * pyval))
  (aliases : list string) :
  (forall k v, In (k, v) raw -> key_matches aliases k = false) ->
  _find_value raw aliases = VNone.
Proof. exact (find_value_none raw aliases). Qed.

Lemma find_value_absent_witness :
  @_find_value plain_lib [("Host", VStr "db-1"); ("msg", VStr "x")]
    LEVEL_ALIASES = VNone.
Proof.
  apply (@find_value_absent plain_lib).
  intros k v [[= <- <-] | [[= <- <-] | []]]; reflexivity.
Defined.

(** X11. When one key only of the raw event matches the aliases of a field,
    in whatever case it is written, [_find_value] returns its value, in
    whatever order the alias set is iterated. *)
Theorem find_value_single `{PyLib} (raw : list (string * pyval))
  (aliases : list string) (k : string) (v : pyval) :
  NoDup (List.map (fun kv => Str.lower (fst kv)) raw) ->
  In (k, v) raw ->
  key_matches aliases k = true ->
  (forall k' v', In (k', v') raw -> key_matches aliases k' = true -> k' = k) ->
  _find_value raw aliases = v.
Proof. exact (find_value_of_key raw aliases k v). Qed.

Lemma find_value_single_witness :
  @_find_value plain_lib [("LogLevel", VStr "warn"); ("msg", VStr "x")]
    LEVEL_ALIASES = VStr "warn".
Proof.
  apply (@find_value_single plain_lib
           [("LogLevel", VStr "warn"); ("msg", VStr "x")] LEVEL_ALIASES
           "LogLevel").
  - repeat constructor; cbn; intuition discriminate.
  - now left.
  - reflexivity.
  - intros k' v' [[= <- <-] | [[= <- <-] | []]]; [reflexivity | discriminate].
Defined.

End PipelineProps.

(** *** Integer timestamps *)

Module TimestampProps.
Import Datetime Normalize.

(** Within the range of [datetime] the year that [civil_from_days] computes
    stays far inside a C [int]. *)
Lemma year_of_bounds (m : Z) :
  0 <= m < end_days * us_per_day -> -1 <= year_of m <= 10001.
Proof.
  intros Hm. unfold year_of, civil_from_days.
  assert (Hd : 0 <= m / us_per_day < end_days).
  { unfold us_per_day, us_per_second, end_days in *.
    split; [apply Z.div_pos; lia | apply Z.div_lt_upper_bound; lia]. }
  generalize dependent (m / us_per_day). intros days Hd.
  unfold end_days in Hd. cbv zeta.
  destruct (_ <? 10); destruct (_ <=? 2); cbv beta iota;
    Z.div_mod_to_equations; lia.
Qed.

(** X12. An integer timestamp up to 10^12 is read as seconds since the
    epoch: [_coerce_timestamp] returns that instant when it lies in the
    years 1 to 9999, and raises otherwise. *)
Theorem coerce_timestamp_epoch_seconds `{PyLib} (now : datetime) (z : Z) :
  z <= 10 ^ 12 ->
  (-62135596800 <= z < 253402300800 ->
   _coerce_timestamp now (VInt z)
   = Ok (mkDatetime ((62135596800 + z) * 1000000) None))
  /\ (~ (-62135596800 <= z < 253402300800) ->
      exists e, _coerce_timestamp now (VInt z) = Raise e).
Proof.
  intros Hz. cbn [_coerce_timestamp].
  change (10 ^ 12) with 1000000000000 in *.
  destruct (Z.gtb_spec z 1000000000000) as [Hgt | _]; [lia|].
  unfold utcfromtimestamp_int, from_timet_and_us.
  split.
  - intros Hr.
    replace ((- 2 ^ 63 <=? z) && (z <? 2 ^ 63)) with true by lia.
    cbn [negb].
    set (m := (epoch_days * 86400 + z) * us_per_second + 0).
    assert (Hm : 0 <= m < end_days * us_per_day)
      by (unfold m, epoch_days, end_days, us_per_day, us_per_second; lia).
    pose proof (year_of_bounds m Hm) as Hy.
    replace ((- 2 ^ 31 <=? year_of m - 1900) && (year_of m - 1900 <? 2 ^ 31))
      with true by lia.
    replace (in_range m) with true by (unfold in_range; lia).
    cbn [negb]. f_equal. f_equal.
    unfold m, epoch_days, us_per_second. lia.
  - intros Hr.
    destruct (negb _); [eauto|].
    destruct (negb _); [eauto|].
    replace (in_range _) with false; [cbn; eauto|].
    unfold in_range, epoch_days, end_days, us_per_day, us_per_second. lia.
Qed.

Lemma coerce_timestamp_epoch_seconds_witness :
  @_coerce_timestamp plain_lib NormalizeProps.noon (VInt 1700000000)
  = Ok (mkDatetime ((62135596800 + 1700000000) * 1000000) None)
  /\ exists e,
       @_coerce_timestamp plain_lib NormalizeProps.noon (VInt 300000000000)
       = Raise e.
Proof.
  split.
  - apply (@coerce_timestamp_epoch_seconds plain_lib NormalizeProps.noon
             1700000000); lia.
  - apply (@coerce_timestamp_epoch_seconds plain_lib NormalizeProps.noon
             300000000000); lia.
Defined.

End TimestampProps.

(** *** Trimming, case, and the stability of the coercions *)

Module StrProps.
Import Str.

Lemma rstrip_cons (c : ascii) (s : string) :
  rstrip (String c s)
  = match rstrip s with
    | EmptyString => if is_space c then EmptyString else String c EmptyString
    | r => String c r
    end.
Proof. reflexivity. Qed.

Lemma rstrip_idem (s : string) : rstrip (rstrip s) = rstrip s.
Proof.
  induction s as [|c s IH]; [reflexivity|].
  rewrite rstrip_cons.
  destruct (rstrip s) as [|c' r] eqn:E.
  - destruct (is_space c) eqn:Ec; [reflexivity|].
    rewrite rstrip_cons. cbn. now rewrite Ec.
  - rewrite rstrip_cons, IH. reflexivity.
Qed.

(** No leading space: the text is empty or starts with another character. *)
Definition starts_clean (s : string) : bool :=
  match s with
  | EmptyString => true
  | String c _ => negb (is_space c)
  end.

Lemma lstrip_clean (s : string) : starts_clean (lstrip s) = true.
Proof.
  induction s as [|c s IH]; cbn; [reflexivity|].
  destruct (is_space c) eqn:E; [exact IH | cbn; now rewrite E].
Qed.

Lemma lstrip_fixed (s : string) : starts_clean s = true -> lstrip s = s.
Proof.
  destruct s as [|c s]; cbn; [reflexivity|].
  now destruct (is_space c).
Qed.

Lemma rstrip_clean (s : string) :
  starts_clean s = true -> starts_clean (rstrip s) = true.
Proof.
  destruct s as [|c s]; [reflexivity|].
  rewrite rstrip_cons. cbn [starts_clean].
  intros Hc. destruct (rstrip s); [|exact Hc].
  destruct (is_space c) eqn:Ec; [reflexivity | cbn; now rewrite Ec].
Qed.

Lemma strip_idem (s : string) : strip (strip s) = strip s.
Proof.
  unfold strip.
  rewrite (lstrip_fixed (rstrip (lstrip s))).
  - apply rstrip_idem.
  - apply rstrip_clean, lstrip_clean.
Qed.

Lemma upper_char_idem (c : ascii) : upper_char (upper_char c) = upper_char c.
Proof. destruct c as [[] [] [] [] [] [] [] []]; reflexivity. Qed.

Lemma upper_char_space (c : ascii) : is_space (upper_char c) = is_space c.
Proof. destruct c as [[] [] [] [] [] [] [] []]; reflexivity. Qed.

Lemma upper_idem (s : string) : upper (upper s) = upper s.
Proof.
  unfold upper. induction s as [|c s IH]; cbn; [reflexivity|].
  now rewrite upper_char_idem, IH.
Qed.

Lemma lstrip_upper (s : string) : lstrip (upper s) = upper (lstrip s).
Proof.
  induction s as [|c s IH]; [reflexivity|].
  change (upper (String c s)) with (String (upper_char c) (upper s)).
  cbn [lstrip]. rewrite upper_char_space.
  destruct (is_space c); [exact IH | reflexivity].
Qed.

Lemma rstrip_upper (s : string) : rstrip (upper s) = upper (rstrip s).
Proof.
  induction s as [|c s IH]; [reflexivity|].
  change (upper (String c s)) with (String (upper_char c) (upper s)).
  rewrite !rstrip_cons, IH, upper_char_space.
  destruct (rstrip s); [|reflexivity].
  now destruct (is_space c).
Qed.

Lemma strip_upper (s : string) : strip (upper s) = upper (strip s).
Proof. unfold strip. now rewrite lstrip_upper, rstrip_upper. Qed.

End StrProps.

Module CoerceProps.
Import Normalize.

Lemma coerce_level_idem `{PyLib} (v : pyval) :
  _coerce_level (VStr (_coerce_level v)) = _coerce_level v.
Proof.
  assert (Hs : forall t,
    let s := Str.upper (Str.strip t) in
    _coerce_level (VStr (if Str.nonempty s then s else "INFO"))
    = if Str.nonempty s then s else "INFO").
  { intros t s. destruct (Str.nonempty s) eqn:E; [|reflexivity].
    unfold _coerce_level, py_str. unfold s.
    rewrite StrProps.strip_upper, StrProps.strip_idem, StrProps.upper_idem.
    fold s. now rewrite E. }
  destruct v; try exact (Hs _). reflexivity.
Qed.

Lemma or_else_strip_idem (a d : string) :
  Str.strip a = a -> Str.strip d = d ->
  Str.or_else (Str.strip (Str.or_else a d)) d = Str.or_else a d.
Proof.
  intros Ha Hd. unfold Str.or_else.
  destruct (Str.nonempty a) eqn:E.
  - now rewrite Ha, E.
  - rewrite Hd. now destruct (Str.nonempty d).
Qed.

Lemma coerce_string_trimmed `{PyLib} (v : pyval) :
  Str.strip (_coerce_string v) = _coerce_string v.
Proof. destruct v; cbn; try apply StrProps.strip_idem. reflexivity. Qed.

(** X13. The coercions of [normalize] are stable: applied again to the
    level, the message or the service of an entry that [normalize] returned,
    they give the same text back. *)
Theorem normalize_fields_stable `{PyLib} (now : datetime)
  (raw : list (string * pyval)) (c : CanonicalLog) :
  normalize now raw = Ok c ->
  _coerce_level (VStr (level c)) = level c
  /\ Str.or_else (_coerce_string (VStr (message c))) "(no message)" = message c
  /\ Str.or_else (_coerce_string (VStr (service c))) "unknown" = service c.
Proof.
  unfold normalize.
  destruct (_coerce_timestamp now _); cbn [bind]; [|discriminate].
  intros [= <-]. cbn [level message service].
  split; [apply coerce_level_idem|].
  split; apply or_else_strip_idem;
    solve [apply coerce_string_trimmed | reflexivity].
Qed.

Lemma normalize_fields_stable_witness :
  exists c,
    @normalize plain_lib NormalizeProps.noon
      [("lvl", VStr " error "); ("msg", VStr "  disk full ")] = Ok c
    /\ @_coerce_level plain_lib (VStr (level c)) = level c.
Proof.
  eexists. split; [reflexivity|].
  apply (@normalize_fields_stable plain_lib NormalizeProps.noon
           [("lvl", VStr " error "); ("msg", VStr "  disk full ")]).
  reflexivity.
Defined.

End CoerceProps.

Module TemplateProps.
Import Fingerprint FingerprintProps.

(** Some character of [s] satisfies [q]. *)
Fixpoint has (q : ascii -> bool) (s : string) : bool :=
  match s with
  | EmptyString => false
  | String c s' => q c || has q s'
  end.

(** The atom [a] consumes one character, which satisfies [q]. *)
Definition demands (q : ascii -> bool) (a : atom) : Prop :=
  match a with
  | Cls p => forall c, p c = true -> q c = true
  | Chr x => q x = true
  | Star _ | WordB => False
  end.

Lemma match_here_demands (q : ascii -> bool) (pat : list atom) :
  Exists (demands q) pat ->
  forall prev s, has q s = false -> match_here pat prev s = None.
Proof.
  induction pat as [|a pat IH]; intros Hex; [inversion Hex|].
  assert (Hcase : demands q a
                  \/ forall prev s, has q s = false ->
                                    match_here pat prev s = None).
  { inversion Hex; subst; [now left | right; now apply IH]. }
  clear Hex IH.
  destruct a as [p | p | x | ].
  - intros prev [|c s]; cbn; [reflexivity|].
    intros Hq. apply orb_false_elim in Hq as (Hc & Hs).
    destruct (p c) eqn:Ep; [|reflexivity].
    destruct Hcase as [Hd | Hk]; [|now apply Hk].
    cbn in Hd. rewrite (Hd c Ep) in Hc. discriminate.
  - destruct Hcase as [[] | Hk].
    intros prev s. revert prev.
    induction s as [|c s IHs]; intros prev Hq; rewrite match_star_eq.
    + now apply Hk.
    + pose proof Hq as Hq'. cbn in Hq'.
      apply orb_false_elim in Hq' as (_ & Hs).
      destruct (p c); [|now apply Hk].
      rewrite (IHs (Some c) Hs). now apply Hk.
  - intros prev [|c s]; cbn; [reflexivity|].
    intros Hq. apply orb_false_elim in Hq as (Hc & Hs).
    destruct (Ascii.eqb_spec c x) as [-> | Hne]; [|reflexivity].
    destruct Hcase as [Hd | Hk]; [|now apply Hk].
    cbn in Hd. congruence.
  - destruct Hcase as [[] | Hk].
    intros prev s Hq. cbn. destruct (at_boundary prev s); [|reflexivity].
    now apply Hk.
Qed.

Lemma re_sub_demands (q : ascii -> bool) (pat : list atom) (repl s : string) :
  Exists (demands q) pat -> has q s = false -> re_sub pat repl s = s.
Proof.
  intros Hex. unfold re_sub. generalize (String.length s) (@None ascii).
  intros fuel. revert s.
  induction fuel as [|fuel IH]; intros s prev Hq; [reflexivity|].
  destruct s as [|c s]; [reflexivity|].
  cbn [sub_loop]. rewrite (match_here_demands q pat Hex prev _ Hq).
  cbn in Hq. apply orb_false_elim in Hq as (_ & Hs).
  now rewrite IH.
Qed.

(** Outside the ASCII range. *)
Definition non_ascii (c : ascii) : bool := Nat.leb 128 (Str.code c).

(** X14. An ASCII message with no digit, no colon and no hyphen has nothing
    that the fingerprint replaces: its template is the message, trimmed. *)
Theorem template_of_plain_message (m : string) :
  has non_ascii m = false ->
  has Str.is_digit m = false ->
  has (Ascii.eqb ":") m = false ->
  has (Ascii.eqb "-") m = false ->
  _normalize_message_for_fingerprint m = Str.strip m.
Proof.
  intros _ Hd Hc Hh. unfold _normalize_message_for_fingerprint.
  destruct m as [|c m]; [reflexivity|]. cbn [Str.nonempty negb].
  rewrite (re_sub_demands (Ascii.eqb "-") uuid_re); [|
    apply Exists_exists; exists (Chr "-"); split;
      [cbn; tauto | reflexivity] | exact Hh].
  rewrite (re_sub_demands Str.is_digit hex_re); [|
    apply Exists_exists; exists (Chr "0"); split;
      [cbn; tauto | reflexivity] | exact Hd].
  rewrite (re_sub_demands Str.is_digit int_re); [|
    apply Exists_exists; exists (Cls Str.is_digit); split;
      [cbn; tauto | intros ? E; exact E] | exact Hd].
  rewrite (re_sub_demands (Ascii.eqb ":") colon_re); [|
    apply Exists_exists; exists (Chr ":"); split;
      [cbn; tauto | reflexivity] | exact Hc].
  reflexivity.
Qed.

Lemma template_of_plain_message_witness :
  _normalize_message_for_fingerprint "  connection refused by peer "
  = Str.strip "  connection refused by peer ".
Proof.
  apply (template_of_plain_message "  connection refused by peer ");
    reflexivity.
Defined.

(** X15. The template of a message never starts or ends with white space:
    trimming it changes nothing. *)
Theorem template_is_trimmed (m : string) :
  Str.strip (_normalize_message_for_fingerprint m)
  = _normalize_message_for_fingerprint m.
Proof.
  unfold _normalize_message_for_fingerprint.
  destruct (negb (Str.nonempty m)); [reflexivity|].
  apply StrProps.strip_idem.
Qed.

End TemplateProps.

(** *** The server-side generator ([app/generator_service.py]) *)

Module Generator.

Definition SERVICES : list string :=
  ["api-gateway"; "auth-service"; "user-service"; "order-service";
   "payment-service"].

Definition LEVELS : list string :=
  ["DEBUG"; "INFO"; "WARNING"; "ERROR"; "CRITICAL"].

Definition MESSAGES : list string :=
  ["Connection timeout to database";
   "User login failed for user_id=%s";
   "Rate limit exceeded for IP %s";
   "File not found: %s";
   "OutOfMemoryError in worker %s";
   "Invalid token received";
   "Request completed in %s ms";
   "Health check passed";
   "Cache miss for key %s"].

Record Scenario : Type := mkScenario {
  error_spike : bool;
  malformed_fraction : float;
  alt_fraction : float
}.

Definition normal : Scenario := mkScenario false 0%float 0%float.

Definition SCENARIOS : list (string * Scenario) :=
  [("normal", normal);
   ("error_spike", mkScenario true 0%float 0%float);
   ("malformed", mkScenario false 0x1.3333333333333p-2%float 0%float);
   ("alt_fields", mkScenario false 0%float 1%float);
   ("mixed", mkScenario false 0x1.999999999999ap-4%float 0x1.999999999999ap-2%float)].

(** [SCENARIOS.get(scenario_id, SCENARIOS["normal"])] *)
Definition scenario_opts (scenario_id : string) : Scenario :=
  match find (fun kv => String.eqb scenario_id (fst kv)) SCENARIOS with
  | Some kv => snd kv
  | None => normal
  end.

(** What the random generator and the clock give to one call of [one_log]
    and to the two draws of [run_scenario] before it: the two values of
    [random.random()], the indices that [random.choice] picks, the two
    [randint]s, [ts] (the clock less the drawn number of seconds) and
    [int(ts.timestamp() * 1000)], which depends on the local time zone. *)
Record Draws : Type := mkDraws {
  u_malformed : float;
  u_alt : float;
  pick_level : nat;
  pick_service : nat;
  pick_message : nat;
  arg : Z;
  ts : datetime;
  ts_millis : Z;
  req : Z
}.

(** [random.choice(l)], the index drawn being [k]. *)
Definition choice (l : list string) (k : nat) : string := nth k l "".

(** [tpl % (arg,)] for a template with one [%s] and no other directive;
    [None] when [%s] is not in [tpl]. *)
Fixpoint format_s (tpl arg : string) : option string :=
  match tpl with
  | EmptyString => None
  | String c rest =>
      match c, rest with
      | "%"%char, String "s"%char rest' => Some (arg ++ rest')
      | _, _ => option_map (String c) (format_s rest arg)
      end
  end.

Definition one_log (d : Draws) (level : option string)
  (malformed alt_fields : bool) : list (string * pyval) :=
  let level :=
    match level with
    | Some l => if Str.nonempty l then l else choice LEVELS (pick_level d)
    | None => choice LEVELS (pick_level d)
    end in
  let service := choice SERVICES (pick_service d) in
  let msg_tpl := choice MESSAGES (pick_message d) in
  let msg :=
    match format_s msg_tpl (Str.of_Z (arg d)) with
    | Some m => m
    | None => msg_tpl
    end in
  let correlation := "req-" ++ Str.of_Z (req d) in
  if malformed then [("level", VStr "INVALID"); ("message", VStr "")]
  else if alt_fields then
    [("lvl", VStr level); ("msg", VStr msg); ("service_name", VStr service);
     ("ts", VInt (ts_millis d)); ("traceId", VStr correlation)]
  else
    [("timestamp", VStr (Datetime.isoformat (ts d) ++ "Z"));
     ("level", VStr level); ("message", VStr msg); ("service", VStr service);
     ("correlation_id", VStr correlation)].

Record ScenarioResult : Type := mkScenarioResult {
  total_accepted : Z;
  total_rejected : Z;
  batches_sent : Z;
  message : string
}.

(** The variables of the loop of [run_scenario], with the database and the
    two lists of [app.ingest]. *)
Record RunState : Type := mkRunState {
  run_accepted : Z;
  run_rejected : Z;
  run_sent : Z;
  run_db : Db.Database;
  run_memory : Recent.Memory
}.

Section Run.
Context `{PyLib}.
Variable settings : Settings.
(** For item [j] of batch [b]: the draws, and the clock and the storage
    fault of its ingestion; for batch [b], the clock of its records. *)
Variable draws : nat -> nat -> Draws.
Variable clock : nat -> nat -> datetime.
Variable faults : nat -> nat -> Ingest.fault.
Variable tick : nat -> nat -> datetime.

(** The inner loop: the batch [b]. *)
Definition make_batch (opts : Scenario) (b : nat) (batch_size : Z)
  : list pyval :=
  List.map
    (fun j =>
       let d := draws b j in
       let malformed := PrimFloat.ltb (u_malformed d) (malformed_fraction opts) in
       let alt := PrimFloat.ltb (u_alt d) (alt_fraction opts) && negb malformed in
       let level := if error_spike opts then Some "ERROR" else None in
       VDict (one_log d level malformed alt))
    (seq 0 (Z.to_nat batch_size)).

(** One turn of the outer loop. *)
Definition run_batch (opts : Scenario) (batch_size : Z) (st : RunState)
  (b : nat) : RunState :=
  let '((accepted, rejected, _), db, mem) :=
    Recent.process_logs settings (clock b) (faults b) (tick b)
      (make_batch opts b batch_size) (run_db st) (run_memory st) in
  mkRunState (run_accepted st + accepted) (run_rejected st + rejected)
    (run_sent st + 1) db mem.

Definition run_scenario (scenario_id : string) (batches batch_size : Z)
  (db : Db.Database) (mem : Recent.Memory)
  : ScenarioResult * Db.Database * Recent.Memory :=
  let opts := scenario_opts scenario_id in
  let st :=
    fold_left (run_batch opts batch_size) (seq 0 (Z.to_nat batches))
      (mkRunState 0 0 0 db mem) in
  (mkScenarioResult (run_accepted st) (run_rejected st) (run_sent st)
     ("Sent " ++ Str.of_Z (run_sent st) ++ " batches; "
      ++ Str.of_Z (run_accepted st) ++ " accepted, "
      ++ Str.of_Z (run_rejected st) ++ " rejected."),
   run_db st, run_memory st).

(** [generator_send] of [app/main.py], for a body whose [batches] and
    [batch_size] are integers or are missing. *)
Definition generator_send (scenario : option string)
  (batches batch_size : option Z) (db : Db.Database) (mem : Recent.Memory)
  : ScenarioResult * Db.Database * Recent.Memory :=
  let scenario :=
    match scenario with
    | Some s => if Str.nonempty s then s else "normal"
    | None => "normal"
    end in
  let batches := match batches with Some n => n | None => 20 end in
  let batch_size := match batch_size with Some n => n | None => 5 end in
  let batches := Z.max 1 (Z.min batches 100) in
  let batch_size := Z.max 1 (Z.min batch_size 50) in
  run_scenario scenario batches batch_size db mem.

End Run.

End Generator.

Module GeneratorProps.
Import Db Ingest IngestProps Generator.

Section Totals.
Context `{PyLib}.
Variable settings : Settings.
Variable draws : nat -> nat -> Draws.
Variable clock : nat -> nat -> datetime.
Variable faults : nat -> nat -> fault.
Variable tick : nat -> nat -> datetime.

(** The two tallies of one batch. *)
Lemma process_logs_sum (ck : nat -> datetime) (fs : nat -> fault)
  (raw_logs : list pyval) (db : Database) :
  let '((accepted, rejected, _), _) :=
    process_logs settings ck fs raw_logs db in
  accepted + rejected = Z.of_nat (List.length raw_logs)
  /\ 0 <= accepted /\ 0 <= rejected.
Proof.
  unfold process_logs.
  destruct (loop_tally settings ck fs raw_logs
              (mkLoopState 0 0 [] (get_connection db)) 0)
    as (_ & Hsum & Hrej & _).
  cbv zeta in Hsum, Hrej. cbn in Hsum, Hrej.
  pose proof (rejections_length settings ck fs raw_logs 0).
  lia.
Qed.

Lemma make_batch_length (opts : Scenario) (b : nat) (batch_size : Z) :
  Z.of_nat (List.length (make_batch draws opts b batch_size))
  = Z.max batch_size 0.
Proof. unfold make_batch. rewrite length_map, length_seq. lia. Qed.

Lemma run_batch_totals (opts : Scenario) (batch_size : Z) (st : RunState)
  (b : nat) :
  let st' := run_batch settings draws clock faults tick opts batch_size st b in
  run_sent st' = run_sent st + 1
  /\ run_accepted st' + run_rejected st'
     = run_accepted st + run_rejected st + Z.max batch_size 0
  /\ run_accepted st <= run_accepted st'
  /\ run_rejected st <= run_rejected st'.
Proof.
  cbv zeta. unfold run_batch, Recent.process_logs.
  pose proof (process_logs_sum (clock b) (faults b)
                (make_batch draws opts b batch_size) (run_db st)) as Hs.
  rewrite make_batch_length in Hs.
  destruct (process_logs _ _ _ _ _) as [[[a r] e] db']. cbn. lia.
Qed.

Lemma run_batches_totals (opts : Scenario) (batch_size : Z) (bs : list nat)
  (st : RunState) :
  let st' :=
    fold_left (run_batch settings draws clock faults tick opts batch_size)
      bs st in
  run_sent st' = run_sent st + Z.of_nat (List.length bs)
  /\ run_accepted st' + run_rejected st'
     = run_accepted st + run_rejected st
       + Z.of_nat (List.length bs) * Z.max batch_size 0
  /\ run_accepted st <= run_accepted st'
  /\ run_rejected st <= run_rejected st'.
Proof.
  cbv zeta. revert st. induction bs as [|b bs IH]; intros st.
  - cbn. lia.
  - cbn [fold_left List.length].
    pose proof (run_batch_totals opts batch_size st b) as Hb.
    cbv zeta in Hb.
    specialize (IH (run_batch settings draws clock faults tick opts
                      batch_size st b)).
    nia.
Qed.

End Totals.

(** X16. [run_scenario] sends [batches] batches (none when [batches] is
    negative) and accounts for every generated item: the accepted and the
    rejected totals it reports add up to [batches] times [batch_size], in
    every scenario and whatever the ingestion of the items does. *)
Theorem run_scenario_totals `{PyLib} (settings : Settings)
  (draws : nat -> nat -> Draws) (clock : nat -> nat -> datetime)
  (faults : nat -> nat -> fault) (tick : nat -> nat -> datetime)
  (scenario_id : string) (batches batch_size : Z)
  (db : Database) (mem : Recent.Memory) :
  let r :=
    fst (fst (run_scenario settings draws clock faults tick scenario_id
                batches batch_size db mem)) in
  batches_sent r = Z.max batches 0
  /\ total_accepted r + total_rejected r
     = Z.max batches 0 * Z.max batch_size 0
  /\ 0 <= total_accepted r
  /\ 0 <= total_rejected r.
Proof.
  cbv zeta. unfold run_scenario. cbn [fst batches_sent total_accepted
                                        total_rejected].
  pose proof (run_batches_totals settings draws clock faults tick
                (scenario_opts scenario_id) batch_size
                (seq 0 (Z.to_nat batches)) (mkRunState 0 0 0 db mem)) as Ht.
  cbv zeta in Ht. rewrite length_seq in Ht. cbn in Ht.
  replace (Z.of_nat (Z.to_nat batches)) with (Z.max batches 0) in Ht by lia.
  lia.
Qed.

(** X17. [generator_send] clamps its two numbers: it sends between 1 and
    100 batches of between 1 and 50 items, so at most 5000 items, and the
    totals it returns add up to the number of items sent. *)
Theorem generator_send_bounded `{PyLib} (settings : Settings)
  (draws : nat -> nat -> Draws) (clock : nat -> nat -> datetime)
  (faults : nat -> nat -> fault) (tick : nat -> nat -> datetime)
  (scenario : option string) (batches batch_size : option Z)
  (db : Database) (mem : Recent.Memory) :
  let r :=
    fst (fst (generator_send settings draws clock faults tick scenario
                batches batch_size db mem)) in
  1 <= batches_sent r <= 100
  /\ batches_sent r <= total_accepted r + total_rejected r
     <= 50 * batches_sent r
  /\ total_accepted r + total_rejected r <= 5000.
Proof.
  cbv zeta. unfold generator_send.
  set (bn := Z.max 1 (Z.min match batches with Some n => n | None => 20 end 100)).
  set (bs := Z.max 1 (Z.min match batch_size with Some n => n | None => 5 end 50)).
  set (sc := match scenario with Some s => _ | None => _ end).
  pose proof (run_batches_totals settings draws clock faults tick
                (scenario_opts sc) bs (seq 0 (Z.to_nat bn))
                (mkRunState 0 0 0 db mem)) as Ht.
  cbv zeta in Ht. rewrite length_seq in Ht. cbn in Ht.
  unfold run_scenario. cbn [fst batches_sent total_accepted total_rejected].
  assert (1 <= bn <= 100) by (unfold bn; lia).
  assert (1 <= bs <= 50) by (unfold bs; lia).
  nia.
Qed.

End GeneratorProps.

Module ShapesProps.
Import Normalize PipelineProps.

Lemma normalize_fields `{PyLib} (now : datetime) (raw : list (string * pyval))
  (c : CanonicalLog) :
  normalize now raw = Ok c ->
  level c = _coerce_level (_find_value raw LEVEL_ALIASES)
  /\ message c
     = Str.or_else (_coerce_string (_find_value raw MESSAGE_ALIASES))
         "(no message)"
  /\ service c
     = Str.or_else (_coerce_string (_find_value raw SERVICE_ALIASES)) "unknown"
  /\ correlation_id c
     = Str.or_else (_coerce_string (_find_value raw CORRELATION_ALIASES)) "".
Proof.
  unfold normalize.
  destruct (_coerce_timestamp now _); cbn [bind]; [|discriminate].
  intros [= <-]. cbn. auto.
Qed.

(** The value of the one key of [raw] that matches [aliases]; the keys of
    [raw] are given. *)
Ltac find_key k :=
  apply (find_value_of_key _ _ k);
  [ repeat constructor; cbn; intuition discriminate
  | cbn [In]; tauto
  | reflexivity
  | let k' := fresh "k" in
    let v' := fresh "v" in
    let Hin := fresh "Hin" in
    intros k' v' Hin; cbn [In] in Hin;
    repeat (destruct Hin as [Hin | Hin];
            [injection Hin as <- _;
             first [reflexivity | intros F; vm_compute in F; discriminate]|]);
    destruct Hin ].

Lemma alt_shape_fields `{PyLib} (a b c e : string) (n : Z) (now : datetime)
  (cl : CanonicalLog) :
  normalize now
    [("lvl", VStr a); ("msg", VStr b); ("service_name", VStr c);
     ("ts", VInt n); ("traceId", VStr e)] = Ok cl ->
  level cl = _coerce_level (VStr a)
  /\ message cl = Str.or_else (_coerce_string (VStr b)) "(no message)"
  /\ service cl = Str.or_else (_coerce_string (VStr c)) "unknown"
  /\ correlation_id cl = Str.or_else (_coerce_string (VStr e)) "".
Proof.
  intros Hn. apply normalize_fields in Hn as (-> & -> & -> & ->).
  repeat split.
  - f_equal. find_key "lvl".
  - do 2 f_equal. find_key "msg".
  - do 2 f_equal. find_key "service_name".
  - do 2 f_equal. find_key "traceId".
Qed.

Lemma standard_shape_fields `{PyLib} (t a b c e : string) (now : datetime)
  (cl : CanonicalLog) :
  normalize now
    [("timestamp", VStr t); ("level", VStr a); ("message", VStr b);
     ("service", VStr c); ("correlation_id", VStr e)] = Ok cl ->
  level cl = _coerce_level (VStr a)
  /\ message cl = Str.or_else (_coerce_string (VStr b)) "(no message)"
  /\ service cl = Str.or_else (_coerce_string (VStr c)) "unknown"
  /\ correlation_id cl = Str.or_else (_coerce_string (VStr e)) "".
Proof.
  intros Hn. apply normalize_fields in Hn as (-> & -> & -> & ->).
  repeat split.
  - f_equal. find_key "level".
  - do 2 f_equal. find_key "message".
  - do 2 f_equal. find_key "service".
  - do 2 f_equal. find_key "correlation_id".
Qed.

(** X18. The two shapes of a generated entry mean the same: the entry with
    the alternate field names ([lvl], [msg], [service_name], [traceId]) and
    the entry with the standard names are normalised to the same level,
    message, service and correlation id. *)
Theorem one_log_shapes_agree `{PyLib} (d : Generator.Draws)
  (lvl : option string) (now1 now2 : datetime) (c1 c2 : CanonicalLog) :
  normalize now1 (Generator.one_log d lvl false true) = Ok c1 ->
  normalize now2 (Generator.one_log d lvl false false) = Ok c2 ->
  level c1 = level c2
  /\ message c1 = message c2
  /\ service c1 = service c2
  /\ correlation_id c1 = correlation_id c2.
Proof.
  intros H1 H2.
  cbv beta iota zeta delta [Generator.one_log] in H1, H2.
  apply alt_shape_fields in H1 as (-> & -> & -> & ->).
  apply standard_shape_fields in H2 as (-> & -> & -> & ->).
  auto.
Qed.

Definition sample_draws : Generator.Draws :=
  Generator.mkDraws 0x1p-1%float 0x1p-1%float 3 1 1 4821 NormalizeProps.noon
    1700000000000 1234.

Lemma one_log_shapes_agree_witness :
  exists c1 c2,
    @normalize plain_lib NormalizeProps.noon
      (Generator.one_log sample_draws None false true) = Ok c1
    /\ @normalize plain_lib NormalizeProps.noon
         (Generator.one_log sample_draws None false false) = Ok c2
    /\ message c1 = "User login failed for user_id=4821"
    /\ message c1 = message c2.
Proof.
  do 2 eexists.
  split; [vm_compute; reflexivity|].
  split; [vm_compute; reflexivity|].
  split; [reflexivity|].
  eapply (@one_log_shapes_agree plain_lib sample_draws None
            NormalizeProps.noon NormalizeProps.noon);
    vm_compute; reflexivity.
Defined.

End ShapesProps.

(** *** The filters of the two queries *)

Module FilterProps.
Import Db Sql SqlProps GroupProps.

(** What a filter that is set demands of a column. *)
Definition filter_holds (value : option string) (column : string) : Prop :=
  forall v, value = Some v -> Str.nonempty v = true -> column = v.

Lemma opt_eq_holds (value : option string) (column : string) :
  opt_eq value column = true -> filter_holds value column.
Proof.
  unfold opt_eq, filter_holds. intros Hc v -> Hv. rewrite Hv in Hc.
  now apply String.eqb_eq.
Qed.

Lemma map_result_inv {A B : Type} (f : A -> result B) (l : list A)
  (bs : list B) :
  Group.map_result f l = Ok bs ->
  forall b, In b bs -> exists a, In a l /\ f a = Ok b.
Proof.
  revert bs. induction l as [|a l IH]; intros bs; cbn.
  - intros [= <-] b [].
  - destruct (f a) as [b0|] eqn:Ea; cbn; [|discriminate].
    destruct (Group.map_result f l) as [bs0|]; cbn; [|discriminate].
    intros [= <-] b [<- | Hb].
    + exists a. auto.
    + destruct (IH bs0 eq_refl b Hb) as (a' & Ha' & Ef). exists a'. auto.
Qed.

(** The bare columns of a group come from a row that passed the WHERE
    clause, the sample message from a row of the table. *)
Lemma select_group_columns (table : list Row)
  (service level since : option string) (gid : string) (g : Group.GroupRow) :
  Group.select_group table
    (filter (Group.where_clause service level since) table) gid = Some g ->
  filter_holds service (Group.col_service g)
  /\ filter_holds level (Group.col_level g)
  /\ exists r, In r table /\ row_group_id r = gid
               /\ Group.col_sample_message g = Some (row_message r).
Proof.
  unfold Group.select_group.
  set (filtered := filter _ table).
  destruct (members gid filtered) as [|r rest] eqn:E; [discriminate|].
  intros [= <-]. cbn.
  assert (Hr : In r (members gid filtered)) by (rewrite E; now left).
  apply members_In in Hr as (Hr & Hg).
  apply filter_In in Hr as (Hr & Hw).
  unfold Group.where_clause in Hw.
  apply andb_true_iff in Hw as (Hw & _).
  apply andb_true_iff in Hw as (Hs & Hl).
  split; [now apply opt_eq_holds|]. split; [now apply opt_eq_holds|].
  assert (Hin : In r (members gid table)) by now apply members_In.
  destruct (members gid table) as [|r0 rest0] eqn:E0; [destruct Hin|].
  exists r0. cbn.
  assert (H0 : In r0 (members gid table)) by (rewrite E0; now left).
  apply members_In in H0 as (H0 & Hg0). auto.
Qed.

Lemma to_item_columns `{PyLib} (row : Group.GroupRow) (item : Group.GroupItem) :
  Group.to_item row = Ok item ->
  Group.group_id item = Group.col_group_id row
  /\ Group.service item = Group.col_service row
  /\ Group.level item = Group.col_level row
  /\ forall m, Group.col_sample_message row = Some m ->
               Group.sample_message item = m.
Proof.
  unfold Group.to_item.
  destruct (fromisoformat (Group.col_first_seen row)); [|discriminate].
  destruct (fromisoformat (Group.col_last_seen row)); [|discriminate].
  intros [= <-]. cbn. repeat split.
  intros m ->. unfold Str.or_else. now destruct m.
Qed.

(** X19. Every group that [get_groups] returns is of the service and of the
    level asked for (when the filter is set and not empty), and its sample
    message is the message of a stored entry of the group. *)
Theorem get_groups_filtered `{PyLib} (service level : option string)
  (limit : Z) (since : option string) (db : Database)
  (resp : Group.GroupResponse) (db' : Database) :
  Group.get_groups service level limit since db = (Ok resp, db') ->
  forall g, In g (Group.groups resp) ->
    filter_holds service (Group.service g)
    /\ filter_holds level (Group.level g)
    /\ exists r, In r (logs db) /\ row_group_id r = Group.group_id g
                 /\ Group.sample_message g = row_message r.
Proof.
  unfold Group.get_groups, get_connection, close. cbn [database].
  change (logs (init_db db)) with (logs db).
  destruct (bind_int limit) as [n|]; cbn [bind]; [|discriminate].
  destruct (Group.map_result Group.to_item _) as [gs|] eqn:Em; cbn [bind];
    [|discriminate].
  intros [= <- _] g Hg. cbn [Group.groups] in Hg.
  destruct (map_result_inv _ _ _ Em g Hg) as (row & Hrow & Hitem).
  destruct (select_groups_spec (logs db) service level since n)
    as (_ & _ & _ & Hsel).
  apply Hsel, select_group_columns in Hrow as (Hs & Hl & r & Hr & Hgid & Hm).
  apply to_item_columns in Hitem as (-> & -> & -> & Hmsg).
  split; [exact Hs|]. split; [exact Hl|].
  exists r. repeat split; auto.
Qed.

Lemma get_groups_filtered_witness :
  exists resp,
    fst (@Group.get_groups iso_lib (Some "cache") None 10 None sample_db)
    = Ok resp
    /\ forall g, In g (Group.groups resp) -> Group.service g = "cache".
Proof.
  eexists. split; [vm_compute; reflexivity|].
  intros g Hg.
  refine (proj1 (@get_groups_filtered iso_lib (Some "cache") None 10 None
                   sample_db _ (init_db sample_db) _ g Hg)
            "cache" eq_refl eq_refl).
  vm_compute. reflexivity.
Defined.

Import Spikes SpikesProps.

Lemma cur_group_columns (filtered : list Row) (gid : string) (c : CurRow) :
  cur_group filtered gid = Some c ->
  exists r, In r filtered
            /\ cur_service c = row_service r /\ cur_level c = row_level r.
Proof.
  unfold cur_group.
  destruct (members gid filtered) as [|r rest] eqn:E; [discriminate|].
  intros [= <-]. cbn. exists r. repeat split.
  assert (Hr : In r (members gid filtered)) by (rewrite E; now left).
  now apply members_In in Hr.
Qed.

Lemma cur_table_columns (table : list Row) (cur_start_s : string)
  (service level : option string) (c : CurRow) :
  In c (cur_table table cur_start_s service level) ->
  filter_holds service (cur_service c) /\ filter_holds level (cur_level c).
Proof.
  unfold cur_table. cbv zeta. intros Hc.
  apply In_somes in Hc as (gid & _ & Hc).
  apply cur_group_columns in Hc as (r & Hr & -> & ->).
  apply filter_In in Hr as (_ & Hw). unfold w_cur in Hw.
  apply andb_true_iff in Hw as (Hw & Hl).
  apply andb_true_iff in Hw as (_ & Hs).
  split; now apply opt_eq_holds.
Qed.

(** X20. [get_spikes] reports a group only when the group has an entry in
    the baseline window: a group seen for the first time in the current
    window is not reported, however many entries it has, and the baseline
    average of a report is above zero. The reports are of the service and of
    the level asked for. *)
Theorem get_spikes_needs_baseline (now : datetime) (window_minutes : Z)
  (ratio_threshold : float) (baseline_windows : Z)
  (service level : option string) (db : Database)
  (cur_start base_start : datetime) :
  1 <= baseline_windows < 2 ^ 63 ->
  window_bounds now window_minutes baseline_windows
  = Ok (cur_start, base_start) ->
  exists resp,
    get_spikes now window_minutes ratio_threshold baseline_windows service
      level db = (Ok resp, init_db db)
    /\ forall s, In s (spikes resp) ->
         baseline_window (Datetime.isoformat base_start)
           (Datetime.isoformat cur_start) service level (Spikes.group_id s)
           (logs db) <> []
         /\ PrimFloat.ltb 0%float (baseline_avg s) = true
         /\ filter_holds service (Spikes.service s)
         /\ filter_holds level (Spikes.level s).
Proof.
  intros Hbw Hwin. eexists. split;
    [exact (get_spikes_returns now window_minutes ratio_threshold
              baseline_windows service level db cur_start base_start
              Hbw Hwin)|].
  cbn [spikes]. intros s Hs.
  apply in_map_iff in Hs as (row & <- & Hrow).
  apply select_spikes_member in Hrow as (c & Hc & Hp & ->).
  cbn [to_item select_row Spikes.group_id baseline_avg Spikes.service
         Spikes.level col_group_id col_baseline_avg col_service col_level].
  destruct (cur_table_columns _ _ _ _ _ Hc) as (Hs & Hl).
  pose proof Hp as Hp'. apply passes_iff in Hp' as (Hpos & _).
  destruct (javg_cases (logs db) (Datetime.isoformat cur_start)
              (Datetime.isoformat base_start) baseline_windows service level c)
    as [(E & _) | E].
  - rewrite E in Hp. discriminate.
  - rewrite E. repeat split; auto.
    intros F. unfold baseline_average in Hpos. rewrite F in Hpos.
    unfold positive_avg in Hpos. change (count_rows []) with 0 in Hpos.
    now rewrite NumProps.zero_div_not_positive in Hpos.
Qed.

Lemma get_spikes_needs_baseline_witness :
  exists resp,
    get_spikes sample_now 5 2%float 6 None (Some "ERROR") spike_db
    = (Ok resp, init_db spike_db)
    /\ forall s, In s (spikes resp) ->
         PrimFloat.ltb 0%float (baseline_avg s) = true
         /\ Spikes.level s = "ERROR".
Proof.
  destruct (get_spikes_needs_baseline sample_now 5 2%float 6 None
              (Some "ERROR") spike_db sample_cur_start sample_base_start)
    as (resp & H1 & H2).
  - lia.
  - exact sample_bounds.
  - exists resp. split; [exact H1|]. intros s Hs.
    destruct (H2 s Hs) as (_ & Hp & _ & Hl).
    split; [exact Hp | exact (Hl "ERROR" eq_refl eq_refl)].
Defined.

End FilterProps.

(** *** The dashboard totals after a batch *)

Module DashboardProps.
Import Db Ingest IngestProps StoreProps Sql Stats.

Lemma group_keys_grow (a b : list Row) :
  (List.length (group_keys a) <= List.length (group_keys (a ++ b)))%nat.
Proof.
  unfold group_keys. apply NoDup_incl_length; [apply NoDup_nodup|].
  intros k Hk. apply nodup_In. apply nodup_In in Hk.
  rewrite map_app. apply in_or_app. now left.
Qed.

(** X21. The totals of the dashboard follow the ingestion: after a batch
    none of whose COMMITs failed, [get_stats] counts [accepted] more stored
    entries and [rejected] more rejections than before, and no fewer
    groups. (The counter is followed while it fits 64 bits.) *)
Theorem get_stats_after_batch `{PyLib} (settings : Settings)
  (clock : nat -> datetime) (faults : nat -> fault)
  (raw_logs : list pyval) (db : Database) (n : Z) :
  (forall j, no_commit_fault (faults j)) ->
  Db.total_rejected db = SqlInt n ->
  - 2 ^ 63 <= n ->
  n + Z.of_nat (List.length raw_logs) < 2 ^ 63 ->
  let '((accepted, rejected, _), db') :=
    process_logs settings clock faults raw_logs db in
  let before := fst (get_stats db) in
  let after := fst (get_stats db') in
  total_logs after = total_logs before + accepted
  /\ Stats.total_rejected before = SqlInt n
  /\ Stats.total_rejected after = SqlInt (n + rejected)
  /\ total_groups before <= total_groups after.
Proof.
  intros Hf Hn Hlo Hhi.
  pose proof (process_logs_added settings clock faults raw_logs db) as Hadd.
  cbv zeta in Hadd. destruct Hadd as (added & Hlogs & _).
  unfold process_logs in *. cbn [snd] in Hlogs.
  set (st0 := mkLoopState 0 0 [] (get_connection db)) in *.
  destruct (loop_accepts settings clock faults raw_logs st0 0 Hf eq_refl)
    as (_ & Hsize).
  destruct (loop_tally settings clock faults raw_logs st0 0)
    as (Hc & Hsum & Hrej & _).
  pose proof (rejections_length settings clock faults raw_logs 0) as Hlen.
  cbv zeta in Hsize, Hc, Hsum, Hrej.
  set (st := loop settings clock faults st0 0 raw_logs) in *.
  unfold table_size in Hsize. cbn in Hsize, Hsum, Hrej.
  assert (Hst : ingest_totals (close (conn st)) = Some (SqlInt n)).
  { unfold close. unfold counter_of in Hc. rewrite Hc.
    unfold st0, get_connection. cbn [conn database].
    now rewrite init_db_total, Hn. }
  assert (Hbefore : ingest_totals (init_db db) = Some (SqlInt n))
    by now rewrite init_db_total, Hn.
  set (db' := if rejected st >? 0
              then add_rejected_count (rejected st) (close (conn st))
              else close (conn st)) in *.
  assert (Hafter : ingest_totals db' = Some (SqlInt (n + rejected st))).
  { unfold db'. destruct (Z.gtb_spec (rejected st) 0) as [Hpos | Hzero].
    - unfold add_rejected_count. cbn. rewrite Hst. cbn.
      assert (Hfit : fits_int64 (n + rejected st) = true).
      { unfold fits_int64. apply andb_true_iff. split.
        - apply Z.leb_le. lia.
        - apply Z.ltb_lt. lia. }
      now rewrite Hfit.
    - rewrite Hst. do 2 f_equal. lia. }
  assert (Hrows : Z.of_nat (List.length (logs db'))
                  = Z.of_nat (List.length (logs db)) + accepted st).
  { unfold db'. destruct (rejected st >? 0);
      unfold add_rejected_count, close; cbn; rewrite ?app_nil_r; lia. }
  cbv zeta. unfold get_stats, get_connection, close.
  cbn [fst database total_logs Stats.total_rejected total_groups].
  change (logs (init_db db)) with (logs db).
  change (logs (init_db db')) with (logs db').
  rewrite Hbefore. rewrite (init_db_total db').
  unfold Db.total_rejected. rewrite Hafter.
  unfold count_rows. split; [exact Hrows|]. split; [reflexivity|].
  split; [reflexivity|].
  rewrite Hlogs. apply inj_le, group_keys_grow.
Qed.

Lemma get_stats_after_batch_witness :
  let '((accepted, rejected, _), db') :=
    @process_logs plain_lib default_settings (fun _ => NormalizeProps.noon)
      sample_faults sample_batch empty_db in
  let before := fst (get_stats empty_db) in
  let after := fst (get_stats db') in
  total_logs after = total_logs before + accepted
  /\ Stats.total_rejected before = SqlInt 0
  /\ Stats.total_rejected after = SqlInt (0 + rejected)
  /\ total_groups before <= total_groups after.
Proof.
  apply (@get_stats_after_batch plain_lib default_settings
           (fun _ => NormalizeProps.noon) sample_faults sample_batch
           empty_db 0).
  - intros [|[|[|[|j]]]]; exact I.
  - reflexivity.
  - lia.
  - cbn. lia.
Defined.

End DashboardProps.
